(** * dadoo: the container-exec supervisor of guardian

    A shallow embedding of [cmd/dadoo/main_linux.go].  Every operating-system
    call of the program is an [Event]; what the operating system answers is
    read from an environment record [Env].  Each goroutine of the program is a
    computation in a small trace-and-abort monad; the goroutines are put
    together by an interleaving semantics that interprets the shared
    [sync.WaitGroup] counter [ioWg]. *)

From Stdlib Require Import ZArith List String Ascii Bool Lia.
From Stdlib Require Import DecimalString DecimalPos DecimalZ.
Import ListNotations.
Open Scope string_scope.
Open Scope Z_scope.

(** ** Library functions the program calls *)

(** [strconv.Itoa] and the [%d] verb of [fmt.Sprintf]: decimal digits, with a
    leading minus sign for a negative number. *)
Definition Itoa (n : Z) : string := NilZero.string_of_int (Z.to_int n).

(** [path/filepath]: [Clean] and [Join] on slash-separated paths. *)
Module filepath.

Definition Separator : ascii := "/"%char.

(** The elements of a path, split at every separator. *)
Fixpoint split (s : string) : list string :=
  match s with
  | EmptyString => [EmptyString]
  | String c rest =>
      if Ascii.eqb c Separator then EmptyString :: split rest
      else match split rest with
           | [] => [String c EmptyString]
           | x :: xs => String c x :: xs
           end
  end.

Definition isRooted (s : string) : bool :=
  match s with
  | String c _ => Ascii.eqb c Separator
  | EmptyString => false
  end.

(** One element of the path met by [Clean]; [out] holds the elements kept
    so far, the last one first. *)
Definition cleanStep (rooted : bool) (out : list string) (elem : string)
  : list string :=
  if String.eqb elem "" then out
  else if String.eqb elem "." then out
  else if String.eqb elem ".." then
    match out with
    | top :: below =>
        if String.eqb top ".." then elem :: out else below
    | [] => if rooted then [] else [elem]
    end
  else elem :: out.

Fixpoint joinElems (l : list string) : string :=
  match l with
  | [] => ""
  | [x] => x
  | x :: rest => x ++ "/" ++ joinElems rest
  end.

Definition Clean (path : string) : string :=
  let rooted := isRooted path in
  let out := List.rev (fold_left (cleanStep rooted) (split path) []) in
  match out, rooted with
  | [], true => "/"
  | [], false => "."
  | _, true => "/" ++ joinElems out
  | _, false => joinElems out
  end.

(** [Join]: empty elements are ignored, the result is cleaned, and joining
    nothing gives the empty string. *)
Definition Join (elem : list string) : string :=
  match filter (fun s => negb (String.eqb s "")) elem with
  | [] => ""
  | l => Clean (joinElems l)
  end.

End filepath.

(** [syscall.WaitStatus] on Linux: a 32-bit word, the low seven bits hold the
    terminating signal, bit 7 the core-dump flag, the next byte the exit
    status. *)
Module WaitStatus.

Definition mask : Z := 0x7F.
Definition core : Z := 0x80.
Definition exited : Z := 0x00.
Definition stopped : Z := 0x7F.
Definition shift : Z := 8.

Definition Exited (w : Z) : bool := Z.land w mask =? exited.

Definition Signaled (w : Z) : bool :=
  negb (Z.land w mask =? stopped) && negb (Z.land w mask =? exited).

Definition ExitStatus (w : Z) : Z :=
  if negb (Exited w) then -1
  else Z.land (Z.shiftr w shift) 0xFF.

Definition Signal (w : Z) : Z :=
  if negb (Signaled w) then -1
  else Z.land w mask.

(** The words the kernel builds: [W_EXITCODE] of <sys/wait.h>. *)
Definition ofExit (code : Z) : Z := Z.shiftl code shift.
Definition ofSignal (sig : Z) (dumped : bool) : Z :=
  Z.lor sig (if dumped then core else 0).

End WaitStatus.

(** The conversion [byte(n)] of an [int]. *)
Definition byte (n : Z) : Z := n mod 256.

(** Flags of [os.OpenFile] and of [wait4], signal numbers. *)
Definition O_RDONLY : Z := 0.
Definition O_WRONLY : Z := 1.
Definition O_RDWR : Z := 2.
Definition O_APPEND : Z := 0x400.
Definition WNOHANG : Z := 1.
Definition SIGKILL : Z := 9.

(** The file modes 0600 and 0700, written in octal in the program. *)
Definition mode0600 : Z := 6 * 8 * 8.
Definition mode0700 : Z := 7 * 8 * 8.

(** ** Events, goroutines and the environment *)

Definition error := string.

(** The goroutines of the program.  [TMain] runs [main]; [TBroker] is the
    function literal started by [setupTTYSocket]; the last three are started
    by [streamProcess]. *)
Inductive Tid := TMain | TBroker | TStdoutPump | TStdinPump | TWinsz.

(** A call the program makes.  An event is recorded when the call returns. *)
Inductive Event :=
| EvSignalNotify                                  (* signal.Notify(signals, SIGCHLD) *)
| EvOpenFile (path : string) (flags perm : Z)     (* os.OpenFile *)
| EvWrite (fd : Z) (data : list Z)                (* File.Write on an inherited fd *)
| EvClose (fd : Z)                                (* File.Close on an inherited fd *)
| EvTempDir (base : string)                       (* ioutil.TempDir(base, "") *)
| EvListen (path : string)                        (* net.Listen("unix", path) *)
| EvGo (t : Tid) (captured : list string)         (* a go statement *)
| EvSetSubreaper                                  (* system.SetSubreaper *)
| EvStart (argv : list string) (stdio : bool)     (* Cmd.Start *)
| EvWait4 (pid options : Z)                       (* syscall.Wait4 *)
| EvReadFile (path : string)                      (* ioutil.ReadFile *)
| EvWriteFile (path data : string) (perm : Z)     (* ioutil.WriteFile *)
| EvSigRecv                                       (* a receive from the signals channel *)
| EvIoWgAdd (delta : Z)                           (* ioWg.Add *)
| EvIoWgDone                                      (* ioWg.Done *)
| EvIoWgWait                                      (* ioWg.Wait *)
| EvAccept                                        (* ln.Accept *)
| EvListenerClose                                 (* ln.Close *)
| EvConnClose                                     (* conn.Close *)
| EvConnFile                                      (* unixconn.File *)
| EvSocketClose                                   (* socket.Close *)
| EvRecvFd                                        (* cmsg.RecvFd *)
| EvRemoveAll (path : string)                     (* os.RemoveAll *)
| EvKill (pid sig : Z)                            (* syscall.Kill *)
| EvSleep (ms : Z)                                (* time.Sleep *)
| EvCopyMasterToStdout                            (* io.Copy(stdout, m) has returned *)
| EvCopyStdinToMaster                             (* io.Copy(m, stdin) has returned *)
| EvPrintln (msg : string)                        (* println *)
| EvSetWinSize (columns rows : Z)                 (* dadoo.SetWinSize *)
| EvExit (code : Z)                               (* os.Exit *)
| EvPanic (msg : string).                         (* an unrecovered panic *)

(** How a goroutine stops short of returning: it panics, or it blocks for
    ever in a call that never returns. *)
Inductive Abort :=
| Panic (msg : string)
| Blocked.

(** What [os.OpenFile] answers. *)
Inductive OpenResult :=
| Opened
| NotExist
| OpenFailed (err : error).

(** What [syscall.Wait4] answers: an error, or a pid and a wait status. *)
Inductive Wait4Result :=
| W4Err (err : error)
| W4Ok (wpid status : Z).

(** What a call that may block answers: it never returns, it returns an
    error, or it returns without one. *)
Inductive Answer :=
| NeverReturns
| Fails (err : error)
| Succeeds.

(** One decoding of a window size event from the winsz pipe. *)
Inductive WinszResult :=
| WinszBad (err : error)
| WinszOk (columns rows : Z).

(** The answers of the world to one run of the program. *)
Record Env := {
  (* flag.Parse *)
  flag_tty : bool;
  flag_socketDirPath : string;
  flag_Args : list string;
  (* the main goroutine *)
  os_Getpid : Z;
  os_OpenFile : string -> OpenResult;
  ioutil_TempDir : string -> error + string;
  net_Listen : string -> option error;
  cmd_Start : error + Z;
  wait4_front : error + Z;
  pidfile_main : error + string;
  sigchld : list (list Wait4Result);
  ioutil_WriteFile : option error;
  (* the broker goroutine *)
  ln_Accept : Answer;
  conn_isUnixConn : bool;
  unixconn_File : option error;
  cmsg_RecvFd : Answer;
  pidfile_kill : nat -> error + string;
  (* the goroutines of streamProcess *)
  copy_master_to_stdout : Answer;
  copy_stdin_to_master : Answer;
  winsz_events : list WinszResult
}.

(** The same world with other arguments after the flags. *)
Definition withArgs (args : list string) (e : Env) : Env :=
  {| flag_tty := flag_tty e;
     flag_socketDirPath := flag_socketDirPath e;
     flag_Args := args;
     os_Getpid := os_Getpid e;
     os_OpenFile := os_OpenFile e;
     ioutil_TempDir := ioutil_TempDir e;
     net_Listen := net_Listen e;
     cmd_Start := cmd_Start e;
     wait4_front := wait4_front e;
     pidfile_main := pidfile_main e;
     sigchld := sigchld e;
     ioutil_WriteFile := ioutil_WriteFile e;
     ln_Accept := ln_Accept e;
     conn_isUnixConn := conn_isUnixConn e;
     unixconn_File := unixconn_File e;
     cmsg_RecvFd := cmsg_RecvFd e;
     pidfile_kill := pidfile_kill e;
     copy_master_to_stdout := copy_master_to_stdout e;
     copy_stdin_to_master := copy_stdin_to_master e;
     winsz_events := winsz_events e |}.

(** ** The monad of one goroutine

    A computation yields the calls it made, in order, and either a value or
    the way it stopped. *)
Definition M (A : Type) : Type := list Event * (Abort + A).

Definition ret {A} (a : A) : M A := ([], inr a).

Definition bind {A B} (m : M A) (f : A -> M B) : M B :=
  match m with
  | (tr, inl stop) => (tr, inl stop)
  | (tr, inr a) => let (tr', r) := f a in ((tr ++ tr')%list, r)
  end.

Definition emit (ev : Event) : M unit := ([ev], inr tt).

Definition abort {A} (stop : Abort) : M A := ([], inl stop).

Definition trace {A} (m : M A) : list Event := fst m.
Definition result {A} (m : M A) : Abort + A := snd m.

Declare Scope go_scope.
Delimit Scope go_scope with go.
Notation "x <- m ;; k" := (bind m (fun x => k))
  (at level 61, m at next level, right associativity) : go_scope.
Notation "' p <- m ;; k" := (bind m (fun x => let p := x in k))
  (at level 61, p pattern, m at next level, right associativity) : go_scope.
Notation "m ;; k" := (bind m (fun _ => k))
  (at level 61, right associativity) : go_scope.
Open Scope go_scope.

(** [check]: panic on a non-nil error. *)
Definition check (err : option error) : M unit :=
  match err with
  | Some msg => abort (Panic msg)
  | None => ret tt
  end.

(** An index expression [s[i]] on a slice of strings. *)
Definition index (s : list string) (i : nat) : M string :=
  match nth_error s i with
  | Some x => ret x
  | None => abort (Panic "runtime error: index out of range")
  end.

(** [fmt.Sscanf(s, "%d", &pid)]: leading blanks are skipped, then an optional
    sign and at least one decimal digit are read; what follows is ignored. *)
Module fmt.

Definition isDigit (c : ascii) : bool :=
  let n := Z.of_N (N_of_ascii c) in (48 <=? n) && (n <=? 57).

Definition isBlank (c : ascii) : bool :=
  let n := Z.of_N (N_of_ascii c) in (n =? 32) || (n =? 9) || (n =? 13).

Fixpoint skipBlanks (s : string) : string :=
  match s with
  | String c rest => if isBlank c then skipBlanks rest else s
  | EmptyString => s
  end.

Fixpoint scanDigits (s : string) (acc : option Z) : option Z :=
  match s with
  | String c rest =>
      if isDigit c then
        let d := Z.of_N (N_of_ascii c) - 48 in
        scanDigits rest (Some (10 * match acc with Some n => n | None => 0 end + d))
      else acc
  | EmptyString => acc
  end.

Definition scanNumber (s : string) : error + Z :=
  match scanDigits s None with
  | Some n => inr n
  | None => inl "expected integer"
  end.

Definition Sscanf_d (s : string) : error + Z :=
  match skipBlanks s with
  | String "-"%char rest =>
      match scanNumber rest with inr n => inr (- n) | inl err => inl err end
  | String "+"%char rest => scanNumber rest
  | rest => scanNumber rest
  end.

End fmt.

(** [github.com/eapache/go-resiliency/retrier] with the default classifier: a
    nil error succeeds, any other error is retried while a backoff is left.
    [work] carries the variables its closure captures. *)
Module retrier.

Definition ConstantBackoff (n : nat) (amount : Z) : list Z := repeat amount n.

Fixpoint Run {S : Type} (backoff : list Z) (work : S -> M (S * option error))
    (s : S) : M (S * option error) :=
  '(s', r) <- work s ;;
  match r with
  | None => ret (s', None)
  | Some err =>
      match backoff with
      | [] => ret (s', Some err)
      | d :: rest => emit (EvSleep d) ;; Run rest work s'
      end
  end.

End retrier.

(** ** The program *)

Definition MaxSocketDirPathLength : Z := 80.

Definition len (s : string) : Z := Z.of_nat (String.length s).

Section Program.

Variable e : Env.

(** [parsePid]; [answer] is what [ioutil.ReadFile] gives at this call. *)
Definition parsePid (pidFile : string) (answer : error + string)
  : M (Z * option error) :=
  emit (EvReadFile pidFile) ;;
  match answer with
  | inl err => ret (-1, Some err)
  | inr b =>
      match fmt.Sscanf_d b with
      | inl err => ret (-1, Some err)
      | inr pid => ret (pid, None)
      end
  end.

(** [readPid]: the closure given to the retrier assigns [pid] and [err];
    the first component of its state counts the reads made so far. *)
Definition readPid (pidFilePath : string) : M (Z * option error) :=
  let backoff := retrier.ConstantBackoff 20 500 in
  let work (s : nat * (Z * option error)) :=
    '(pid, err) <- parsePid pidFilePath (pidfile_kill e (fst s)) ;;
    ret ((S (fst s), (pid, err)), err) in
  '(s, _) <- retrier.Run backoff work (O, (-1, None)) ;;
  ret (snd s).

Definition killProcess (pidFilePath : string) : M unit :=
  '(pid, err) <- readPid pidFilePath ;;
  match err with
  | None => emit (EvKill pid SIGKILL)
  | Some _ => ret tt
  end.

(** [streamProcess]: the three go statements.  The bodies of the goroutines
    are [stdoutPump], [stdinPump] and [winszLoop] below. *)
Definition streamProcess : M unit :=
  emit (EvIoWgAdd 1) ;;
  emit (EvGo TStdoutPump []) ;;
  emit (EvGo TStdinPump []) ;;
  emit (EvGo TWinsz []).

(** [defer ioWg.Done(); io.Copy(stdout, m)] *)
Definition stdoutPump : M unit :=
  match copy_master_to_stdout e with
  | NeverReturns => abort Blocked
  | _ => emit EvCopyMasterToStdout ;; emit EvIoWgDone
  end.

(** [io.Copy(m, stdin)] *)
Definition stdinPump : M unit :=
  match copy_stdin_to_master e with
  | NeverReturns => abort Blocked
  | _ => emit EvCopyStdinToMaster
  end.

(** The window size loop: it never returns; when no event is left it
    blocks in the decoder. *)
Fixpoint winszLoop (events : list WinszResult) : M unit :=
  match events with
  | [] => abort Blocked
  | WinszBad _ :: rest => emit (EvPrintln "invalid winsz event") ;; winszLoop rest
  | WinszOk columns rows :: rest => emit (EvSetWinSize columns rows) ;; winszLoop rest
  end.

(** The body of the function literal of [setupTTYSocket], up to its return:
    the value of the named result [err], after the deferred [Close] calls
    that were registered. *)
Definition brokerBody (sockDir : string) : M (option error) :=
  match ln_Accept e with
  | NeverReturns => abort Blocked
  | Fails err => emit EvAccept ;; ret (Some err)
  | Succeeds =>
      emit EvAccept ;;
      emit EvListenerClose ;;
      if negb (conn_isUnixConn e) then
        emit EvConnClose ;; ret None
      else
        emit EvConnFile ;;
        match unixconn_File e with
        | Some err => emit EvConnClose ;; ret (Some err)
        | None =>
            match cmsg_RecvFd e with
            | NeverReturns => abort Blocked
            | Fails err =>
                emit EvRecvFd ;;
                emit EvSocketClose ;; emit EvConnClose ;; ret (Some err)
            | Succeeds =>
                emit EvRecvFd ;;
                emit (EvRemoveAll sockDir) ;;
                streamProcess ;;
                emit EvSocketClose ;; emit EvConnClose ;; ret None
            end
        end
  end.

(** The function literal with its first deferred function, which runs last:
    on an error it kills the process and panics. *)
Definition broker (pidFilePath sockDir : string) : M unit :=
  err <- brokerBody sockDir ;;
  match err with
  | Some msg => killProcess pidFilePath ;; abort (Panic msg)
  | None => ret tt
  end.

Definition setupTTYSocket (pidFilePath sockDirBase : string) : M string :=
  emit (EvTempDir sockDirBase) ;;
  match ioutil_TempDir e sockDirBase with
  | inl err => abort (Panic err)
  | inr sockDir =>
      let ttySockPath := filepath.Join [sockDir; "tty.sock"] in
      emit (EvListen ttySockPath) ;;
      check (net_Listen e ttySockPath) ;;
      emit (EvGo TBroker [pidFilePath; sockDir]) ;;
      ret ttySockPath
  end.

(** [openFifo]: [true] for an open file, [false] for the nil the function
    returns when the path does not exist. *)
Definition openFifo (path : string) (flags : Z) : M bool :=
  emit (EvOpenFile path flags mode0600) ;;
  match os_OpenFile e path with
  | NotExist => ret false
  | OpenFailed err => abort (Panic err)
  | Opened => ret true
  end.

Definition openPipes (processStateDir : string) : M (bool * bool * bool * bool) :=
  stdin <- openFifo (filepath.Join [processStateDir; "stdin"]) O_RDONLY ;;
  stdout <- openFifo (filepath.Join [processStateDir; "stdout"]) (Z.lor O_WRONLY O_APPEND) ;;
  stderr <- openFifo (filepath.Join [processStateDir; "stderr"]) (Z.lor O_WRONLY O_APPEND) ;;
  winsz <- openFifo (filepath.Join [processStateDir; "winsz"]) O_RDWR ;;
  openFifo (filepath.Join [processStateDir; "exit"]) O_RDWR ;;
  ret (stdin, stdout, stderr, winsz).

(** The exit code the reaper computes from the wait status. *)
Definition exitCodeOf (status : Z) : Z :=
  if WaitStatus.Signaled status then 128 + WaitStatus.Signal status
  else WaitStatus.ExitStatus status.

(** The inner loop of [waitForContainerToExit]: [Some c] when the function
    returns [c], [None] at the [break].  [answers] are the answers of the
    successive [Wait4] calls; when none is left no child is pending. *)
Fixpoint reapChildren (processStateDir : string) (containerPid : Z)
    (answers : list Wait4Result) : M (option Z) :=
  emit (EvWait4 (-1) WNOHANG) ;;
  match answers with
  | [] => ret None
  | W4Err _ :: _ => ret None
  | W4Ok wpid status :: rest =>
      if wpid <=? 0 then ret None
      else if wpid =? containerPid then
        let exitCode := exitCodeOf status in
        emit EvIoWgWait ;;
        emit (EvWriteFile (filepath.Join [processStateDir; "exitcode"])
                          (Itoa exitCode) mode0700) ;;
        check (ioutil_WriteFile e) ;;
        ret (Some exitCode)
      else reapChildren processStateDir containerPid rest
  end.

(** [waitForContainerToExit]: one round per signal received.  The channel
    is never closed, so when no signal is left the receive blocks. *)
Fixpoint waitForContainerToExit (processStateDir : string) (containerPid : Z)
    (signals : list (list Wait4Result)) : M Z :=
  match signals with
  | [] => abort Blocked
  | answers :: rest =>
      emit EvSigRecv ;;
      r <- reapChildren processStateDir containerPid answers ;;
      match r with
      | Some exitCode => ret exitCode
      | None => waitForContainerToExit processStateDir containerPid rest
      end
  end.

Definition procFd (fd : string) : string :=
  "/proc/" ++ Itoa (os_Getpid e) ++ "/fd/" ++ fd.

(** The command of the TTY branch and of the other branch. *)
Definition ttyCommand (runtime logFile ttySocketPath pidFilePath containerId : string)
  : list string :=
  [runtime; "-debug"; "-log"; logFile; "exec"; "-d"; "-tty";
   "-console-socket"; ttySocketPath; "-p"; procFd "0";
   "-pid-file"; pidFilePath; containerId].

Definition plainCommand (runtime logFile pidFilePath containerId : string)
  : list string :=
  [runtime; "-debug"; "-log"; logFile; "exec"; "-p"; procFd "0"; "-d";
   "-pid-file"; pidFilePath; containerId].

Definition socketDirPathTooLong : string :=
  "value for --socket-dir-path cannot exceed "
    ++ Itoa MaxSocketDirPathLength ++ " characters in length".

(** [run], from the start of the runtime on. *)
Definition supervise (argv : list string) (stdio : bool)
    (processStateDir pidFilePath : string) : M Z :=
  emit EvSetSubreaper ;;
  emit (EvStart argv stdio) ;;
  match cmd_Start e with
  | inl _ => emit (EvWrite 3 [2]) ;; ret 2
  | inr childPid =>
      emit (EvWait4 childPid 0) ;;
      match wait4_front e with
      | inl err => abort (Panic err)
      | inr status =>
          emit (EvClose 4) ;;
          emit (EvWrite 3 [byte (WaitStatus.ExitStatus status)]) ;;
          if negb (WaitStatus.ExitStatus status =? 0) then ret 3
          else
            '(containerPid, err) <- parsePid pidFilePath (pidfile_main e) ;;
            check err ;;
            waitForContainerToExit processStateDir containerPid (sigchld e)
      end
  end.

(** The [if *tty] statement of [run]: the arguments of the command to
    start, and whether its stdio is wired to the pipes. *)
Definition command (runtime logFile pidFilePath containerId : string)
  : M (list string * bool) :=
  if flag_tty e then
    if len (flag_socketDirPath e) >? MaxSocketDirPathLength then
      abort (Panic socketDirPathTooLong)
    else
      ttySocketPath <- setupTTYSocket pidFilePath (flag_socketDirPath e) ;;
      ret (ttyCommand runtime logFile ttySocketPath pidFilePath containerId, false)
  else
    ret (plainCommand runtime logFile pidFilePath containerId, true).

(** [run], up to the command to start. *)
Definition prepare (runtime processStateDir containerId : string)
  : M (list string * bool) :=
  emit EvSignalNotify ;;
  let logFile := procFd "4" in
  let pidFilePath := filepath.Join [processStateDir; "pidfile"] in
  openPipes processStateDir ;;
  emit (EvWrite 5 [0]) ;;
  command runtime logFile pidFilePath containerId.

Definition run : M Z :=
  runtime <- index (flag_Args e) 1 ;;
  processStateDir <- index (flag_Args e) 2 ;;
  containerId <- index (flag_Args e) 3 ;;
  '(argv, stdio) <- prepare runtime processStateDir containerId ;;
  supervise argv stdio processStateDir (filepath.Join [processStateDir; "pidfile"]).

(** ** The goroutines as lists of actions

    The calls of a goroutine in program order, closed by [EvExit] when
    [main] returns from [run] and by [EvPanic] when the goroutine panics;
    a goroutine that blocks for ever or returns has no closing action. *)
Definition actions {A} (m : M A) (final : A -> list Event) : list Event :=
  (trace m ++
   match result m with
   | inr a => final a
   | inl (Panic msg) => [EvPanic msg]
   | inl Blocked => []
   end)%list.

Definition goroutine (t : Tid) (captured : list string) : list Event :=
  match t, captured with
  | TMain, _ => actions run (fun code => [EvExit code])
  | TBroker, [pidFilePath; sockDir] => actions (broker pidFilePath sockDir) (fun _ => [])
  | TBroker, _ => []
  | TStdoutPump, _ => actions stdoutPump (fun _ => [])
  | TStdinPump, _ => actions stdinPump (fun _ => [])
  | TWinsz, _ => actions (winszLoop (winsz_events e)) (fun _ => [])
  end.

End Program.

(** ** The process: its goroutines interleaved

    The state of the process: what each goroutine has still to do, the
    counter of [ioWg], the calls made so far (the latest first) and whether
    the process has ended. *)
Record Sys := {
  pending : Tid -> list Event;
  ioWg : Z;
  history : list (Tid * Event);
  halted : bool
}.

Definition Tid_eqb (a b : Tid) : bool :=
  match a, b with
  | TMain, TMain | TBroker, TBroker | TStdoutPump, TStdoutPump
  | TStdinPump, TStdinPump | TWinsz, TWinsz => true
  | _, _ => false
  end.

Definition update (f : Tid -> list Event) (t : Tid) (l : list Event)
  : Tid -> list Event :=
  fun t' => if Tid_eqb t' t then l else f t'.

(** [ioWg.Wait] returns only when the counter is zero; every other call is
    left to the environment. *)
Definition enabled (ev : Event) (s : Sys) : bool :=
  match ev with
  | EvIoWgWait => ioWg s =? 0
  | _ => true
  end.

(** What a call does to the process: the counter moves, a go statement
    starts a goroutine, [os.Exit] and a panic end the process. *)
Definition effect (e : Env) (ev : Event) (s : Sys) : Sys :=
  match ev with
  | EvIoWgAdd delta =>
      {| pending := pending s; ioWg := ioWg s + delta;
         history := history s; halted := halted s |}
  | EvIoWgDone =>
      {| pending := pending s; ioWg := ioWg s - 1;
         history := history s; halted := halted s |}
  | EvGo t captured =>
      {| pending := update (pending s) t (goroutine e t captured); ioWg := ioWg s;
         history := history s; halted := halted s |}
  | EvExit _ | EvPanic _ =>
      {| pending := pending s; ioWg := ioWg s;
         history := history s; halted := true |}
  | _ => s
  end.

(** The goroutine [t] makes its next call. *)
Definition step (e : Env) (t : Tid) (s : Sys) : option Sys :=
  if halted s then None
  else match pending s t with
       | [] => None
       | ev :: rest =>
           if enabled ev s then
             Some (effect e ev {| pending := update (pending s) t rest;
                                  ioWg := ioWg s;
                                  history := (t, ev) :: history s;
                                  halted := halted s |})
           else None
       end.

Definition init (e : Env) : Sys :=
  {| pending := update (fun _ => []) TMain (goroutine e TMain []);
     ioWg := 0; history := []; halted := false |}.

Fixpoint exec (e : Env) (schedule : list Tid) (s : Sys) : option Sys :=
  match schedule with
  | [] => Some s
  | t :: rest =>
      match step e t s with
      | Some s' => exec e rest s'
      | None => None
      end
  end.

Definition reachable (e : Env) (s : Sys) : Prop :=
  exists schedule, exec e schedule (init e) = Some s.

(** The calls of a history in the order they were made. *)
Definition chronicle (s : Sys) : list (Tid * Event) := List.rev (history s).

(** * Lemmas on the program *)

(** ** The monad *)

Lemma trace_bind {A B} (m : M A) (f : A -> M B) :
  trace (bind m f) =
  (trace m ++ match result m with inr a => trace (f a) | inl _ => [] end)%list.
Proof.
  destruct m as [tr [stop | a]]; simpl.
  - now rewrite app_nil_r.
  - now destruct (f a).
Qed.

Lemma result_bind {A B} (m : M A) (f : A -> M B) :
  result (bind m f) =
  match result m with inr a => result (f a) | inl stop => inl stop end.
Proof.
  destruct m as [tr [stop | a]]; simpl; [reflexivity | now destruct (f a)].
Qed.

Lemma bind_returns {A B} (m : M A) (f : A -> M B) tr a :
  m = (tr, inr a) -> bind m f = ((tr ++ trace (f a))%list, result (f a)).
Proof. intros ->. simpl. now destruct (f a). Qed.

Lemma bind_stops {A B} (m : M A) (f : A -> M B) tr stop :
  m = (tr, inl stop) -> bind m f = (tr, inl stop).
Proof. now intros ->. Qed.

(** A property of every call of [m] and of every continuation holds of
    every call of [bind m f]. *)
Lemma Forall_trace_bind {A B} (P : Event -> Prop) (m : M A) (f : A -> M B) :
  Forall P (trace m) ->
  (forall a, result m = inr a -> Forall P (trace (f a))) ->
  Forall P (trace (bind m f)).
Proof.
  intros Hm Hf. rewrite trace_bind. apply Forall_app. split; [exact Hm |].
  destruct (result m) as [stop | a]; [constructor | now apply Hf].
Qed.

(** ** Wait statuses *)

Module WaitStatusFacts.
Import WaitStatus.

Lemma land_mask (w : Z) : Z.land w mask = w mod 128.
Proof. change mask with (Z.ones 7). now rewrite Z.land_ones by lia. Qed.

Lemma land_byte (w : Z) : Z.land w 0xFF = w mod 256.
Proof. change 0xFF with (Z.ones 8). now rewrite Z.land_ones by lia. Qed.

Lemma ofExit_Exited (code : Z) : Exited (ofExit code) = true.
Proof.
  unfold Exited, ofExit, shift, exited. rewrite land_mask, Z.shiftl_mul_pow2 by lia.
  change (2 ^ 8) with (2 * 128). rewrite Z.mul_assoc, Z.mod_mul by lia.
  reflexivity.
Qed.

Lemma ofExit_Signaled (code : Z) : Signaled (ofExit code) = false.
Proof.
  unfold Signaled. generalize (ofExit_Exited code). unfold Exited.
  intros ->. now rewrite andb_false_r.
Qed.

Lemma ofExit_ExitStatus (code : Z) :
  0 <= code < 256 -> ExitStatus (ofExit code) = code.
Proof.
  intros H. unfold ExitStatus. rewrite ofExit_Exited. simpl.
  unfold ofExit. rewrite Z.shiftr_shiftl_l, Z.sub_diag, Z.shiftl_0_r by (unfold shift; lia).
  rewrite land_byte. apply Z.mod_small. lia.
Qed.

Lemma ofSignal_low (sig : Z) (dumped : bool) :
  0 <= sig < 128 -> Z.land (ofSignal sig dumped) mask = sig.
Proof.
  intros H. unfold ofSignal. rewrite Z.land_lor_distr_l.
  replace (Z.land (if dumped then core else 0) mask) with 0
    by (now destruct dumped).
  rewrite Z.lor_0_r, land_mask. apply Z.mod_small. lia.
Qed.

Lemma ofSignal_Signaled (sig : Z) (dumped : bool) :
  1 <= sig < 127 -> Signaled (ofSignal sig dumped) = true.
Proof.
  intros H. unfold Signaled. rewrite ofSignal_low by lia.
  unfold stopped, exited.
  destruct (Z.eqb_spec sig 127); [lia |]. destruct (Z.eqb_spec sig 0); [lia |].
  reflexivity.
Qed.

Lemma ofSignal_Signal (sig : Z) (dumped : bool) :
  1 <= sig < 127 -> Signal (ofSignal sig dumped) = sig.
Proof.
  intros H. unfold Signal. rewrite ofSignal_Signaled by lia. simpl.
  apply ofSignal_low. lia.
Qed.

Lemma ExitStatus_range (w : Z) : -1 <= ExitStatus w < 256.
Proof.
  unfold ExitStatus. destruct (negb (Exited w)); [lia |].
  rewrite land_byte. pose proof (Z.mod_pos_bound (Z.shiftr w shift) 256). lia.
Qed.

Lemma Signal_range (w : Z) : Signaled w = true -> 1 <= Signal w < 127.
Proof.
  intros H. unfold Signal. rewrite H. cbn [negb]. unfold Signaled in H.
  apply andb_true_iff in H as [H1 H2]. apply negb_true_iff in H1, H2.
  apply Z.eqb_neq in H1, H2. unfold stopped, exited in *.
  rewrite land_mask in *. pose proof (Z.mod_pos_bound w 128). lia.
Qed.

End WaitStatusFacts.

Lemma exitCodeOf_ofExit (code : Z) :
  0 <= code < 256 -> exitCodeOf (WaitStatus.ofExit code) = code.
Proof.
  intros H. unfold exitCodeOf.
  rewrite WaitStatusFacts.ofExit_Signaled.
  now apply WaitStatusFacts.ofExit_ExitStatus.
Qed.

Lemma exitCodeOf_ofSignal (sig : Z) (dumped : bool) :
  1 <= sig < 127 -> exitCodeOf (WaitStatus.ofSignal sig dumped) = 128 + sig.
Proof.
  intros H. unfold exitCodeOf.
  rewrite WaitStatusFacts.ofSignal_Signaled, WaitStatusFacts.ofSignal_Signal by lia.
  reflexivity.
Qed.

(** The exit code of a child that exited or was killed fits the exit code of
    a process. *)
Lemma exitCodeOf_range (status : Z) :
  WaitStatus.Exited status = true \/ WaitStatus.Signaled status = true ->
  0 <= exitCodeOf status < 256.
Proof.
  intros H. unfold exitCodeOf.
  destruct (WaitStatus.Signaled status) eqn:S.
  - pose proof (WaitStatusFacts.Signal_range status S). lia.
  - destruct H as [H | H]; [| discriminate].
    unfold WaitStatus.ExitStatus. rewrite H. cbn [negb].
    rewrite WaitStatusFacts.land_byte. now apply Z.mod_pos_bound.
Qed.

(** [Itoa] writes decimal digits that read back as the number. *)
Lemma Itoa_decimal (n : Z) :
  option_map Z.of_int (NilZero.int_of_string (Itoa n)) = Some n.
Proof.
  unfold Itoa. rewrite NilZero.isi.
  - simpl. f_equal. apply DecimalZ.of_to.
  - destruct n; simpl; try discriminate.
    intros [= H]. now apply DecimalPos.Unsigned.to_uint_nonnil in H.
  - destruct n; simpl; try discriminate.
    intros [= H]. now apply DecimalPos.Unsigned.to_uint_nonnil in H.
Qed.

(** ** The calls of each part of [run] *)

Ltac go_unfold :=
  unfold bind, emit, ret, abort, check, trace, result; simpl.

(** The five opens of [openPipes], in order. *)
Definition pipeEvents (dir : string) : list Event :=
  [EvOpenFile (filepath.Join [dir; "stdin"]) O_RDONLY mode0600;
   EvOpenFile (filepath.Join [dir; "stdout"]) (Z.lor O_WRONLY O_APPEND) mode0600;
   EvOpenFile (filepath.Join [dir; "stderr"]) (Z.lor O_WRONLY O_APPEND) mode0600;
   EvOpenFile (filepath.Join [dir; "winsz"]) O_RDWR mode0600;
   EvOpenFile (filepath.Join [dir; "exit"]) O_RDWR mode0600].

Definition isOpenFile (ev : Event) : Prop :=
  match ev with EvOpenFile _ _ _ => True | _ => False end.

(** What [run] has done when it reaches the [if *tty] statement. *)
Definition prelude (dir : string) : list Event :=
  (EvSignalNotify :: pipeEvents dir ++ [EvWrite 5 [0]])%list.

(** The calls of [setupTTYSocket]. *)
Definition isSocketSetup (ev : Event) : Prop :=
  match ev with
  | EvTempDir _ | EvListen _ | EvGo TBroker _ => True
  | _ => False
  end.

(** The calls of the reaper. *)
Definition isReaperCall (ev : Event) : Prop :=
  match ev with
  | EvSigRecv | EvWait4 _ _ | EvIoWgWait | EvWriteFile _ _ _ => True
  | _ => False
  end.

Section Parts.

Variable e : Env.

Lemma openFifo_cases path flags :
  (exists b, openFifo e path flags = ([EvOpenFile path flags mode0600], inr b)) \/
  (exists msg, openFifo e path flags = ([EvOpenFile path flags mode0600], inl (Panic msg))
               /\ os_OpenFile e path = OpenFailed msg).
Proof.
  unfold openFifo. destruct (os_OpenFile e path) eqn:E; go_unfold; eauto.
Qed.

(** [openPipes] makes its five opens and returns, or panics at the first
    open that fails for another reason than a missing file. *)
Lemma openPipes_cases dir :
  (exists pipes, openPipes e dir = (pipeEvents dir, inr pipes)) \/
  (exists tr msg path, openPipes e dir = (tr, inl (Panic msg))
               /\ Forall isOpenFile tr /\ os_OpenFile e path = OpenFailed msg).
Proof.
  unfold openPipes, pipeEvents.
  repeat match goal with
  | |- context [openFifo e ?p ?f] =>
      destruct (openFifo_cases p f) as [[? ->] | (? & -> & ?)];
      [ cbn [bind app] |
        right; do 3 eexists; split; [reflexivity | split; [| eassumption]];
        repeat constructor ]
  end.
  left. eexists. reflexivity.
Qed.

Lemma setupTTYSocket_calls pidFilePath base :
  Forall isSocketSetup (trace (setupTTYSocket e pidFilePath base)).
Proof.
  unfold setupTTYSocket. destruct (ioutil_TempDir e base); go_unfold.
  - repeat constructor.
  - destruct (net_Listen e _); go_unfold; repeat constructor.
Qed.

Lemma command_calls runtime logFile pidFilePath cid :
  Forall isSocketSetup (trace (command e runtime logFile pidFilePath cid)).
Proof.
  unfold command. destruct (flag_tty e); [| constructor].
  destruct (_ >? _); [constructor |].
  apply Forall_trace_bind; [apply setupTTYSocket_calls | constructor].
Qed.

(** The command that [command] returns is one of the two forms. *)
Lemma command_result runtime logFile pidFilePath cid argv stdio :
  result (command e runtime logFile pidFilePath cid) = inr (argv, stdio) ->
  (flag_tty e = false /\ stdio = true /\
   argv = plainCommand e runtime logFile pidFilePath cid) \/
  (flag_tty e = true /\ stdio = false /\
   len (flag_socketDirPath e) <= MaxSocketDirPathLength /\
   exists sockDir,
     ioutil_TempDir e (flag_socketDirPath e) = inr sockDir /\
     argv = ttyCommand e runtime logFile (filepath.Join [sockDir; "tty.sock"])
                       pidFilePath cid).
Proof.
  unfold command. destruct (flag_tty e).
  - destruct (Z.gtb_spec (len (flag_socketDirPath e)) MaxSocketDirPathLength);
      [discriminate |].
    unfold setupTTYSocket.
    destruct (ioutil_TempDir e (flag_socketDirPath e)) as [err | sockDir];
      [discriminate |].
    destruct (net_Listen e _); go_unfold; [discriminate |].
    intros [= <- <-]. right. repeat split; try lia. now exists sockDir.
  - go_unfold. intros [= <- <-]. now left.
Qed.

(** [prepare] when the pipes open: the prelude, then [command]. *)
Lemma prepare_opened runtime dir cid pipes :
  openPipes e dir = (pipeEvents dir, inr pipes) ->
  prepare e runtime dir cid =
  let c := command e runtime (procFd e "4") (filepath.Join [dir; "pidfile"]) cid in
  ((prelude dir ++ trace c)%list, result c).
Proof.
  intros H. unfold prepare. cbn zeta.
  change (emit EvSignalNotify ;; ?k) with
    (let (tr', r) := k in ((EvSignalNotify :: tr'), r)).
  rewrite (bind_returns _ _ _ _ H).
  now destruct (command e runtime _ _ cid) as [tr r].
Qed.

Lemma prepare_failed runtime dir cid tr msg :
  openPipes e dir = (tr, inl (Panic msg)) ->
  prepare e runtime dir cid = (EvSignalNotify :: tr, inl (Panic msg)).
Proof.
  intros H. unfold prepare. cbn zeta.
  change (emit EvSignalNotify ;; ?k) with
    (let (tr', r) := k in ((EvSignalNotify :: tr'), r)).
  now rewrite (bind_stops _ _ _ _ H).
Qed.

End Parts.

(** ** The reaper *)

(** The calls the reaper makes while the container has not been reaped. *)
Definition isPoll (ev : Event) : Prop :=
  match ev with
  | EvSigRecv | EvWait4 _ _ => True
  | _ => False
  end.

(** The last calls of a reaper that returns [exitCode]. *)
Definition recorded (dir : string) (exitCode : Z) : list Event :=
  [EvWait4 (-1) WNOHANG; EvIoWgWait;
   EvWriteFile (filepath.Join [dir; "exitcode"]) (Itoa exitCode) mode0700].

Section Reaper.

Variable e : Env.
Variables (dir : string) (containerPid : Z).

Lemma reapChildren_calls answers :
  Forall isReaperCall (trace (reapChildren e dir containerPid answers)).
Proof.
  induction answers as [| [err | wpid status] rest IH]; cbn [reapChildren];
    apply Forall_trace_bind; try (repeat constructor); intros _ _.
  destruct (wpid <=? 0); [constructor |].
  destruct (wpid =? containerPid); [| exact IH].
  destruct (ioutil_WriteFile e); go_unfold; repeat constructor.
Qed.

Lemma waitForContainerToExit_calls signals :
  Forall isReaperCall (trace (waitForContainerToExit e dir containerPid signals)).
Proof.
  induction signals as [| answers rest IH]; cbn [waitForContainerToExit];
    [constructor |].
  apply Forall_trace_bind; [repeat constructor | intros _ _].
  apply Forall_trace_bind; [apply reapChildren_calls | intros [c |] _];
    [constructor | exact IH].
Qed.

(** A round of the reaper that ends at the [break] has only polled. *)
Lemma reapChildren_break answers :
  result (reapChildren e dir containerPid answers) = inr None ->
  Forall isPoll (trace (reapChildren e dir containerPid answers)).
Proof.
  induction answers as [| [err | wpid status] rest IH]; cbn [reapChildren];
    intros H; try (go_unfold; repeat constructor; fail).
  revert H. rewrite result_bind, trace_bind. cbn [emit result trace snd fst app].
  destruct (wpid <=? 0); [intros _; repeat constructor |].
  destruct (wpid =? containerPid).
  - destruct (ioutil_WriteFile e); go_unfold; discriminate.
  - intros H. constructor; [exact I | now apply IH].
Qed.

(** A round of the reaper that returns has reaped the container pid; its
    exit code comes from that wait status, and its last three calls are
    the [Wait4] that reaped it, [ioWg.Wait] and the write of the file. *)
Lemma reapChildren_returns answers exitCode :
  result (reapChildren e dir containerPid answers) = inr (Some exitCode) ->
  exists status pre,
    In (W4Ok containerPid status) answers /\
    exitCode = exitCodeOf status /\
    ioutil_WriteFile e = None /\
    Forall isPoll pre /\
    trace (reapChildren e dir containerPid answers) =
    (pre ++ recorded dir exitCode)%list.
Proof.
  induction answers as [| [err | wpid status] rest IH]; cbn [reapChildren];
    try (go_unfold; discriminate).
  rewrite result_bind, trace_bind. cbn [emit result trace snd fst app].
  destruct (wpid <=? 0); [go_unfold; discriminate |].
  destruct (Z.eqb_spec wpid containerPid) as [-> | Hne].
  - destruct (ioutil_WriteFile e) eqn:W; go_unfold; [discriminate |].
    intros [= <-]. exists status, [].
    split; [now left |]. split; [reflexivity |]. split; [reflexivity |].
    split; [constructor | reflexivity].
  - intros H. destruct (IH H) as (st & pre & Hin & Hc & W & Hpre & Htr).
    exists st, (EvWait4 (-1) WNOHANG :: pre).
    split; [now right |]. split; [exact Hc |]. split; [exact W |].
    split; [now constructor |]. rewrite Htr. reflexivity.
Qed.

Lemma waitForContainerToExit_returns signals exitCode :
  result (waitForContainerToExit e dir containerPid signals) = inr exitCode ->
  exists status answers pre,
    In answers signals /\
    In (W4Ok containerPid status) answers /\
    exitCode = exitCodeOf status /\
    ioutil_WriteFile e = None /\
    Forall isPoll pre /\
    trace (waitForContainerToExit e dir containerPid signals) =
    (pre ++ recorded dir exitCode)%list.
Proof.
  induction signals as [| answers rest IH]; cbn [waitForContainerToExit];
    [discriminate |].
  rewrite result_bind, trace_bind. cbn [emit result trace snd fst app].
  rewrite result_bind, trace_bind.
  destruct (result (reapChildren e dir containerPid answers))
    as [stop | [c |]] eqn:R; [discriminate | |].
  - cbv [ret]. cbn [result snd]. intros [= <-].
    destruct (reapChildren_returns _ _ R) as (st & pre & Hin & Hc & W & Hpre & Htr).
    exists st, answers, (EvSigRecv :: pre).
    split; [now left |]. split; [exact Hin |]. split; [exact Hc |].
    split; [exact W |]. split; [now constructor |].
    rewrite Htr. cbn [trace fst]. rewrite app_nil_r. reflexivity.
  - intros H. destruct (IH H) as (st & ans & pre & Hin & Hin' & Hc & W & Hpre & Htr).
    exists st, ans,
      (EvSigRecv :: trace (reapChildren e dir containerPid answers) ++ pre)%list.
    split; [now right |]. split; [exact Hin' |]. split; [exact Hc |].
    split; [exact W |]. split.
    + constructor; [exact I |]. apply Forall_app. split; [| exact Hpre].
      now apply reapChildren_break.
    + rewrite Htr, app_comm_cons, app_assoc. reflexivity.
Qed.





End Reaper.

(** What [parsePid] returns for an answer of [ioutil.ReadFile]. *)
Definition parsed (answer : error + string) : Z * option error :=
  match answer with
  | inl err => (-1, Some err)
  | inr b =>
      match fmt.Sscanf_d b with
      | inl err => (-1, Some err)
      | inr pid => (pid, None)
      end
  end.

Lemma parsePid_parsed pidFile answer :
  parsePid pidFile answer = ([EvReadFile pidFile], inr (parsed answer)).
Proof.
  unfold parsePid, parsed. destruct answer as [err | b]; [reflexivity |].
  now destruct (fmt.Sscanf_d b).
Qed.

(** ** From the start of the runtime on *)

(** The calls of [run] from [SetSubreaper] to the status byte, when the
    runtime starts as the process [child] and ends with the wait status
    [status]. *)
Definition launched (argv : list string) (stdio : bool) (child status : Z)
  : list Event :=
  [EvSetSubreaper; EvStart argv stdio; EvWait4 child 0; EvClose 4;
   EvWrite 3 [byte (WaitStatus.ExitStatus status)]].

(** The data written to the inherited descriptor [fd], in order. *)
Fixpoint writesOn (fd : Z) (tr : list Event) : list (list Z) :=
  match tr with
  | [] => []
  | EvWrite fd' data :: rest =>
      if fd' =? fd then data :: writesOn fd rest else writesOn fd rest
  | _ :: rest => writesOn fd rest
  end.

Definition isWriteFile (ev : Event) : Prop :=
  match ev with EvWriteFile _ _ _ => True | _ => False end.

Lemma writesOn_app fd tr tr' :
  writesOn fd (tr ++ tr') = (writesOn fd tr ++ writesOn fd tr')%list.
Proof.
  induction tr as [| ev tr IH]; [reflexivity |].
  destruct ev; cbn [writesOn app]; try exact IH.
  destruct (_ =? _); cbn [app]; now rewrite IH.
Qed.

Lemma writesOn_none (P : Event -> Prop) fd tr :
  (forall fd' data, ~ P (EvWrite fd' data)) ->
  Forall P tr -> writesOn fd tr = [].
Proof.
  intros HP H. induction H as [| ev tr Hev _ IH]; [reflexivity |].
  destruct ev; cbn [writesOn]; try exact IH. now apply HP in Hev.
Qed.

Lemma Forall_not_In (P : Event -> Prop) tr ev :
  Forall P tr -> ~ P ev -> ~ In ev tr.
Proof. intros H Hn Hin. rewrite Forall_forall in H. auto. Qed.

Section Supervise.

Variable e : Env.
Variables (argv : list string) (stdio : bool) (dir pidFilePath : string).

Lemma supervise_not_started err :
  cmd_Start e = inl err ->
  supervise e argv stdio dir pidFilePath =
  ([EvSetSubreaper; EvStart argv stdio; EvWrite 3 [2]], inr 2).
Proof. intros H. unfold supervise. rewrite H. reflexivity. Qed.

Lemma supervise_wait_failed child err :
  cmd_Start e = inr child -> wait4_front e = inl err ->
  supervise e argv stdio dir pidFilePath =
  ([EvSetSubreaper; EvStart argv stdio; EvWait4 child 0], inl (Panic err)).
Proof. intros H H'. unfold supervise. rewrite H, H'. reflexivity. Qed.

Lemma supervise_not_launched child status :
  cmd_Start e = inr child -> wait4_front e = inr status ->
  WaitStatus.ExitStatus status <> 0 ->
  supervise e argv stdio dir pidFilePath =
  (launched argv stdio child status, inr 3).
Proof.
  intros H H' Hs. unfold supervise. rewrite H, H'. go_unfold.
  destruct (Z.eqb_spec (WaitStatus.ExitStatus status) 0); [contradiction |].
  reflexivity.
Qed.

(** The front process ended with status 0 but the one read of the pid file
    fails: [check] panics. *)
Lemma supervise_no_pid child status pid err :
  cmd_Start e = inr child -> wait4_front e = inr status ->
  WaitStatus.ExitStatus status = 0 ->
  parsed (pidfile_main e) = (pid, Some err) ->
  supervise e argv stdio dir pidFilePath =
  ((launched argv stdio child status ++ [EvReadFile pidFilePath])%list,
   inl (Panic err)).
Proof.
  intros H H' Hs Hp. unfold supervise, launched. rewrite H, H'. go_unfold.
  rewrite Hs. cbn [Z.eqb negb]. rewrite parsePid_parsed, Hp. reflexivity.
Qed.

Lemma supervise_reaping child status containerPid :
  cmd_Start e = inr child -> wait4_front e = inr status ->
  WaitStatus.ExitStatus status = 0 ->
  parsed (pidfile_main e) = (containerPid, None) ->
  supervise e argv stdio dir pidFilePath =
  let w := waitForContainerToExit e dir containerPid (sigchld e) in
  ((launched argv stdio child status ++ EvReadFile pidFilePath :: trace w)%list,
   result w).
Proof.
  intros H H' Hs Hp. unfold supervise, launched. rewrite H, H'. go_unfold.
  rewrite Hs. cbn [Z.eqb negb]. rewrite parsePid_parsed, Hp. go_unfold.
  now destruct (waitForContainerToExit e dir containerPid (sigchld e)).
Qed.

(** [supervise] begins with [SetSubreaper] and [Start]; it starts nothing
    else and opens nothing. *)
Definition isAfterStart (ev : Event) : Prop :=
  match ev with
  | EvWrite _ _ | EvWait4 _ _ | EvClose _ | EvReadFile _ | EvSigRecv
  | EvIoWgWait | EvWriteFile _ _ _ => True
  | _ => False
  end.

Lemma supervise_calls :
  exists tail,
    trace (supervise e argv stdio dir pidFilePath) =
    EvSetSubreaper :: EvStart argv stdio :: tail /\
    Forall isAfterStart tail.
Proof.
  unfold supervise.
  destruct (cmd_Start e) as [err | child]; go_unfold;
    [eexists; split; [reflexivity | repeat constructor] |].
  destruct (wait4_front e) as [err | status]; go_unfold;
    [eexists; split; [reflexivity | repeat constructor] |].
  destruct (negb _); go_unfold;
    [eexists; split; [reflexivity | repeat constructor] |].
  unfold parsePid.
  destruct (pidfile_main e) as [err | b]; go_unfold;
    [eexists; split; [reflexivity | repeat constructor] |].
  destruct (fmt.Sscanf_d b) as [err | pid]; go_unfold;
    [eexists; split; [reflexivity | repeat constructor] |].
  pose proof (waitForContainerToExit_calls e dir pid (sigchld e)) as Hw.
  destruct (waitForContainerToExit e dir pid (sigchld e)) as [tr r].
  eexists; split; [reflexivity |]. repeat (constructor; [exact I |]).
  cbn [trace fst] in Hw.
  apply Forall_impl with (P := isReaperCall); [now intros [] | exact Hw].
Qed.

End Supervise.

(** ** The whole of [run] *)

Section Run.

Variable e : Env.

Definition pidFileOf (dir : string) : string := filepath.Join [dir; "pidfile"].

(** The command [run] builds from its arguments. *)
Definition commandOf (runtime dir cid : string) : M (list string * bool) :=
  command e runtime (procFd e "4") (pidFileOf dir) cid.

Lemma run_args runtime dir cid :
  nth_error (flag_Args e) 1 = Some runtime ->
  nth_error (flag_Args e) 2 = Some dir ->
  nth_error (flag_Args e) 3 = Some cid ->
  run e = ('(argv, stdio) <- prepare e runtime dir cid ;;
           supervise e argv stdio dir (pidFileOf dir)).
Proof.
  intros H1 H2 H3. unfold run, index. rewrite H1, H2, H3.
  cbn [bind ret app].
  now destruct (bind (prepare e runtime dir cid) _).
Qed.

Lemma run_short :
  nth_error (flag_Args e) 1 = None \/ nth_error (flag_Args e) 2 = None \/
  nth_error (flag_Args e) 3 = None ->
  run e = ([], inl (Panic "runtime error: index out of range")).
Proof.
  intros H. unfold run, index.
  destruct (nth_error (flag_Args e) 1); [| reflexivity].
  destruct (nth_error (flag_Args e) 2); [| reflexivity].
  destruct (nth_error (flag_Args e) 3); [| reflexivity].
  destruct H as [H | [H | H]]; discriminate.
Qed.

(** [run] when the pipes open and the command is built: the prelude, the
    calls of [command], then [supervise]. *)
Lemma run_started runtime dir cid pipes argv stdio :
  nth_error (flag_Args e) 1 = Some runtime ->
  nth_error (flag_Args e) 2 = Some dir ->
  nth_error (flag_Args e) 3 = Some cid ->
  openPipes e dir = (pipeEvents dir, inr pipes) ->
  result (commandOf runtime dir cid) = inr (argv, stdio) ->
  run e =
  let s := supervise e argv stdio dir (pidFileOf dir) in
  ((prelude dir ++ trace (commandOf runtime dir cid) ++ trace s)%list, result s).
Proof.
  intros H1 H2 H3 Hp Hc. rewrite (run_args _ _ _ H1 H2 H3).
  rewrite (prepare_opened _ _ _ _ _ Hp). cbn zeta.
  fold (pidFileOf dir). fold (commandOf runtime dir cid). rewrite Hc.
  cbn [bind]. destruct (supervise e argv stdio dir (pidFileOf dir)) as [tr r].
  cbn [trace result fst snd]. now rewrite <- app_assoc.
Qed.

(** [run] never starts the runtime unless the arguments are there, the
    pipes open and the command is built. *)
Lemma run_reaches_start argv stdio :
  In (EvStart argv stdio) (trace (run e)) ->
  exists runtime dir cid pipes,
    nth_error (flag_Args e) 1 = Some runtime /\
    nth_error (flag_Args e) 2 = Some dir /\
    nth_error (flag_Args e) 3 = Some cid /\
    openPipes e dir = (pipeEvents dir, inr pipes) /\
    result (commandOf runtime dir cid) = inr (argv, stdio).
Proof.
  destruct (nth_error (flag_Args e) 1) as [runtime |] eqn:H1;
    [| rewrite run_short by auto; intros []].
  destruct (nth_error (flag_Args e) 2) as [dir |] eqn:H2;
    [| rewrite run_short by auto; intros []].
  destruct (nth_error (flag_Args e) 3) as [cid |] eqn:H3;
    [| rewrite run_short by auto; intros []].
  intros Hin. exists runtime, dir, cid.
  destruct (openPipes_cases e dir) as [[pipes Hp] | (tr & msg & path & Hp & Hopen & _)].
  - exists pipes. do 4 (split; [first [assumption | reflexivity] |]).
    pose proof (command_calls e runtime (procFd e "4") (pidFileOf dir) cid) as Hc.
    fold (commandOf runtime dir cid) in Hc.
    destruct (result (commandOf runtime dir cid)) as [stop | [argv' stdio']] eqn:R.
    + exfalso. revert Hin.
      rewrite (run_args _ _ _ H1 H2 H3), (prepare_opened _ _ _ _ _ Hp).
      cbn zeta. fold (pidFileOf dir). fold (commandOf runtime dir cid).
      rewrite R. cbn [bind trace fst]. rewrite in_app_iff. intros [Hin | Hin].
      * unfold prelude, pipeEvents in Hin. simpl in Hin.
        repeat (destruct Hin as [Hin | Hin]; [discriminate |]). exact Hin.
      * revert Hin. now apply Forall_not_In with (P := isSocketSetup).
    + revert Hin. rewrite (run_started _ _ _ _ _ _ H1 H2 H3 Hp R). cbn zeta.
      cbn [trace fst]. rewrite !in_app_iff. intros [Hin | [Hin | Hin]].
      * unfold prelude, pipeEvents in Hin. simpl in Hin.
        repeat (destruct Hin as [Hin | Hin]; [discriminate |]). destruct Hin.
      * exfalso. revert Hin. now apply Forall_not_In with (P := isSocketSetup).
      * destruct (supervise_calls e argv' stdio' dir (pidFileOf dir))
          as (tail & Htr & Htail).
        fold (trace (supervise e argv' stdio' dir (pidFileOf dir))) in Hin.
        rewrite Htr in Hin. destruct Hin as [Hin | [Hin | Hin]];
          [discriminate | now injection Hin as <- <- |].
        exfalso. revert Hin. now apply Forall_not_In with (P := isAfterStart).
  - exfalso. revert Hin.
    rewrite (run_args _ _ _ H1 H2 H3), (prepare_failed _ _ _ _ _ _ Hp).
    cbn [bind trace fst]. intros [Hin | Hin]; [discriminate |].
    revert Hin. now apply Forall_not_In with (P := isOpenFile).
Qed.

End Run.

(** ** The interleaving semantics *)

Section Process.

Variable e : Env.

Lemma effect_history ev s : history (effect e ev s) = history s.
Proof. now destruct ev. Qed.

Lemma effect_pending_other ev s t :
  (forall captured, ev <> EvGo t captured) ->
  pending (effect e ev s) t = pending s t.
Proof.
  intros H. destruct ev; try reflexivity. cbn [effect pending]. unfold update.
  destruct (Tid_eqb t t0) eqn:E; [| reflexivity].
  destruct t, t0; try discriminate; now elim (H captured).
Qed.

Lemma Tid_eqb_eq a b : Tid_eqb a b = true <-> a = b.
Proof. destruct a, b; simpl; split; congruence. Qed.

(** What one step is. *)
Lemma step_inv t s s' :
  step e t s = Some s' ->
  exists ev rest,
    halted s = false /\ pending s t = ev :: rest /\ enabled ev s = true /\
    s' = effect e ev {| pending := update (pending s) t rest; ioWg := ioWg s;
                        history := (t, ev) :: history s; halted := halted s |}.
Proof.
  unfold step. destruct (halted s); [discriminate |].
  destruct (pending s t) as [| ev rest]; [discriminate |].
  destruct (enabled ev s) eqn:E; [| discriminate].
  intros [= <-]. now exists ev, rest.
Qed.

Lemma step_history t s s' :
  step e t s = Some s' ->
  exists ev rest, pending s t = ev :: rest /\ history s' = (t, ev) :: history s.
Proof.
  intros H. destruct (step_inv _ _ _ H) as (ev & rest & _ & Hp & _ & ->).
  exists ev, rest. split; [exact Hp |]. now rewrite effect_history.
Qed.

Lemma exec_app sched sched' s :
  exec e (sched ++ sched') s =
  match exec e sched s with Some s' => exec e sched' s' | None => None end.
Proof.
  revert s. induction sched as [| t sched IH]; intros s; [reflexivity |].
  cbn [exec app]. destruct (step e t s); [apply IH | reflexivity].
Qed.

Lemma reachable_init : reachable e (init e).
Proof. now exists []. Qed.


(** Induction on the steps that lead to a state. *)
Lemma reachable_ind (P : Sys -> Prop) :
  P (init e) ->
  (forall s t s', reachable e s -> P s -> step e t s = Some s' -> P s') ->
  forall s, reachable e s -> P s.
Proof.
  intros Hinit Hstep s [sched H]. revert s H.
  induction sched as [| t sched IH] using rev_ind; intros s H.
  - cbn [exec] in H. injection H as <-. exact Hinit.
  - rewrite exec_app in H.
    destruct (exec e sched (init e)) as [s0 |] eqn:E; [| discriminate].
    cbn [exec] in H. destruct (step e t s0) as [s1 |] eqn:E1; [| discriminate].
    injection H as <-.
    apply (Hstep s0 t s1); [exists sched; exact E | apply IH; reflexivity | exact E1].
Qed.

(** What a goroutine has still to do is the end of a body of that
    goroutine, and while something is left, what came before in that body
    is in the history. *)
Definition inOrder (s : Sys) (t : Tid) : Prop :=
  exists captured done,
    goroutine e t captured = (done ++ pending s t)%list /\
    (pending s t <> [] -> forall ev, In ev done -> In (t, ev) (history s)).

Lemma reachable_inOrder s : reachable e s -> forall t, inOrder s t.
Proof.
  revert s. apply (reachable_ind (fun s => forall t, inOrder s t));
    [intros t | intros s t0 s' _ IH Hs t].
  - unfold inOrder, init, update. cbn [pending].
    destruct t; cbn [Tid_eqb];
      [exists [], []; split; [reflexivity | intros _ ev []] | ..];
      match goal with
      | |- exists c d, goroutine e ?t c = _ /\ _ =>
          exists [], (goroutine e t []); split;
          [now rewrite app_nil_r | now intros Hne]
      end.
  - destruct (step_inv _ _ _ Hs) as (ev & rest & _ & Hp & _ & ->).
    unfold inOrder. rewrite effect_history. cbn [history].
    destruct ev;
      try (rewrite effect_pending_other by (intros c; discriminate);
           cbn [pending]; unfold update;
           destruct (Tid_eqb t t0) eqn:E;
           [ apply Tid_eqb_eq in E; subst t0;
             destruct (IH t) as (c & done & Hb & Hd); rewrite Hp in Hb, Hd;
             match goal with |- context [(t, ?x) :: _] =>
               exists c, (done ++ [x])%list end;
             split; [now rewrite <- app_assoc |];
             intros _ ev' Hin; apply in_app_iff in Hin;
             destruct Hin as [Hin | [<- | []]];
             [right; apply Hd; [discriminate | exact Hin] | now left]
           | destruct (IH t) as (c & done & Hb & Hd); exists c, done;
             split; [exact Hb |]; intros Hne ev' Hin; right; now apply Hd ];
           fail).
    (* a go statement *)
    cbn [effect pending]. unfold update.
    destruct (Tid_eqb t t1) eqn:E1.
    + apply Tid_eqb_eq in E1. subst t1.
      exists captured, []. split; [reflexivity | intros _ ev' []].
    + destruct (Tid_eqb t t0) eqn:E.
      * apply Tid_eqb_eq in E; subst t0.
        destruct (IH t) as (c & done & Hb & Hd); rewrite Hp in Hb, Hd.
        exists c, (done ++ [EvGo t1 captured])%list.
        split; [now rewrite <- app_assoc |].
        intros _ ev' Hin; apply in_app_iff in Hin.
        destruct Hin as [Hin | [<- | []]];
          [right; apply Hd; [discriminate | exact Hin] | now left].
      * destruct (IH t) as (c & done & Hb & Hd); exists c, done.
        split; [exact Hb |]. intros Hne ev' Hin. right. now apply Hd.
Qed.

(** Every call of the history is a call of the body of its goroutine. *)
Lemma reachable_source s :
  reachable e s ->
  forall t ev, In (t, ev) (history s) ->
  exists captured, In ev (goroutine e t captured).
Proof.
  revert s.
  apply (reachable_ind (fun s => forall t ev, In (t, ev) (history s) ->
                                 exists captured, In ev (goroutine e t captured)));
    [intros t ev [] | intros s t0 s' Hr IH Hs t ev].
  destruct (step_history _ _ _ Hs) as (ev0 & rest & Hp & ->).
  intros [[= <- <-] | Hin]; [| now apply IH].
  destruct (reachable_inOrder _ Hr t0) as (c & done & Hb & _).
  exists c. rewrite Hb, Hp. apply in_app_iff. right. now left.
Qed.

(** The state in which a call of the history was made. *)
Lemma reachable_split s later x earlier :
  reachable e s -> history s = (later ++ x :: earlier)%list ->
  exists s0 rest,
    reachable e s0 /\ history s0 = earlier /\
    pending s0 (fst x) = snd x :: rest /\ enabled (snd x) s0 = true.
Proof.
  intros H. revert later. revert s H.
  apply (reachable_ind (fun s => forall later,
           history s = (later ++ x :: earlier)%list ->
           exists s0 rest,
             reachable e s0 /\ history s0 = earlier /\
             pending s0 (fst x) = snd x :: rest /\ enabled (snd x) s0 = true));
    [intros later Hh | intros s t0 s' Hr IH Hs later Hh].
  - now destruct later.
  - destruct (step_inv _ _ _ Hs) as (ev & rest & _ & Hp & Hen & ->).
    rewrite effect_history in Hh. cbn [history] in Hh.
    destruct later as [| y later]; cbn [app] in Hh.
    + injection Hh as <- <-. exists s, rest. now repeat split.
    + injection Hh as _ Hh. now apply (IH later).
Qed.

End Process.

(** ** Reading the pid file *)

(** [n] reads that fail, each followed by the pause of the backoff. *)
Fixpoint failedReads (pidFile : string) (n : nat) : list Event :=
  match n with
  | O => []
  | S n' => EvReadFile pidFile :: EvSleep 500 :: failedReads pidFile n'
  end.

Section ReadPid.

Variable e : Env.
Variable pidFile : string.

(** The closure [readPid] gives to the retrier. *)
Definition readWork (s : nat * (Z * option error))
  : M ((nat * (Z * option error)) * option error) :=
  '(pid, err) <- parsePid pidFile (pidfile_kill e (fst s)) ;;
  ret ((S (fst s), (pid, err)), err).

Lemma readWork_eq s :
  readWork s =
  let r := parsed (pidfile_kill e (fst s)) in
  ([EvReadFile pidFile], inr ((S (fst s), r), snd r)).
Proof.
  unfold readWork. rewrite parsePid_parsed. cbn [bind].
  now destruct (parsed (pidfile_kill e (fst s))).
Qed.

Lemma readPid_Run :
  readPid e pidFile =
  ('(s, _) <- retrier.Run (retrier.ConstantBackoff 20 500) readWork (O, (-1, None)) ;;
   ret (snd s)).
Proof. reflexivity. Qed.

(** The retrier stops at the first read that succeeds. *)
Lemma Run_found backoff k n last pid :
  (k <= List.length backoff)%nat ->
  (forall j, (j < k)%nat -> snd (parsed (pidfile_kill e (n + j))) <> None) ->
  parsed (pidfile_kill e (n + k)) = (pid, None) ->
  (forall d, In d backoff -> d = 500) ->
  retrier.Run backoff readWork (n, last) =
  ((failedReads pidFile k ++ [EvReadFile pidFile])%list,
   inr ((S (n + k), (pid, None)), None)).
Proof.
  revert backoff n last. induction k as [| k IH]; intros backoff n last Hk Hfail Hok Hd.
  - rewrite Nat.add_0_r in Hok.
    destruct backoff; cbn [retrier.Run]; rewrite readWork_eq; cbn [fst];
      rewrite Hok; cbn [bind snd ret app]; now rewrite Nat.add_0_r.
  - destruct backoff as [| d rest]; [cbn [List.length] in Hk; lia |].
    cbn [retrier.Run]. rewrite readWork_eq. cbn [fst].
    assert (H0 : snd (parsed (pidfile_kill e (n + 0))) <> None)
      by (apply Hfail; lia).
    rewrite Nat.add_0_r in H0.
    destruct (parsed (pidfile_kill e n)) as [pid0 [err0 |]] eqn:E0;
      [| now elim H0].
    cbn [bind snd app].
    rewrite (Hd d) by now left.
    rewrite (IH rest (S n) (pid0, Some err0)).
    + replace (S n + k)%nat with (n + S k)%nat by lia. reflexivity.
    + cbn [List.length] in Hk. lia.
    + intros j Hj. replace (S n + j)%nat with (n + S j)%nat by lia.
      apply Hfail. lia.
    + now replace (S n + k)%nat with (n + S k)%nat by lia.
    + intros d' Hin. apply Hd. now right.
Qed.

(** The retrier gives up when the backoff is used up. *)
Lemma Run_missing backoff n last :
  (forall j, (j <= List.length backoff)%nat ->
             snd (parsed (pidfile_kill e (n + j))) <> None) ->
  (forall d, In d backoff -> d = 500) ->
  exists pid err,
    parsed (pidfile_kill e (n + List.length backoff)) = (pid, Some err) /\
    retrier.Run backoff readWork (n, last) =
    ((failedReads pidFile (List.length backoff) ++ [EvReadFile pidFile])%list,
     inr ((S (n + List.length backoff), (pid, Some err)), Some err)).
Proof.
  revert n last. induction backoff as [| d rest IH]; intros n last Hfail Hd.
  - assert (H0 : snd (parsed (pidfile_kill e (n + 0))) <> None)
      by (apply Hfail; lia).
    cbn [List.length]. rewrite Nat.add_0_r in *.
    destruct (parsed (pidfile_kill e n)) as [pid0 [err0 |]] eqn:E0;
      [| now elim H0].
    exists pid0, err0. split; [reflexivity |].
    cbn [retrier.Run]. rewrite readWork_eq. cbn [fst]. now rewrite E0.
  - assert (H0 : snd (parsed (pidfile_kill e (n + 0))) <> None)
      by (apply Hfail; lia).
    rewrite Nat.add_0_r in H0.
    destruct (parsed (pidfile_kill e n)) as [pid0 [err0 |]] eqn:E0;
      [| now elim H0].
    destruct (IH (S n) (pid0, Some err0)) as (pid & err & Hlast & Hrun).
    + intros j Hj. replace (S n + j)%nat with (n + S j)%nat by lia.
      apply Hfail. cbn [List.length]. lia.
    + intros d' Hin. apply Hd. now right.
    + exists pid, err. cbn [List.length].
      replace (n + S (List.length rest))%nat with (S n + List.length rest)%nat by lia.
      split; [exact Hlast |].
      cbn [retrier.Run]. rewrite readWork_eq. cbn [fst]. rewrite E0.
      cbn [bind snd app]. rewrite (Hd d) by now left.
      rewrite Hrun. reflexivity.
Qed.

Lemma ConstantBackoff_all n amount d :
  In d (retrier.ConstantBackoff n amount) -> d = amount.
Proof. unfold retrier.ConstantBackoff. apply repeat_spec. Qed.

(** [readPid] reads until a read gives a pid, pausing 500 ms after each
    read that fails, and makes at most 21 reads. *)
Lemma readPid_found k pid :
  (k <= 20)%nat ->
  (forall j, (j < k)%nat -> snd (parsed (pidfile_kill e j)) <> None) ->
  parsed (pidfile_kill e k) = (pid, None) ->
  readPid e pidFile =
  ((failedReads pidFile k ++ [EvReadFile pidFile])%list, inr (pid, None)).
Proof.
  intros Hk Hfail Hok. rewrite readPid_Run.
  assert (Hrun := Run_found (retrier.ConstantBackoff 20 500) k O (-1, None) pid).
  unfold retrier.ConstantBackoff at 1 in Hrun. rewrite repeat_length in Hrun.
  rewrite (Hrun Hk Hfail Hok (ConstantBackoff_all 20 500)).
  cbn [bind ret snd]. now rewrite app_nil_r.
Qed.

Lemma readPid_missing :
  (forall j, (j <= 20)%nat -> snd (parsed (pidfile_kill e j)) <> None) ->
  exists pid err,
    readPid e pidFile =
    ((failedReads pidFile 20 ++ [EvReadFile pidFile])%list, inr (pid, Some err)).
Proof.
  intros Hfail. rewrite readPid_Run.
  destruct (Run_missing (retrier.ConstantBackoff 20 500) O (-1, None))
    as (pid & err & _ & Hrun).
  - unfold retrier.ConstantBackoff. rewrite repeat_length. exact Hfail.
  - apply ConstantBackoff_all.
  - exists pid, err. rewrite Hrun.
    unfold retrier.ConstantBackoff. rewrite repeat_length.
    cbn [bind ret snd]. now rewrite app_nil_r.
Qed.

(** Whatever the pid file holds, [readPid] returns, and it only reads and
    pauses. *)
Definition isReadOrSleep (ev : Event) : Prop :=
  match ev with EvReadFile _ | EvSleep _ => True | _ => False end.

Lemma Run_calls backoff s :
  Forall isReadOrSleep (trace (retrier.Run backoff readWork s)) /\
  exists r, result (retrier.Run backoff readWork s) = inr r.
Proof.
  revert s. induction backoff as [| d rest IH]; intros s;
    cbn [retrier.Run]; rewrite readWork_eq; cbn zeta;
    destruct (snd (parsed (pidfile_kill e (fst s)))) as [err |] eqn:E;
    cbn [bind]; rewrite ?E; cbn [bind ret emit app];
    try (split; [repeat constructor | eexists; reflexivity]).
  destruct (IH (S (fst s), parsed (pidfile_kill e (fst s)))) as [Hc [r Hr]].
  destruct (retrier.Run rest readWork _) as [tr res].
  cbn [trace result fst snd] in *. split; [| now exists r].
  repeat (constructor; [exact I |]). exact Hc.
Qed.

Lemma readPid_calls :
  Forall isReadOrSleep (trace (readPid e pidFile)) /\
  exists r, result (readPid e pidFile) = inr r.
Proof.
  rewrite readPid_Run.
  destruct (Run_calls (retrier.ConstantBackoff 20 500) (O, (-1, None)))
    as [Hc [[s r] Hr]].
  destruct (retrier.Run _ readWork _) as [tr res].
  cbn [trace result fst snd] in *. subst res. cbn [bind ret].
  rewrite app_nil_r. split; [exact Hc | now eexists].
Qed.

End ReadPid.

(** ** The broker *)

Section Broker.

Variable e : Env.
Variables (pidFile sockDir : string).

Lemma killProcess_found k pid :
  (k <= 20)%nat ->
  (forall j, (j < k)%nat -> snd (parsed (pidfile_kill e j)) <> None) ->
  parsed (pidfile_kill e k) = (pid, None) ->
  killProcess e pidFile =
  ((failedReads pidFile k ++ [EvReadFile pidFile; EvKill pid SIGKILL])%list,
   inr tt).
Proof.
  intros Hk Hfail Hok. unfold killProcess.
  rewrite (readPid_found e pidFile k pid Hk Hfail Hok). cbn [bind emit].
  now rewrite <- app_assoc.
Qed.

Lemma killProcess_missing :
  (forall j, (j <= 20)%nat -> snd (parsed (pidfile_kill e j)) <> None) ->
  killProcess e pidFile =
  ((failedReads pidFile 20 ++ [EvReadFile pidFile])%list, inr tt).
Proof.
  intros Hfail. unfold killProcess.
  destruct (readPid_missing e pidFile Hfail) as (pid & err & ->).
  cbn [bind ret]. now rewrite app_nil_r.
Qed.

Definition isKillCall (ev : Event) : Prop :=
  match ev with
  | EvReadFile _ | EvSleep _ | EvKill _ _ => True
  | _ => False
  end.

Lemma killProcess_calls :
  Forall isKillCall (trace (killProcess e pidFile)) /\
  result (killProcess e pidFile) = inr tt.
Proof.
  unfold killProcess.
  destruct (readPid_calls e pidFile) as [Hc [[pid err] Hr]].
  destruct (readPid e pidFile) as [tr res].
  cbn [trace result fst snd] in *. subst res. cbn [bind].
  assert (Htr : Forall isKillCall tr)
    by (apply Forall_impl with (P := isReadOrSleep); [now intros [] | exact Hc]).
  destruct err; cbn [ret emit fst snd]; split; try reflexivity.
  - now rewrite app_nil_r.
  - apply Forall_app. split; [exact Htr | repeat constructor].
Qed.

(** The three failures after which the deferred function kills. *)
Lemma broker_accept_fails err :
  ln_Accept e = Fails err ->
  broker e pidFile sockDir =
  (EvAccept :: trace (killProcess e pidFile), inl (Panic err)).
Proof.
  intros H. unfold broker, brokerBody. rewrite H.
  destruct killProcess_calls as [_ Hr].
  destruct (killProcess e pidFile) as [tr res].
  cbn [result snd] in Hr. subst res. cbn. now rewrite app_nil_r.
Qed.

Lemma broker_file_fails err :
  ln_Accept e = Succeeds -> conn_isUnixConn e = true ->
  unixconn_File e = Some err ->
  broker e pidFile sockDir =
  ([EvAccept; EvListenerClose; EvConnFile; EvConnClose]
     ++ trace (killProcess e pidFile), inl (Panic err))%list.
Proof.
  intros H H1 H2. unfold broker, brokerBody. rewrite H, H1, H2.
  destruct killProcess_calls as [_ Hr].
  destruct (killProcess e pidFile) as [tr res].
  cbn [result snd] in Hr. subst res. cbn. now rewrite app_nil_r.
Qed.

Lemma broker_recv_fails err :
  ln_Accept e = Succeeds -> conn_isUnixConn e = true ->
  unixconn_File e = None -> cmsg_RecvFd e = Fails err ->
  broker e pidFile sockDir =
  ([EvAccept; EvListenerClose; EvConnFile; EvRecvFd; EvSocketClose; EvConnClose]
     ++ trace (killProcess e pidFile), inl (Panic err))%list.
Proof.
  intros H H1 H2 H3. unfold broker, brokerBody. rewrite H, H1, H2, H3.
  destruct killProcess_calls as [_ Hr].
  destruct (killProcess e pidFile) as [tr res].
  cbn [result snd] in Hr. subst res. cbn. now rewrite app_nil_r.
Qed.

(** When nothing fails the broker starts the pumps and returns. *)
Lemma broker_streams :
  ln_Accept e = Succeeds -> conn_isUnixConn e = true ->
  unixconn_File e = None -> cmsg_RecvFd e = Succeeds ->
  broker e pidFile sockDir =
  ([EvAccept; EvListenerClose; EvConnFile; EvRecvFd; EvRemoveAll sockDir;
    EvIoWgAdd 1; EvGo TStdoutPump []; EvGo TStdinPump []; EvGo TWinsz [];
    EvSocketClose; EvConnClose], inr tt).
Proof.
  intros H H1 H2 H3. unfold broker, brokerBody. now rewrite H, H1, H2, H3.
Qed.

(** The calls the broker can make. *)
Definition isBrokerCall (ev : Event) : Prop :=
  match ev with
  | EvAccept | EvListenerClose | EvConnClose | EvConnFile | EvSocketClose
  | EvRecvFd | EvRemoveAll _ | EvReadFile _ | EvSleep _ | EvKill _ _
  | EvPanic _ => True
  | EvIoWgAdd delta => delta = 1
  | EvGo t _ => t = TStdoutPump \/ t = TStdinPump \/ t = TWinsz
  | _ => False
  end.

Lemma broker_calls :
  Forall isBrokerCall (actions (broker e pidFile sockDir) (fun _ => [])).
Proof.
  assert (Hk : Forall isBrokerCall (trace (killProcess e pidFile))).
  { destruct killProcess_calls as [Hc _].
    apply Forall_impl with (P := isKillCall); [now intros [] | exact Hc]. }
  destruct (ln_Accept e) as [| err |] eqn:H.
  - unfold actions, broker, brokerBody. rewrite H. constructor.
  - unfold actions. rewrite (broker_accept_fails err H). cbn [trace result fst snd].
    constructor; [exact I |]. apply Forall_app. split; [exact Hk | repeat constructor].
  - destruct (conn_isUnixConn e) eqn:H1.
    + destruct (unixconn_File e) as [err |] eqn:H2.
      * unfold actions. rewrite (broker_file_fails err H H1 H2).
        cbn [trace result fst snd]. rewrite <- app_assoc.
        repeat (constructor; [exact I |]).
        apply Forall_app. split; [exact Hk | repeat constructor].
      * destruct (cmsg_RecvFd e) as [| err |] eqn:H3.
        -- unfold actions, broker, brokerBody. rewrite H, H1, H2, H3.
           cbn. repeat constructor.
        -- unfold actions. rewrite (broker_recv_fails err H H1 H2 H3).
           cbn [trace result fst snd]. rewrite <- app_assoc.
           repeat (constructor; [exact I |]).
           apply Forall_app. split; [exact Hk | repeat constructor].
        -- unfold actions. rewrite (broker_streams H H1 H2 H3).
           cbn [trace result fst snd app].
           repeat first [apply Forall_nil | apply Forall_cons; [cbn; auto |]].
    + unfold actions, broker, brokerBody. rewrite H, H1. cbn. repeat constructor.
Qed.

End Broker.

(** ** What each goroutine can call *)

Definition isMainCall (tty : bool) (ev : Event) : Prop :=
  match ev with
  | EvSignalNotify | EvOpenFile _ _ _ | EvWrite _ _ | EvClose _ | EvSetSubreaper
  | EvStart _ _ | EvWait4 _ _ | EvReadFile _ | EvWriteFile _ _ _ | EvSigRecv
  | EvIoWgWait | EvExit _ | EvPanic _ => True
  | EvTempDir _ | EvListen _ => tty = true
  | EvGo t _ => tty = true /\ t = TBroker
  | _ => False
  end.

Definition mayCall (tty : bool) (t : Tid) (ev : Event) : Prop :=
  match t with
  | TMain => isMainCall tty ev
  | TBroker => isBrokerCall ev
  | TStdoutPump => ev = EvCopyMasterToStdout \/ ev = EvIoWgDone
  | TStdinPump => ev = EvCopyStdinToMaster
  | TWinsz => match ev with EvPrintln _ | EvSetWinSize _ _ => True | _ => False end
  end.

(** [guarded guard target prev l]: in [l] every call that [target] accepts
    comes right after a call that [guard] accepts; [prev] tells whether
    [guard] accepts the call before [l]. *)
Fixpoint guarded (guard target : Event -> bool) (prev : bool) (l : list Event)
  : bool :=
  match l with
  | [] => true
  | ev :: rest =>
      (if target ev then prev else true) && guarded guard target (guard ev) rest
  end.

Definition isIoWgWaitb (ev : Event) : bool :=
  match ev with EvIoWgWait => true | _ => false end.

Definition isWriteFileb (ev : Event) : bool :=
  match ev with EvWriteFile _ _ _ => true | _ => false end.

(** The call with which the reaper reaps: [Wait4(-1, .., WNOHANG, ..)]. *)
Definition isReapb (ev : Event) : bool :=
  match ev with
  | EvWait4 pid options => (pid =? -1) && (options =? WNOHANG)
  | _ => false
  end.

(** Every write of a file comes right after [ioWg.Wait], and every
    [ioWg.Wait] right after the reaper's [Wait4]. *)
Definition guardedWrites : bool -> list Event -> bool :=
  guarded isIoWgWaitb isWriteFileb.

Definition guardedWaits : bool -> list Event -> bool :=
  guarded isReapb isIoWgWaitb.

Section GuardedLists.

Variables guard target : Event -> bool.

Lemma guarded_weaken prev l :
  guarded guard target false l = true -> guarded guard target prev l = true.
Proof.
  destruct l as [| ev rest]; [reflexivity |]. cbn [guarded].
  destruct (target ev); [discriminate | auto].
Qed.

Lemma guarded_app prev l l' :
  guarded guard target prev l = true -> guarded guard target false l' = true ->
  guarded guard target prev (l ++ l') = true.
Proof.
  revert prev. induction l as [| ev l IH]; intros prev H H'.
  - now apply guarded_weaken.
  - cbn [app guarded] in *. apply andb_true_iff in H as [-> H]. cbn [andb]. auto.
Qed.

Lemma guarded_none (P : Event -> Prop) prev l :
  (forall ev, P ev -> target ev = false) ->
  Forall P l -> guarded guard target prev l = true.
Proof.
  intros HP H. revert prev. induction H as [| ev l Hev _ IH]; intros prev;
    [reflexivity |].
  cbn [guarded]. now rewrite (HP ev Hev), IH.
Qed.

(** In a guarded list, the call before a target is a guard. *)
Lemma guarded_before prev l done x rest :
  guarded guard target prev l = true ->
  l = (done ++ x :: rest)%list -> target x = true ->
  (done = [] /\ prev = true) \/
  exists done' y, done = (done' ++ [y])%list /\ guard y = true.
Proof.
  intros H Hl Hx. revert prev l H Hl.
  induction done as [| ev done IH]; intros prev l H ->.
  - cbn [app guarded] in H. rewrite Hx in H. apply andb_true_iff in H as [-> _].
    now left.
  - right. cbn [app guarded] in H. apply andb_true_iff in H as [_ H].
    destruct (IH _ _ H eq_refl) as [[-> Hg] | (done' & y & -> & Hg)].
    + now exists [], ev.
    + now exists (ev :: done'), y.
Qed.

End GuardedLists.

Section Bodies.

Variable e : Env.

Lemma actions_Forall {A} (P : Event -> Prop) (m : M A) final :
  Forall P (trace m) -> (forall a, Forall P (final a)) ->
  (forall msg, P (EvPanic msg)) ->
  Forall P (actions m final).
Proof.
  intros Ht Hf Hp. unfold actions. apply Forall_app. split; [exact Ht |].
  destruct (result m) as [[msg |] | a]; auto.
Qed.

Lemma command_plain runtime logFile pidFilePath cid :
  flag_tty e = false ->
  command e runtime logFile pidFilePath cid =
  ([], inr (plainCommand e runtime logFile pidFilePath cid, true)).
Proof. intros H. unfold command. now rewrite H. Qed.

Lemma command_main_calls runtime logFile pidFilePath cid :
  Forall (isMainCall (flag_tty e))
         (trace (command e runtime logFile pidFilePath cid)).
Proof.
  destruct (flag_tty e) eqn:T.
  - apply Forall_impl with (P := isSocketSetup); [| apply command_calls].
    intros ev H. destruct ev; try (now elim H); try exact I; try reflexivity.
    cbn in H. now destruct t.
  - rewrite command_plain by exact T. constructor.
Qed.

Lemma prepare_main_calls runtime dir cid :
  Forall (isMainCall (flag_tty e)) (trace (prepare e runtime dir cid)).
Proof.
  destruct (openPipes_cases e dir) as [[pipes Hp] | (tr & msg & path & Hp & Hopen & _)].
  - rewrite (prepare_opened _ _ _ _ _ Hp). cbn [trace fst].
    apply Forall_app. split; [repeat constructor | apply command_main_calls].
  - rewrite (prepare_failed _ _ _ _ _ _ Hp). cbn [trace fst].
    constructor; [exact I |].
    apply Forall_impl with (P := isOpenFile); [now intros [] | exact Hopen].
Qed.

Lemma supervise_main_calls argv stdio dir pidFile :
  Forall (isMainCall (flag_tty e)) (trace (supervise e argv stdio dir pidFile)).
Proof.
  destruct (supervise_calls e argv stdio dir pidFile) as (tail & -> & Htail).
  repeat (constructor; [exact I |]).
  apply Forall_impl with (P := isAfterStart); [now intros [] | exact Htail].
Qed.

Lemma run_main_calls : Forall (isMainCall (flag_tty e)) (trace (run e)).
Proof.
  destruct (nth_error (flag_Args e) 1) as [runtime |] eqn:H1;
    [| rewrite run_short by auto; constructor].
  destruct (nth_error (flag_Args e) 2) as [dir |] eqn:H2;
    [| rewrite run_short by auto; constructor].
  destruct (nth_error (flag_Args e) 3) as [cid |] eqn:H3;
    [| rewrite run_short by auto; constructor].
  rewrite (run_args _ _ _ _ H1 H2 H3).
  apply Forall_trace_bind; [apply prepare_main_calls |].
  intros [argv stdio] _. apply supervise_main_calls.
Qed.

Lemma winszLoop_calls events :
  Forall (mayCall (flag_tty e) TWinsz) (actions (winszLoop events) (fun _ => [])).
Proof.
  unfold actions. induction events as [| [err | c r] rest IH];
    cbn [winszLoop]; [constructor | |];
    rewrite trace_bind, result_bind; cbn [emit trace result fst snd app];
    (constructor; [exact I | exact IH]).
Qed.

Lemma stdoutPump_body captured :
  goroutine e TStdoutPump captured = [] \/
  goroutine e TStdoutPump captured = [EvCopyMasterToStdout; EvIoWgDone].
Proof.
  cbn [goroutine]. unfold actions, stdoutPump.
  destruct (copy_master_to_stdout e); cbn; auto.
Qed.

(** Every call of a goroutine is one its code can make. *)
Lemma goroutine_calls t captured :
  Forall (mayCall (flag_tty e) t) (goroutine e t captured).
Proof.
  destruct t; cbn [goroutine mayCall].
  - apply actions_Forall; [apply run_main_calls | | intros; exact I].
    intros code. repeat constructor.
  - destruct captured as [| p [| d [| x l]]]; try constructor.
    apply broker_calls.
  - destruct (stdoutPump_body captured) as [H | H]; cbn [goroutine] in H;
      rewrite H; repeat first [apply Forall_nil | apply Forall_cons; [cbn; auto |]].
  - unfold actions, stdinPump.
    destruct (copy_stdin_to_master e); cbn;
      repeat first [apply Forall_nil | apply Forall_cons; [cbn; auto |]].
  - apply winszLoop_calls.
Qed.

Lemma goroutine_may t captured ev :
  In ev (goroutine e t captured) -> mayCall (flag_tty e) t ev.
Proof.
  intros H. pose proof (goroutine_calls t captured) as Hc.
  rewrite Forall_forall in Hc. now apply Hc.
Qed.

End Bodies.

(** ** [run] writes a file only right after [ioWg.Wait] *)

Section Guarded.

Variable e : Env.

Lemma reapChildren_guarded dir containerPid answers :
  guardedWrites false (trace (reapChildren e dir containerPid answers)) = true /\
  guardedWaits false (trace (reapChildren e dir containerPid answers)) = true.
Proof.
  induction answers as [| [err | wpid status] rest [IH IH']]; cbn [reapChildren];
    rewrite trace_bind; cbn [emit trace result fst snd app];
    try (split; reflexivity).
  destruct (wpid <=? 0); [split; reflexivity |].
  destruct (wpid =? containerPid).
  - destruct (ioutil_WriteFile e); split; reflexivity.
  - split; [exact IH |]. unfold guardedWaits. cbn [guarded isIoWgWaitb andb].
    now apply guarded_weaken.
Qed.

Lemma waitForContainerToExit_guarded dir containerPid signals :
  guardedWrites false
    (trace (waitForContainerToExit e dir containerPid signals)) = true /\
  guardedWaits false
    (trace (waitForContainerToExit e dir containerPid signals)) = true.
Proof.
  induction signals as [| answers rest [IH IH']]; cbn [waitForContainerToExit];
    [split; reflexivity |].
  rewrite trace_bind. cbn [emit trace result fst snd app].
  rewrite trace_bind.
  destruct (reapChildren_guarded dir containerPid answers) as [Hr Hr'].
  split; unfold guardedWrites, guardedWaits; cbn [guarded];
    cbn [isWriteFileb isIoWgWaitb isReapb andb];
    (apply guarded_app; [assumption |]);
    (destruct (result (reapChildren e dir containerPid answers)) as [stop | [c |]];
     [reflexivity | reflexivity | assumption]).
Qed.

Lemma supervise_guarded argv stdio dir pidFile :
  guardedWrites false (trace (supervise e argv stdio dir pidFile)) = true /\
  guardedWaits false (trace (supervise e argv stdio dir pidFile)) = true.
Proof.
  unfold supervise.
  destruct (cmd_Start e) as [err | child]; go_unfold; [split; reflexivity |].
  destruct (wait4_front e) as [err | status]; go_unfold; [split; reflexivity |].
  destruct (negb _); go_unfold; [split; reflexivity |].
  unfold parsePid.
  destruct (pidfile_main e) as [err | b]; go_unfold; [split; reflexivity |].
  destruct (fmt.Sscanf_d b) as [err | pid]; go_unfold; [split; reflexivity |].
  destruct (waitForContainerToExit_guarded dir pid (sigchld e)) as [Hw Hw'].
  destruct (waitForContainerToExit e dir pid (sigchld e)) as [tr r].
  cbn [trace fst] in Hw, Hw'. unfold guardedWrites, guardedWaits in *.
  cbn [guarded isWriteFileb isIoWgWaitb isReapb andb fst].
  split; now apply guarded_weaken.
Qed.

Definition isBeforeStart (ev : Event) : Prop :=
  match ev with
  | EvSignalNotify | EvOpenFile _ _ _ | EvWrite _ _ | EvTempDir _ | EvListen _
  | EvGo _ _ => True
  | _ => False
  end.

Lemma prepare_before_start runtime dir cid :
  Forall isBeforeStart (trace (prepare e runtime dir cid)).
Proof.
  destruct (openPipes_cases e dir) as [[pipes Hp] | (tr & msg & path & Hp & Hopen & _)].
  - rewrite (prepare_opened _ _ _ _ _ Hp). cbn [trace fst].
    apply Forall_app. split; [repeat constructor |].
    apply Forall_impl with (P := isSocketSetup); [now intros [] | apply command_calls].
  - rewrite (prepare_failed _ _ _ _ _ _ Hp). cbn [trace fst].
    constructor; [exact I |].
    apply Forall_impl with (P := isOpenFile); [now intros [] | exact Hopen].
Qed.

Lemma run_guarded :
  guardedWrites false (trace (run e)) = true /\
  guardedWaits false (trace (run e)) = true.
Proof.
  destruct (nth_error (flag_Args e) 1) as [runtime |] eqn:H1;
    [| now rewrite run_short by auto].
  destruct (nth_error (flag_Args e) 2) as [dir |] eqn:H2;
    [| now rewrite run_short by auto].
  destruct (nth_error (flag_Args e) 3) as [cid |] eqn:H3;
    [| now rewrite run_short by auto].
  rewrite (run_args _ _ _ _ H1 H2 H3), trace_bind.
  pose proof (prepare_before_start runtime dir cid) as Hprep.
  split; apply guarded_app;
    try (apply guarded_none with (P := isBeforeStart);
         [now intros [] | exact Hprep]);
    (destruct (result (prepare e runtime dir cid)) as [stop | [argv stdio]];
     [reflexivity | apply supervise_guarded]).
Qed.

Lemma main_guarded captured :
  guardedWrites false (goroutine e TMain captured) = true /\
  guardedWaits false (goroutine e TMain captured) = true.
Proof.
  cbn [goroutine]. unfold actions. destruct run_guarded as [H H'].
  split; (apply guarded_app; [assumption |]);
    now destruct (result (run e)) as [[msg |] | code].
Qed.

End Guarded.

(** ** The counter of [ioWg] *)

(** The value of the counter after the calls of a history. *)
Fixpoint balance (h : list (Tid * Event)) : Z :=
  match h with
  | [] => 0
  | (_, EvIoWgAdd delta) :: rest => balance rest + delta
  | (_, EvIoWgDone) :: rest => balance rest - 1
  | _ :: rest => balance rest
  end.

Section Counter.

Variable e : Env.

Lemma reachable_balance s : reachable e s -> ioWg s = balance (history s).
Proof.
  revert s. apply (reachable_ind e (fun s => ioWg s = balance (history s)));
    [reflexivity | intros s t s' _ IH Hs].
  destruct (step_inv _ _ _ _ Hs) as (ev & rest & _ & _ & _ & ->).
  destruct ev; cbn [effect ioWg history balance]; now rewrite IH.
Qed.

(** [ioWg.Wait] returns only when the counter is zero. *)
Lemma reachable_wait s later t earlier :
  reachable e s ->
  history s = (later ++ (t, EvIoWgWait) :: earlier)%list ->
  balance earlier = 0.
Proof.
  intros Hr Hh.
  destruct (reachable_split _ _ _ _ _ Hr Hh) as (s0 & rest & Hr0 & Hh0 & _ & Hen).
  cbn [snd enabled] in Hen. apply Z.eqb_eq in Hen.
  now rewrite <- Hh0, <- (reachable_balance _ Hr0).
Qed.

(** A history whose additions are all by one and which holds an addition
    and no [Done] has a positive balance. *)
Lemma balance_pending h :
  (forall t delta, In (t, EvIoWgAdd delta) h -> delta = 1) ->
  (forall t, ~ In (t, EvIoWgDone) h) ->
  0 <= balance h /\ ((exists t delta, In (t, EvIoWgAdd delta) h) -> 0 < balance h).
Proof.
  induction h as [| [t ev] h IH]; intros Hadd Hdone.
  - split; [reflexivity | intros (? & ? & [])].
  - destruct IH as [IH0 IH1].
    { intros t' d H. apply (Hadd t'). now right. }
    { intros t' H. apply (Hdone t'). now right. }
    destruct ev; cbn [balance];
      try (split; [exact IH0 |]; intros (t' & d & [[= ] | H]); apply IH1; eauto).
    + rewrite (Hadd t delta) by now left. split; lia.
    + elim (Hdone t). now left.
Qed.

(** If the counter is zero after an addition, some goroutine has called
    [Done]. *)
Lemma balance_zero_done h t delta :
  (forall t delta, In (t, EvIoWgAdd delta) h -> delta = 1) ->
  balance h = 0 -> In (t, EvIoWgAdd delta) h ->
  exists t' later earlier, h = (later ++ (t', EvIoWgDone) :: earlier)%list.
Proof.
  induction h as [| [t0 ev] h IH]; intros Hadd Hb Hin; [destruct Hin |].
  assert (Hadd' : forall t delta, In (t, EvIoWgAdd delta) h -> delta = 1)
    by (intros t' d H; apply (Hadd t'); now right).
  assert (Hdec : (exists t', ev = EvIoWgDone /\ t' = t0) \/ ev <> EvIoWgDone)
    by (destruct ev; try (right; discriminate); left; now exists t0).
  destruct Hdec as [(t' & -> & ->) | Hne].
  - now exists t0, [], h.
  - assert (Hcases : (exists later earlier t',
                        h = (later ++ (t', EvIoWgDone) :: earlier)%list) \/
                     (forall t', ~ In (t', EvIoWgDone) h)).
    { clear - h. induction h as [| [t1 ev1] h IHh]; [right; intros t' [] |].
      destruct IHh as [(later & earlier & t' & ->) | Hno].
      - left. now exists ((t1, ev1) :: later), earlier, t'.
      - assert (Hd : ev1 = EvIoWgDone \/ ev1 <> EvIoWgDone)
          by (destruct ev1; try (right; discriminate); now left).
        destruct Hd as [-> | Hd].
        + left. now exists [], h, t1.
        + right. intros t' [[= _ H] | H]; [now apply Hd | now apply (Hno t')]. }
    destruct Hcases as [(later & earlier & t' & ->) | Hno].
    + now exists t', ((t0, ev) :: later), earlier.
    + exfalso.
      assert (Hdone : forall t', ~ In (t', EvIoWgDone) ((t0, ev) :: h)).
      { intros t' [[= _ H] | H]; [now apply Hne | now apply (Hno t')]. }
      destruct (balance_pending _ Hadd Hdone) as [_ Hpos].
      assert (0 < balance ((t0, ev) :: h)) by (apply Hpos; eauto). lia.
Qed.

End Counter.

(** ** Runs that return *)

Section Returns.

Variable e : Env.

(** [run] returns only from [supervise]. *)
Lemma run_returns_inv code :
  result (run e) = inr code ->
  exists runtime dir cid pipes argv stdio,
    nth_error (flag_Args e) 1 = Some runtime /\
    nth_error (flag_Args e) 2 = Some dir /\
    nth_error (flag_Args e) 3 = Some cid /\
    openPipes e dir = (pipeEvents dir, inr pipes) /\
    result (commandOf e runtime dir cid) = inr (argv, stdio).
Proof.
  destruct (nth_error (flag_Args e) 1) as [runtime |] eqn:H1;
    [| rewrite run_short by auto; discriminate].
  destruct (nth_error (flag_Args e) 2) as [dir |] eqn:H2;
    [| rewrite run_short by auto; discriminate].
  destruct (nth_error (flag_Args e) 3) as [cid |] eqn:H3;
    [| rewrite run_short by auto; discriminate].
  intros Hres. exists runtime, dir, cid.
  destruct (openPipes_cases e dir) as [[pipes Hp] | (tr & msg & path & Hp & _)].
  - exists pipes.
    destruct (result (commandOf e runtime dir cid)) as [stop | [argv stdio]] eqn:R.
    + exfalso. revert Hres.
      rewrite (run_args _ _ _ _ H1 H2 H3), (prepare_opened _ _ _ _ _ Hp).
      cbn zeta. fold (pidFileOf dir). fold (commandOf e runtime dir cid).
      rewrite R. discriminate.
    + now exists argv, stdio.
  - exfalso. revert Hres.
    rewrite (run_args _ _ _ _ H1 H2 H3), (prepare_failed _ _ _ _ _ _ Hp).
    discriminate.
Qed.



End Returns.

(** ** Worlds to run the program in *)

Module Scenario.

Definition world (tty : bool) (socketDir : string) (start front : error + Z)
    (pidfile : error + string) (signals : list (list Wait4Result))
    (accept recv : Answer) (later : nat -> error + string) : Env :=
  {| flag_tty := tty;
     flag_socketDirPath := socketDir;
     flag_Args := ["exec"; "runc"; "/state"; "cake"];
     os_Getpid := 42;
     os_OpenFile := fun _ => Opened;
     ioutil_TempDir := fun base => inr (base ++ "/123456789");
     net_Listen := fun _ => None;
     cmd_Start := start;
     wait4_front := front;
     pidfile_main := pidfile;
     sigchld := signals;
     ioutil_WriteFile := None;
     ln_Accept := accept;
     conn_isUnixConn := true;
     unixconn_File := None;
     cmsg_RecvFd := recv;
     pidfile_kill := later;
     copy_master_to_stdout := Succeeds;
     copy_stdin_to_master := NeverReturns;
     winsz_events := [] |}.

Definition missing : error := "no such file or directory".

(** No terminal; the container process 77 ends with exit status 7, after
    another orphan was reaped. *)
Definition exits7 : Env :=
  world false "" (inr 43) (inr 0) (inr "77")
        [[W4Ok 43 0]; [W4Ok 50 0; W4Ok 77 (WaitStatus.ofExit 7)]]
        NeverReturns NeverReturns (fun _ => inl missing).

(** No terminal; the container process is killed by signal 9. *)
Definition killed9 : Env :=
  world false "" (inr 43) (inr 0) (inr "77")
        [[W4Ok 77 (WaitStatus.ofSignal 9 false)]]
        NeverReturns NeverReturns (fun _ => inl missing).



(** The front process ends with status 0 but there is no pid file yet. *)
Definition noPidFile : Env :=
  world false "" (inr 43) (inr 0) (inl missing)
        [[W4Ok 77 (WaitStatus.ofExit 0)]]
        NeverReturns NeverReturns (fun _ => inl missing).

Definition dir80 : string :=
  "/var/vcap/data/garden/console-sockets/0123456789/0123456789/0123456789/012345678".

Definition dir81 : string := dir80 ++ "9".

(** A terminal, and a socket directory of 80 bytes. *)
Definition terminal80 : Env :=
  world true dir80 (inr 43) (inr 0) (inr "77")
        [[W4Ok 77 (WaitStatus.ofExit 0)]]
        Succeeds Succeeds (fun _ => inr "77").

(** A terminal, and a socket directory of 81 bytes. *)
Definition terminal81 : Env :=
  world true dir81 (inr 43) (inr 0) (inr "77")
        [[W4Ok 77 (WaitStatus.ofExit 0)]]
        Succeeds Succeeds (fun _ => inr "77").

(** A terminal; [Accept] fails and the pid file never appears. *)
Definition acceptFailsNoPid : Env :=
  world true "/socks" (inr 43) (inr (WaitStatus.ofExit 1)) (inl missing) []
        (Fails "accept: too many open files") NeverReturns
        (fun _ => inl missing).

(** A terminal; receiving the master fd fails, and the pid file appears at
    the third read. *)
Definition recvFailsPidLate : Env :=
  world true "/socks" (inr 43) (inr 0) (inr "77") []
        Succeeds (Fails "recvfd: no fd received")
        (fun n => if (n <? 2)%nat then inl missing else inr "77").

(** A terminal; everything succeeds. *)
Definition terminal : Env :=
  world true "/socks" (inr 43) (inr 0) (inr "77")
        [[W4Ok 77 (WaitStatus.ofExit 0)]]
        Succeeds Succeeds (fun _ => inr "77").

End Scenario.

(** * The specification, property by property *)

(** ** C1: the exit code that is recorded *)

(** C1.  In a run in which the runtime was started, its front process ended
    with exit status 0 and [run] returned, the container pid read from the
    pid file was reaped, and the value [run] returns is 128 plus the signal
    number when the wait status of the container says it was killed by a
    signal, and its exit status otherwise; it lies between 0 and 255.  The
    last two calls of [run] are [ioWg.Wait] and the write of that value, in
    decimal digits, to [<processStateDir>/exitcode] with mode 0700; nothing
    else is written to a file; and [main] passes the value to [os.Exit]. *)
Theorem C1_exit_code_recorded (e : Env) (child status code : Z) :
  cmd_Start e = inr child ->
  wait4_front e = inr status ->
  WaitStatus.ExitStatus status = 0 ->
  result (run e) = inr code ->
  exists dir containerPid reaped calls,
    nth_error (flag_Args e) 2 = Some dir /\
    parsed (pidfile_main e) = (containerPid, None) /\
    (exists answers,
        In answers (sigchld e) /\ In (W4Ok containerPid reaped) answers) /\
    code = (if WaitStatus.Signaled reaped then 128 + WaitStatus.Signal reaped
            else WaitStatus.ExitStatus reaped) /\
    (forall sig dumped, 1 <= sig < 127 ->
       reaped = WaitStatus.ofSignal sig dumped -> code = 128 + sig) /\
    (forall c, 0 <= c < 256 -> reaped = WaitStatus.ofExit c -> code = c) /\
    (WaitStatus.Exited reaped = true \/ WaitStatus.Signaled reaped = true ->
     0 <= code < 256) /\
    trace (run e) =
      (calls ++ [EvIoWgWait;
                 EvWriteFile (filepath.Join [dir; "exitcode"]) (Itoa code) mode0700])%list /\
    Forall (fun ev => ~ isWriteFile ev) calls /\
    option_map Z.of_int (NilZero.int_of_string (Itoa code)) = Some code /\
    goroutine e TMain [] = (trace (run e) ++ [EvExit code])%list.
Proof.
  intros Hstart Hfront Hzero Hres.
  destruct (run_returns_inv e code Hres)
    as (runtime & dir & cid & pipes & argv & stdio & H1 & H2 & H3 & Hp & Hc).
  pose proof (run_started e _ _ _ _ _ _ H1 H2 H3 Hp Hc) as Hrun. cbn zeta in Hrun.
  destruct (parsed (pidfile_main e)) as [containerPid [err |]] eqn:Hpid.
  - exfalso. rewrite Hrun in Hres.
    rewrite (supervise_no_pid e argv stdio dir _ child status containerPid err
               Hstart Hfront Hzero Hpid) in Hres.
    discriminate.
  - rewrite (supervise_reaping e argv stdio dir _ child status containerPid
               Hstart Hfront Hzero Hpid) in Hrun.
    cbn zeta in Hrun. cbn [trace result fst snd] in Hrun.
    assert (Hw : result (waitForContainerToExit e dir containerPid (sigchld e)) = inr code)
      by (rewrite Hrun in Hres; exact Hres).
    destruct (waitForContainerToExit_returns e dir containerPid _ _ Hw)
      as (reaped & answers & pre & Hin & Hin' & Hcode & _ & Hpre & Htr).
    exists dir, containerPid, reaped,
      (prelude dir ++ trace (commandOf e runtime dir cid)
         ++ launched argv stdio child status
         ++ EvReadFile (pidFileOf dir) :: pre ++ [EvWait4 (-1) WNOHANG])%list.
    split; [exact H2 |]. split; [reflexivity |].
    split; [now exists answers |].
    split; [exact Hcode |].
    split; [intros sig dumped Hs ->; rewrite Hcode; now apply exitCodeOf_ofSignal |].
    split; [intros c Hcr ->; rewrite Hcode; now apply exitCodeOf_ofExit |].
    split; [intros Hkind; rewrite Hcode; now apply exitCodeOf_range |].
    split; [| split; [| split]].
    + rewrite Hrun. cbn [trace fst]. rewrite Htr. unfold recorded.
      rewrite <- !app_assoc. cbn [app]. rewrite <- !app_assoc. reflexivity.
    + apply Forall_app. split; [repeat constructor; auto |].
      apply Forall_app. split.
      { apply Forall_impl with (P := isSocketSetup); [now intros [] |].
        apply command_calls. }
      apply Forall_app. split; [repeat constructor; auto |].
      constructor; [auto |]. apply Forall_app. split; [| repeat constructor; auto].
      apply Forall_impl with (P := isPoll); [now intros [] | exact Hpre].
    + apply Itoa_decimal.
    + cbn [goroutine]. unfold actions. now rewrite Hres.
Qed.

Lemma C1_exit_code_recorded_witness :
  exists dir containerPid reaped calls,
    nth_error (flag_Args Scenario.killed9) 2 = Some dir /\
    parsed (pidfile_main Scenario.killed9) = (containerPid, None) /\
    (exists answers,
        In answers (sigchld Scenario.killed9) /\
        In (W4Ok containerPid reaped) answers) /\
    137 = (if WaitStatus.Signaled reaped then 128 + WaitStatus.Signal reaped
           else WaitStatus.ExitStatus reaped) /\
    (forall sig dumped, 1 <= sig < 127 ->
       reaped = WaitStatus.ofSignal sig dumped -> 137 = 128 + sig) /\
    (forall c, 0 <= c < 256 -> reaped = WaitStatus.ofExit c -> 137 = c) /\
    (WaitStatus.Exited reaped = true \/ WaitStatus.Signaled reaped = true ->
     0 <= 137 < 256) /\
    trace (run Scenario.killed9) =
      (calls ++ [EvIoWgWait;
                 EvWriteFile (filepath.Join [dir; "exitcode"]) (Itoa 137) mode0700])%list /\
    Forall (fun ev => ~ isWriteFile ev) calls /\
    option_map Z.of_int (NilZero.int_of_string (Itoa 137)) = Some 137 /\
    goroutine Scenario.killed9 TMain [] =
      (trace (run Scenario.killed9) ++ [EvExit 137])%list.
Proof.
  apply (C1_exit_code_recorded Scenario.killed9 43 0 137); reflexivity.
Defined.

(** ** C7 and C8: the runtime does not start, or does not launch *)

Section NoExitCodeFile.

Variable e : Env.



Lemma prelude_status dir : writesOn 3 (prelude dir) = [].
Proof. reflexivity. Qed.

Lemma command_status runtime dir cid :
  writesOn 3 (trace (commandOf e runtime dir cid)) = [].
Proof.
  apply writesOn_none with (P := isSocketSetup); [now intros ? ? |].
  apply command_calls.
Qed.

Lemma before_start_no_write runtime dir cid :
  Forall (fun ev => ~ isWriteFile ev)
         (prelude dir ++ trace (commandOf e runtime dir cid))%list.
Proof.
  apply Forall_app. split; [repeat constructor; auto |].
  apply Forall_impl with (P := isSocketSetup); [now intros [] |].
  apply command_calls.
Qed.

End NoExitCodeFile.





(** ** C3: reading the pid file in [run] *)

Definition isReadFileb (ev : Event) : bool :=
  match ev with EvReadFile _ => true | _ => false end.

Definition isSleepb (ev : Event) : bool :=
  match ev with EvSleep _ => true | _ => false end.

Lemma filter_none (P : Event -> Prop) (f : Event -> bool) tr :
  (forall ev, P ev -> f ev = false) -> Forall P tr -> filter f tr = [].
Proof.
  intros HP H. induction H as [| ev tr Hev _ IH]; [reflexivity |].
  cbn [filter]. now rewrite (HP ev Hev).
Qed.

(** C3, as stated, fails: in this run the front process ends with status 0
    and the pid file is not there yet; [run] reads it once, does not pause,
    and panics. *)
Lemma C3_counterexample :
  cmd_Start Scenario.noPidFile = inr 43 /\
  wait4_front Scenario.noPidFile = inr 0 /\
  WaitStatus.ExitStatus 0 = 0 /\
  result (run Scenario.noPidFile) = inl (Panic Scenario.missing) /\
  filter isReadFileb (trace (run Scenario.noPidFile)) = [EvReadFile "/state/pidfile"] /\
  filter isSleepb (trace (run Scenario.noPidFile)) = [].
Proof. repeat split; reflexivity. Qed.

(** C3, amended.  In a run in which the runtime was started and its front
    process ended with exit status 0, [run] reads the pid file exactly once
    and never pauses; when that one read does not give a pid, [run] panics
    with its error right after the read. *)
Theorem C3_pid_read_once (e : Env) (child status : Z)
    (argv : list string) (stdio : bool) :
  cmd_Start e = inr child ->
  wait4_front e = inr status ->
  WaitStatus.ExitStatus status = 0 ->
  In (EvStart argv stdio) (trace (run e)) ->
  exists dir,
    nth_error (flag_Args e) 2 = Some dir /\
    filter isReadFileb (trace (run e)) = [EvReadFile (filepath.Join [dir; "pidfile"])] /\
    filter isSleepb (trace (run e)) = [] /\
    (forall pid err,
       parsed (pidfile_main e) = (pid, Some err) ->
       result (run e) = inl (Panic err) /\
       exists calls,
         trace (run e) = (calls ++ [EvReadFile (filepath.Join [dir; "pidfile"])])%list).
Proof.
  intros Hstart Hfront Hzero Hin.
  destruct (run_reaches_start e argv stdio Hin)
    as (runtime & dir & cid & pipes & H1 & H2 & H3 & Hp & Hc).
  pose proof (run_started e _ _ _ _ _ _ H1 H2 H3 Hp Hc) as Hrun. cbn zeta in Hrun.
  exists dir. split; [exact H2 |].
  assert (Hcmd : forall f, (forall ev, isSocketSetup ev -> f ev = false) ->
            filter f (trace (commandOf e runtime dir cid)) = []).
  { intros f Hf. apply filter_none with (P := isSocketSetup); [exact Hf |].
    apply command_calls. }
  destruct (parsed (pidfile_main e)) as [containerPid [err |]] eqn:Hpid.
  - rewrite (supervise_no_pid e argv stdio dir _ child status containerPid err
               Hstart Hfront Hzero Hpid) in Hrun.
    cbn [trace result fst snd] in Hrun. rewrite Hrun. cbn [trace result fst snd].
    rewrite !filter_app, !Hcmd by now intros []. cbn [app].
    split; [reflexivity |]. split; [reflexivity |].
    intros pid err' [= _ <-]. split; [reflexivity |].
    eexists. rewrite !app_assoc. reflexivity.
  - rewrite (supervise_reaping e argv stdio dir _ child status containerPid
               Hstart Hfront Hzero Hpid) in Hrun.
    cbn zeta in Hrun. cbn [trace result fst snd] in Hrun.
    rewrite Hrun. cbn [trace result fst snd].
    assert (Hw : forall f, (forall ev, isReaperCall ev -> f ev = false) ->
              filter f (trace (waitForContainerToExit e dir containerPid (sigchld e))) = []).
    { intros f Hf. apply filter_none with (P := isReaperCall); [exact Hf |].
      apply waitForContainerToExit_calls. }
    rewrite !filter_app, !Hcmd by now intros []. cbn [app filter isReadFileb isSleepb].
    rewrite !Hw by now intros [].
    split; [reflexivity |]. split; [reflexivity |]. intros pid err [=].
Qed.

Lemma C3_pid_read_once_witness :
  exists dir,
    nth_error (flag_Args Scenario.noPidFile) 2 = Some dir /\
    filter isReadFileb (trace (run Scenario.noPidFile)) =
      [EvReadFile (filepath.Join [dir; "pidfile"])] /\
    filter isSleepb (trace (run Scenario.noPidFile)) = [] /\
    (forall pid err,
       parsed (pidfile_main Scenario.noPidFile) = (pid, Some err) ->
       result (run Scenario.noPidFile) = inl (Panic err) /\
       exists calls,
         trace (run Scenario.noPidFile) =
           (calls ++ [EvReadFile (filepath.Join [dir; "pidfile"])])%list).
Proof.
  apply (C3_pid_read_once Scenario.noPidFile 43 0
           (plainCommand Scenario.noPidFile "runc" "/proc/42/fd/4"
                         "/state/pidfile" "cake") true).
  - reflexivity.
  - reflexivity.
  - reflexivity.
  - vm_compute. do 8 right. left. reflexivity.
Defined.

(** ** C4, C5 and C6: what [run] does before it starts the runtime *)

Section BeforeStart.

Variable e : Env.

(** [run] when the pipes open. *)
Lemma run_opened runtime dir cid pipes :
  nth_error (flag_Args e) 1 = Some runtime ->
  nth_error (flag_Args e) 2 = Some dir ->
  nth_error (flag_Args e) 3 = Some cid ->
  openPipes e dir = (pipeEvents dir, inr pipes) ->
  run e =
  let c := commandOf e runtime dir cid in
  match result c with
  | inr (argv, stdio) =>
      let s := supervise e argv stdio dir (pidFileOf dir) in
      ((prelude dir ++ trace c ++ trace s)%list, result s)
  | inl stop => ((prelude dir ++ trace c)%list, inl stop)
  end.
Proof.
  intros H1 H2 H3 Hp. cbn zeta.
  destruct (result (commandOf e runtime dir cid)) as [stop | [argv stdio]] eqn:R.
  - rewrite (run_args _ _ _ _ H1 H2 H3), (prepare_opened _ _ _ _ _ Hp).
    cbn zeta. fold (pidFileOf dir). fold (commandOf e runtime dir cid).
    now rewrite R.
  - now rewrite (run_started _ _ _ _ _ _ _ H1 H2 H3 Hp R).
Qed.

(** The pipes open when no open fails for another reason than a missing
    file. *)
Lemma openPipes_opened dir :
  (forall path err, os_OpenFile e path <> OpenFailed err) ->
  exists pipes, openPipes e dir = (pipeEvents dir, inr pipes).
Proof.
  intros H. destruct (openPipes_cases e dir) as [Hp | (tr & msg & path & _ & _ & Hf)];
    [exact Hp | now elim (H path msg)].
Qed.

(** A socket is listened on only in the TTY branch, after the length of
    the directory was checked, in the directory [ioutil.TempDir] made. *)
Lemma command_listens runtime logFile pidFile cid path :
  In (EvListen path) (trace (command e runtime logFile pidFile cid)) ->
  flag_tty e = true /\
  len (flag_socketDirPath e) <= MaxSocketDirPathLength /\
  exists sockDir after,
    ioutil_TempDir e (flag_socketDirPath e) = inr sockDir /\
    path = filepath.Join [sockDir; "tty.sock"] /\
    trace (command e runtime logFile pidFile cid) =
    EvTempDir (flag_socketDirPath e) :: EvListen path :: after /\
    Forall (fun ev => exists captured, ev = EvGo TBroker captured) after.
Proof.
  unfold command. destruct (flag_tty e); [| intros []].
  destruct (Z.gtb_spec (len (flag_socketDirPath e)) MaxSocketDirPathLength);
    [intros [] |].
  unfold setupTTYSocket.
  destruct (ioutil_TempDir e (flag_socketDirPath e)) as [err | sockDir];
    [intros [[=] | []] |].
  destruct (net_Listen e _); go_unfold.
  - intros [[=] | [[= <-] | []]]. repeat split; try lia.
    exists sockDir, []. now repeat split.
  - intros [[=] | [[= <-] | [[=] | []]]]. repeat split; try lia.
    exists sockDir, [EvGo TBroker [pidFile; sockDir]]. repeat split.
    repeat constructor. now eexists.
Qed.

Lemma command_too_long runtime logFile pidFile cid :
  flag_tty e = true ->
  MaxSocketDirPathLength < len (flag_socketDirPath e) ->
  command e runtime logFile pidFile cid = ([], inl (Panic socketDirPathTooLong)).
Proof.
  intros Ht Hl. unfold command. rewrite Ht.
  destruct (Z.gtb_spec (len (flag_socketDirPath e)) MaxSocketDirPathLength);
    [reflexivity | lia].
Qed.

End BeforeStart.

(** C4, as stated, fails: with a terminal and a socket directory of 80
    bytes, the socket [run] listens on has a path of 99 bytes. *)
Lemma C4_counterexample :
  flag_tty Scenario.terminal80 = true /\
  len (flag_socketDirPath Scenario.terminal80) = 80 /\
  exists path,
    In (EvListen path) (trace (run Scenario.terminal80)) /\
    len path = 99 /\ 80 < len path.
Proof.
  split; [reflexivity |]. split; [reflexivity |].
  exists (Scenario.dir80 ++ "/123456789/tty.sock").
  split; [vm_compute; do 8 right; left; reflexivity |].
  split; [reflexivity | reflexivity].
Qed.

(** C4, amended.  When [run] listens on a console socket, [--tty] is set and
    the directory given by [--socket-dir-path] has at most 80 bytes; the
    socket is [tty.sock] in the directory that [ioutil.TempDir] made under
    it; and before [TempDir] and [Listen], [run] has only registered for
    signals, opened the pipes and written the sync byte. *)
Theorem C4_socket_dir_bounded (e : Env) (path : string) :
  In (EvListen path) (trace (run e)) ->
  flag_tty e = true /\
  len (flag_socketDirPath e) <= 80 /\
  exists dir sockDir after,
    nth_error (flag_Args e) 2 = Some dir /\
    ioutil_TempDir e (flag_socketDirPath e) = inr sockDir /\
    path = filepath.Join [sockDir; "tty.sock"] /\
    trace (run e) =
      (prelude dir ++ EvTempDir (flag_socketDirPath e) :: EvListen path :: after)%list.
Proof.
  intros Hin.
  destruct (nth_error (flag_Args e) 1) as [runtime |] eqn:H1;
    [| rewrite run_short in Hin by auto; destruct Hin].
  destruct (nth_error (flag_Args e) 2) as [dir |] eqn:H2;
    [| rewrite run_short in Hin by auto; destruct Hin].
  destruct (nth_error (flag_Args e) 3) as [cid |] eqn:H3;
    [| rewrite run_short in Hin by auto; destruct Hin].
  destruct (openPipes_cases e dir) as [[pipes Hp] | (tr & msg & p & Hp & Hopen & _)].
  - pose proof (run_opened e _ _ _ _ H1 H2 H3 Hp) as Hrun. cbn zeta in Hrun.
    assert (Hc : In (EvListen path) (trace (commandOf e runtime dir cid))).
    { destruct (result (commandOf e runtime dir cid)) as [stop | [argv stdio]];
        rewrite Hrun in Hin; cbn [trace fst] in Hin; rewrite !in_app_iff in Hin.
      - destruct Hin as [Hin | Hin]; [| exact Hin].
        cbn in Hin. repeat (destruct Hin as [Hin | Hin]; [discriminate |]). destruct Hin.
      - destruct Hin as [Hin | [Hin | Hin]]; [| exact Hin |].
        + cbn in Hin. repeat (destruct Hin as [Hin | Hin]; [discriminate |]). destruct Hin.
        + exfalso. destruct (supervise_calls e argv stdio dir (pidFileOf dir))
            as (tail & Htr & Htail).
          fold (trace (supervise e argv stdio dir (pidFileOf dir))) in Hin.
          rewrite Htr in Hin. destruct Hin as [Hin | [Hin | Hin]]; try discriminate.
          revert Hin. now apply Forall_not_In with (P := isAfterStart). }
    destruct (command_listens e _ _ _ _ _ Hc)
      as (Ht & Hl & sockDir & after & Htmp & Hpath & Htr & _).
    split; [exact Ht |]. split; [exact Hl |].
    fold (commandOf e runtime dir cid) in Htr.
    destruct (result (commandOf e runtime dir cid)) as [stop | [argv stdio]];
      rewrite Hrun; cbn [trace fst]; rewrite Htr.
    + exists dir, sockDir, after. now repeat split.
    + exists dir, sockDir,
        (after ++ trace (supervise e argv stdio dir (pidFileOf dir)))%list.
      now repeat split.
  - exfalso. revert Hin.
    rewrite (run_args _ _ _ _ H1 H2 H3), (prepare_failed _ _ _ _ _ _ Hp).
    cbn [bind trace fst]. intros [Hin | Hin]; [discriminate |].
    revert Hin. now apply Forall_not_In with (P := isOpenFile).
Qed.

Lemma C4_socket_dir_bounded_witness :
  flag_tty Scenario.terminal80 = true /\
  len (flag_socketDirPath Scenario.terminal80) <= 80 /\
  exists dir sockDir after,
    nth_error (flag_Args Scenario.terminal80) 2 = Some dir /\
    ioutil_TempDir Scenario.terminal80 (flag_socketDirPath Scenario.terminal80)
      = inr sockDir /\
    (Scenario.dir80 ++ "/123456789/tty.sock") = filepath.Join [sockDir; "tty.sock"] /\
    trace (run Scenario.terminal80) =
      (prelude dir ++ EvTempDir (flag_socketDirPath Scenario.terminal80)
         :: EvListen (Scenario.dir80 ++ "/123456789/tty.sock") :: after)%list.
Proof.
  apply (C4_socket_dir_bounded Scenario.terminal80
           (Scenario.dir80 ++ "/123456789/tty.sock")).
  vm_compute. do 8 right. left. reflexivity.
Defined.

(** C5, as stated, fails: with [--tty] and a socket directory of 81 bytes
    [run] panics, but by then it has opened the five pipes and written the
    sync byte on descriptor 5. *)
Lemma C5_counterexample :
  flag_tty Scenario.terminal81 = true /\
  80 < len (flag_socketDirPath Scenario.terminal81) /\
  result (run Scenario.terminal81) = inl (Panic socketDirPathTooLong) /\
  In (EvOpenFile "/state/stdin" O_RDONLY mode0600) (trace (run Scenario.terminal81)) /\
  In (EvWrite 5 [0]) (trace (run Scenario.terminal81)).
Proof.
  split; [reflexivity |]. split; [reflexivity |]. split; [reflexivity |].
  split; vm_compute; [do 1 right | do 6 right]; left; reflexivity.
Qed.

(** The calls [run] makes before the [if *tty] statement. *)
Definition isPreludeCall (ev : Event) : Prop :=
  match ev with
  | EvSignalNotify | EvOpenFile _ _ _ => True
  | EvWrite fd data => fd = 5 /\ data = [0]
  | _ => False
  end.

(** C5, amended.  With [--tty] and a socket directory longer than 80 bytes
    [run] panics, and all it has done by then is to register for signals,
    open pipes and write the sync byte: no socket directory or socket is
    made, no goroutine is started, the runtime is not started and nothing is
    written on descriptor 3.  When the arguments are there and no open
    fails, the five pipes have been opened and the sync byte written. *)
Theorem C5_abort_after_sync (e : Env) :
  flag_tty e = true ->
  80 < len (flag_socketDirPath e) ->
  (exists msg, result (run e) = inl (Panic msg)) /\
  Forall isPreludeCall (trace (run e)) /\
  (forall runtime dir cid,
     nth_error (flag_Args e) 1 = Some runtime ->
     nth_error (flag_Args e) 2 = Some dir ->
     nth_error (flag_Args e) 3 = Some cid ->
     (forall path err, os_OpenFile e path <> OpenFailed err) ->
     run e = (prelude dir, inl (Panic socketDirPathTooLong))).
Proof.
  intros Ht Hl.
  assert (Hgood : forall runtime dir cid pipes,
            nth_error (flag_Args e) 1 = Some runtime ->
            nth_error (flag_Args e) 2 = Some dir ->
            nth_error (flag_Args e) 3 = Some cid ->
            openPipes e dir = (pipeEvents dir, inr pipes) ->
            run e = (prelude dir, inl (Panic socketDirPathTooLong))).
  { intros runtime dir cid pipes H1 H2 H3 Hp.
    rewrite (run_opened e _ _ _ _ H1 H2 H3 Hp). cbn zeta. unfold commandOf.
    rewrite (command_too_long e _ _ _ _ Ht Hl). cbn [result trace fst snd].
    now rewrite app_nil_r. }
  split; [| split].
  - destruct (nth_error (flag_Args e) 1) as [runtime |] eqn:H1;
      [| rewrite run_short by auto; now eexists].
    destruct (nth_error (flag_Args e) 2) as [dir |] eqn:H2;
      [| rewrite run_short by auto; now eexists].
    destruct (nth_error (flag_Args e) 3) as [cid |] eqn:H3;
      [| rewrite run_short by auto; now eexists].
    destruct (openPipes_cases e dir) as [[pipes Hp] | (tr & msg & p & Hp & _)].
    + rewrite (Hgood _ _ _ _ eq_refl eq_refl eq_refl Hp). now eexists.
    + rewrite (run_args _ _ _ _ H1 H2 H3), (prepare_failed _ _ _ _ _ _ Hp).
      now eexists.
  - destruct (nth_error (flag_Args e) 1) as [runtime |] eqn:H1;
      [| rewrite run_short by auto; constructor].
    destruct (nth_error (flag_Args e) 2) as [dir |] eqn:H2;
      [| rewrite run_short by auto; constructor].
    destruct (nth_error (flag_Args e) 3) as [cid |] eqn:H3;
      [| rewrite run_short by auto; constructor].
    destruct (openPipes_cases e dir) as [[pipes Hp] | (tr & msg & p & Hp & Hopen & _)].
    + rewrite (Hgood _ _ _ _ eq_refl eq_refl eq_refl Hp). cbn [trace fst].
      repeat first [apply Forall_nil | apply Forall_cons; [cbn; auto |]].
    + rewrite (run_args _ _ _ _ H1 H2 H3), (prepare_failed _ _ _ _ _ _ Hp).
      cbn [bind trace fst]. constructor; [exact I |].
      apply Forall_impl with (P := isOpenFile); [now intros [] | exact Hopen].
  - intros runtime dir cid H1 H2 H3 Hopen.
    destruct (openPipes_opened e dir Hopen) as [pipes Hp].
    now apply (Hgood runtime dir cid pipes).
Qed.

Lemma C5_abort_after_sync_witness :
  (exists msg, result (run Scenario.terminal81) = inl (Panic msg)) /\
  Forall isPreludeCall (trace (run Scenario.terminal81)) /\
  (forall runtime dir cid,
     nth_error (flag_Args Scenario.terminal81) 1 = Some runtime ->
     nth_error (flag_Args Scenario.terminal81) 2 = Some dir ->
     nth_error (flag_Args Scenario.terminal81) 3 = Some cid ->
     (forall path err, os_OpenFile Scenario.terminal81 path <> OpenFailed err) ->
     run Scenario.terminal81 = (prelude dir, inl (Panic socketDirPathTooLong))).
Proof.
  apply (C5_abort_after_sync Scenario.terminal81); reflexivity.
Defined.

(** C6, as stated, fails: the first argument after the flags is ["exec"],
    yet the command that is started is ["runc"], the second one; the pipes
    are opened in the third one and the container id is the fourth one.
    With the runtime, the directory and the container id as the only three
    arguments, [run] panics at once. *)
Lemma C6_counterexample :
  flag_Args Scenario.exits7 = ["exec"; "runc"; "/state"; "cake"] /\
  In (EvStart ["runc"; "-debug"; "-log"; "/proc/42/fd/4"; "exec"; "-p";
               "/proc/42/fd/0"; "-d"; "-pid-file"; "/state/pidfile"; "cake"] true)
     (trace (run Scenario.exits7)) /\
  In (EvOpenFile "/state/stdin" O_RDONLY mode0600) (trace (run Scenario.exits7)) /\
  nth_error (flag_Args Scenario.exits7) 0 <> Some "runc" /\
  nth_error (flag_Args Scenario.exits7) 1 <> Some "/state" /\
  nth_error (flag_Args Scenario.exits7) 2 <> Some "cake" /\
  run (withArgs ["runc"; "/state"; "cake"] Scenario.exits7) =
    ([], inl (Panic "runtime error: index out of range")).
Proof.
  split; [reflexivity |].
  split; [vm_compute; do 8 right; left; reflexivity |].
  split; [vm_compute; do 1 right; left; reflexivity |].
  repeat split; try discriminate.
Qed.

(** C6, amended.  When [run] starts a command, the arguments after the flags
    hold at least four strings; the command is the one at index 1, the
    second; the pipes are opened and the pid file is expected in the
    directory at index 2, the third; and the last argument of the command,
    the container id, is the one at index 3, the fourth.  The string at
    index 0 is not used. *)
Theorem C6_positional_arguments (e : Env) (argv : list string) (stdio : bool) :
  In (EvStart argv stdio) (trace (run e)) ->
  exists runtime dir cid,
    nth_error (flag_Args e) 1 = Some runtime /\
    nth_error (flag_Args e) 2 = Some dir /\
    nth_error (flag_Args e) 3 = Some cid /\
    hd_error argv = Some runtime /\
    last argv "" = cid /\
    In (filepath.Join [dir; "pidfile"]) argv /\
    In (EvOpenFile (filepath.Join [dir; "stdin"]) O_RDONLY mode0600) (trace (run e)) /\
    forall first, run (withArgs (first :: tl (flag_Args e)) e) = run e.
Proof.
  intros Hin.
  destruct (run_reaches_start e argv stdio Hin)
    as (runtime & dir & cid & pipes & H1 & H2 & H3 & Hp & Hc).
  exists runtime, dir, cid. do 3 (split; [assumption |]).
  assert (Hargv : hd_error argv = Some runtime /\ last argv "" = cid /\
                  In (filepath.Join [dir; "pidfile"]) argv).
  { destruct (command_result e _ _ _ _ _ _ Hc)
      as [(_ & _ & ->) | (_ & _ & _ & sockDir & _ & ->)];
      (split; [reflexivity |]; split; [reflexivity |]);
      unfold pidFileOf; cbn; tauto. }
  destruct Hargv as (Hhd & Hlast & Hpid).
  do 3 (split; [assumption |]). split.
  - rewrite (run_started e _ _ _ _ _ _ H1 H2 H3 Hp Hc). cbn zeta. cbn [trace fst].
    apply in_app_iff. left. right. now left.
  - intros first. unfold run, withArgs. cbn [flag_Args].
    destruct (flag_Args e) as [| x rest]; [discriminate |]. reflexivity.
Qed.

Lemma C6_positional_arguments_witness :
  exists runtime dir cid,
    nth_error (flag_Args Scenario.exits7) 1 = Some runtime /\
    nth_error (flag_Args Scenario.exits7) 2 = Some dir /\
    nth_error (flag_Args Scenario.exits7) 3 = Some cid /\
    hd_error (plainCommand Scenario.exits7 "runc" "/proc/42/fd/4"
                           "/state/pidfile" "cake") = Some runtime /\
    last (plainCommand Scenario.exits7 "runc" "/proc/42/fd/4"
                       "/state/pidfile" "cake") "" = cid /\
    In (filepath.Join [dir; "pidfile"])
       (plainCommand Scenario.exits7 "runc" "/proc/42/fd/4"
                     "/state/pidfile" "cake") /\
    In (EvOpenFile (filepath.Join [dir; "stdin"]) O_RDONLY mode0600)
       (trace (run Scenario.exits7)) /\
    forall first,
      run (withArgs (first :: tl (flag_Args Scenario.exits7)) Scenario.exits7) =
      run Scenario.exits7.
Proof.
  apply (C6_positional_arguments Scenario.exits7
           (plainCommand Scenario.exits7 "runc" "/proc/42/fd/4"
                         "/state/pidfile" "cake") true).
  vm_compute. do 8 right. left. reflexivity.
Defined.

(** ** C9: failures of the broker *)

Definition isKillb (ev : Event) : bool :=
  match ev with EvKill _ _ => true | _ => false end.

(** The failures of the broker at or after [Accept], each with its error
    and with the calls the broker has made when its deferred function
    runs. *)
Inductive brokerFails (e : Env) : error -> list Event -> Prop :=
| AcceptFails err :
    ln_Accept e = Fails err ->
    brokerFails e err [EvAccept]
| FileFails err :
    ln_Accept e = Succeeds -> conn_isUnixConn e = true ->
    unixconn_File e = Some err ->
    brokerFails e err [EvAccept; EvListenerClose; EvConnFile; EvConnClose]
| RecvFdFails err :
    ln_Accept e = Succeeds -> conn_isUnixConn e = true ->
    unixconn_File e = None -> cmsg_RecvFd e = Fails err ->
    brokerFails e err [EvAccept; EvListenerClose; EvConnFile; EvRecvFd;
                       EvSocketClose; EvConnClose].

(** C9, as stated, fails: here [Accept] fails and the pid file never
    appears; the broker, which [run] has started, reads the pid file 21
    times, sends no signal, and panics. *)
Lemma C9_counterexample :
  In (EvGo TBroker ["/state/pidfile"; "/socks/123456789"])
     (trace (run Scenario.acceptFailsNoPid)) /\
  brokerFails Scenario.acceptFailsNoPid "accept: too many open files" [EvAccept] /\
  filter isKillb (goroutine Scenario.acceptFailsNoPid TBroker
                            ["/state/pidfile"; "/socks/123456789"]) = [] /\
  List.length (filter isReadFileb
                 (goroutine Scenario.acceptFailsNoPid TBroker
                            ["/state/pidfile"; "/socks/123456789"])) = 21%nat /\
  last (goroutine Scenario.acceptFailsNoPid TBroker
                  ["/state/pidfile"; "/socks/123456789"]) EvAccept =
    EvPanic "accept: too many open files".
Proof.
  split; [vm_compute; do 9 right; left; reflexivity |].
  split; [now constructor |]. repeat split; reflexivity.
Qed.

(** C9, amended.  When [Accept], [File] or [RecvFd] fails in the broker, the
    deferred function reads the pid file, with a pause of 500 ms after a
    read that fails and at most 21 reads; if a read gives a pid it sends
    SIGKILL to it; and in both cases the broker then panics with the error
    of the failure. *)
Theorem C9_kill_when_pid_known (e : Env) (pidFile sockDir : string)
    (err : error) (steps : list Event) :
  brokerFails e err steps ->
  (forall k pid,
     (k <= 20)%nat ->
     (forall j, (j < k)%nat -> snd (parsed (pidfile_kill e j)) <> None) ->
     parsed (pidfile_kill e k) = (pid, None) ->
     goroutine e TBroker [pidFile; sockDir] =
     (steps ++ failedReads pidFile k
            ++ [EvReadFile pidFile; EvKill pid SIGKILL; EvPanic err])%list) /\
  ((forall j, (j <= 20)%nat -> snd (parsed (pidfile_kill e j)) <> None) ->
   goroutine e TBroker [pidFile; sockDir] =
   (steps ++ failedReads pidFile 20 ++ [EvReadFile pidFile; EvPanic err])%list).
Proof.
  intros Hfail.
  assert (Hb : broker e pidFile sockDir =
               ((steps ++ trace (killProcess e pidFile))%list, inl (Panic err))).
  { destruct Hfail as [err Ha | err Ha Hu Hf | err Ha Hu Hf Hr].
    - now rewrite (broker_accept_fails e pidFile sockDir err Ha).
    - now rewrite (broker_file_fails e pidFile sockDir err Ha Hu Hf).
    - now rewrite (broker_recv_fails e pidFile sockDir err Ha Hu Hf Hr). }
  cbn [goroutine]. unfold actions. rewrite Hb. cbn [trace result fst snd]. split.
  - intros k pid Hk Hbefore Hok.
    rewrite (killProcess_found e pidFile k pid Hk Hbefore Hok). cbn [trace fst].
    rewrite <- !app_assoc. reflexivity.
  - intros Hnever. rewrite (killProcess_missing e pidFile Hnever). cbn [trace fst].
    rewrite <- !app_assoc. reflexivity.
Qed.

Lemma C9_kill_when_pid_known_witness :
  (forall k pid,
     (k <= 20)%nat ->
     (forall j, (j < k)%nat ->
        snd (parsed (pidfile_kill Scenario.recvFailsPidLate j)) <> None) ->
     parsed (pidfile_kill Scenario.recvFailsPidLate k) = (pid, None) ->
     goroutine Scenario.recvFailsPidLate TBroker
               ["/state/pidfile"; "/socks/123456789"] =
     ([EvAccept; EvListenerClose; EvConnFile; EvRecvFd; EvSocketClose; EvConnClose]
        ++ failedReads "/state/pidfile" k
        ++ [EvReadFile "/state/pidfile"; EvKill pid SIGKILL;
            EvPanic "recvfd: no fd received"])%list) /\
  ((forall j, (j <= 20)%nat ->
      snd (parsed (pidfile_kill Scenario.recvFailsPidLate j)) <> None) ->
   goroutine Scenario.recvFailsPidLate TBroker
             ["/state/pidfile"; "/socks/123456789"] =
   ([EvAccept; EvListenerClose; EvConnFile; EvRecvFd; EvSocketClose; EvConnClose]
      ++ failedReads "/state/pidfile" 20
      ++ [EvReadFile "/state/pidfile"; EvPanic "recvfd: no fd received"])%list).
Proof.
  apply (C9_kill_when_pid_known Scenario.recvFailsPidLate
           "/state/pidfile" "/socks/123456789" "recvfd: no fd received").
  apply RecvFdFails; reflexivity.
Defined.

(** In the world of the witness the pid file is read three times and the
    container process 77 is killed. *)
Example broker_kills_after_three_reads :
  goroutine Scenario.recvFailsPidLate TBroker ["/state/pidfile"; "/socks/123456789"] =
  [EvAccept; EvListenerClose; EvConnFile; EvRecvFd; EvSocketClose; EvConnClose;
   EvReadFile "/state/pidfile"; EvSleep 500;
   EvReadFile "/state/pidfile"; EvSleep 500;
   EvReadFile "/state/pidfile"; EvKill 77 SIGKILL;
   EvPanic "recvfd: no fd received"].
Proof. reflexivity. Qed.

(** ** C10: a run without a terminal *)

Section Plain.

Variable e : Env.
Hypothesis plain : flag_tty e = false.

(** Without [--tty] only [main] runs: the history is what [main] has done
    so far, and the counter stays at zero. *)
Lemma plain_process s :
  reachable e s ->
  exists done,
    goroutine e TMain [] = (done ++ pending s TMain)%list /\
    history s = List.rev (map (pair TMain) done) /\
    ioWg s = 0 /\
    (forall t, t <> TMain -> pending s t = []).
Proof.
  revert s.
  apply (reachable_ind e (fun s =>
    exists done,
      goroutine e TMain [] = (done ++ pending s TMain)%list /\
      history s = List.rev (map (pair TMain) done) /\
      ioWg s = 0 /\
      (forall t, t <> TMain -> pending s t = []))).
  - exists []. repeat split. intros t Ht. unfold init, update. cbn [pending].
    destruct t; try reflexivity. now elim Ht.
  - intros s t s' _ (done & Hb & Hh & Hw & Hidle) Hs.
    destruct (step_inv _ _ _ _ Hs) as (ev & rest & _ & Hp & _ & ->).
    assert (t = TMain) as ->.
    { destruct t; try reflexivity; rewrite Hidle in Hp; discriminate. }
    rewrite Hp in Hb.
    assert (Hm : isMainCall false ev).
    { pose proof (goroutine_may e TMain [] ev) as Hm. rewrite plain in Hm.
      apply Hm. rewrite Hb. apply in_app_iff. right. now left. }
    exists (done ++ [ev])%list.
    assert (Hrev : (TMain, ev) :: history s =
                   List.rev (map (pair TMain) (done ++ [ev])))
      by (rewrite map_app, rev_app_distr, Hh; reflexivity).
    assert (Hidle' : forall t, t <> TMain -> update (pending s) TMain rest t = [])
      by (intros t Ht; unfold update; destruct t; try (now apply Hidle); now elim Ht).
    destruct ev; cbn in Hm; try (now elim Hm); try discriminate;
      try (destruct Hm; discriminate);
      cbn [effect pending history ioWg];
      (split; [now rewrite <- app_assoc |]);
      (split; [exact Hrev |]); (split; [exact Hw | exact Hidle']).
Qed.

End Plain.

(** C10.  In a run without [--tty], in every state of the process: the
    counter of [ioWg] is zero, every call so far was made by [main], and
    none is [ioWg.Add] or a go statement; when [main] is at [ioWg.Wait] the
    call returns at once; and a write of a file comes in the history right
    after [ioWg.Wait], which comes right after the [Wait4] that reaped. *)
Theorem C10_no_drain_without_tty (e : Env) (s : Sys) :
  flag_tty e = false ->
  reachable e s ->
  ioWg s = 0 /\
  (forall t ev, In (t, ev) (history s) ->
     t = TMain /\ (forall delta, ev <> EvIoWgAdd delta) /\
     (forall t' captured, ev <> EvGo t' captured)) /\
  (forall rest, halted s = false -> pending s TMain = EvIoWgWait :: rest ->
     exists s', step e TMain s = Some s') /\
  (forall later path data perm earlier,
     history s = (later ++ (TMain, EvWriteFile path data perm) :: earlier)%list ->
     exists before,
       earlier = (TMain, EvIoWgWait) :: (TMain, EvWait4 (-1) WNOHANG) :: before).
Proof.
  intros plain Hr.
  destruct (plain_process e plain s Hr) as (done & Hb & Hh & Hw & Hidle).
  split; [exact Hw |]. split; [| split].
  - intros t ev Hin. rewrite Hh, <- in_rev, in_map_iff in Hin.
    destruct Hin as (ev' & [= <- <-] & Hin). split; [reflexivity |].
    assert (Hm : isMainCall false ev').
    { pose proof (goroutine_may e TMain [] ev') as Hm. rewrite plain in Hm.
      apply Hm. rewrite Hb. apply in_app_iff. now left. }
    split; [intros delta -> | intros t' captured ->]; cbn in Hm;
      [exact Hm | destruct Hm; discriminate].
  - intros rest Hh' Hp. unfold step. rewrite Hh', Hp. cbn [enabled].
    rewrite Hw. cbn. now eexists.
  - intros later path data perm earlier Hsplit.
    destruct (reachable_split e s later _ earlier Hr Hsplit)
      as (s0 & rest & Hr0 & Hh0 & Hp0 & _).
    cbn [fst snd] in Hp0.
    destruct (plain_process e plain s0 Hr0) as (done0 & Hb0 & Hhist0 & _ & _).
    rewrite Hp0 in Hb0. destruct (main_guarded e []) as [Hg Hg'].
    destruct (guarded_before _ _ _ _ _ _ _ Hg Hb0 eq_refl)
      as [[_ [=]] | (done1 & y & -> & Hy)].
    destruct y; try discriminate.
    rewrite <- app_assoc in Hb0. cbn [app] in Hb0.
    destruct (guarded_before _ _ _ _ _ _ _ Hg' Hb0 eq_refl)
      as [[_ [=]] | (done2 & y & -> & Hy')].
    destruct y; try discriminate. cbn [isReapb] in Hy'.
    apply andb_true_iff in Hy' as [Hpid Hopt].
    apply Z.eqb_eq in Hpid, Hopt. subst pid options.
    exists (List.rev (map (pair TMain) done2)).
    rewrite <- Hh0, Hhist0, !map_app, !rev_app_distr. reflexivity.
Qed.

(** The process of [Scenario.exits7] after [main] has run to its end. *)
Definition exits7_end : Sys :=
  match exec Scenario.exits7 (repeat TMain 22) (init Scenario.exits7) with
  | Some s => s
  | None => init Scenario.exits7
  end.

Lemma C10_no_drain_without_tty_witness :
  ioWg exits7_end = 0 /\
  (forall t ev, In (t, ev) (history exits7_end) ->
     t = TMain /\ (forall delta, ev <> EvIoWgAdd delta) /\
     (forall t' captured, ev <> EvGo t' captured)) /\
  (forall rest, halted exits7_end = false ->
     pending exits7_end TMain = EvIoWgWait :: rest ->
     exists s', step Scenario.exits7 TMain exits7_end = Some s') /\
  (forall later path data perm earlier,
     history exits7_end =
       (later ++ (TMain, EvWriteFile path data perm) :: earlier)%list ->
     exists before,
       earlier = (TMain, EvIoWgWait) :: (TMain, EvWait4 (-1) WNOHANG) :: before).
Proof.
  apply (C10_no_drain_without_tty Scenario.exits7 exits7_end).
  - reflexivity.
  - exists (repeat TMain 22). vm_compute. reflexivity.
Defined.

(** In that run the file is written and the process has ended. *)
Example exits7_end_history :
  halted exits7_end = true /\
  firstn 4 (history exits7_end) =
  [(TMain, EvExit 7); (TMain, EvWriteFile "/state/exitcode" "7" mode0700);
   (TMain, EvIoWgWait); (TMain, EvWait4 (-1) WNOHANG)].
Proof. split; reflexivity. Qed.

(** ** C2: the write of the exit code and the pump *)

Definition isCopyOutb (call : Tid * Event) : bool :=
  match snd call with EvCopyMasterToStdout => true | _ => false end.

(** C2, as stated, fails: in this run without a terminal the exitcode file
    is written and the process ends, and no pump from the master to stdout
    has seen the end of its input: there is none. *)
Lemma C2_counterexample :
  reachable Scenario.exits7 exits7_end /\
  halted exits7_end = true /\
  In (TMain, EvWriteFile "/state/exitcode" "7" mode0700) (history exits7_end) /\
  filter isCopyOutb (history exits7_end) = [].
Proof.
  split; [exists (repeat TMain 22); vm_compute; reflexivity |].
  split; [reflexivity |].
  split; [vm_compute; right; left; reflexivity | reflexivity].
Qed.

Section Drain.

Variable e : Env.

(** Every addition to the counter is by one, and [Done] is called by the
    pump from the master to stdout only. *)
Lemma add_is_one s t delta :
  reachable e s -> In (t, EvIoWgAdd delta) (history s) -> t = TBroker /\ delta = 1.
Proof.
  intros Hr Hin. destruct (reachable_source e s Hr _ _ Hin) as [captured Hb].
  pose proof (goroutine_may e _ _ _ Hb) as Hm.
  destruct t; cbn in Hm;
    try (now elim Hm); try (destruct Hm; discriminate); try discriminate;
    now split.
Qed.

Lemma done_by_pump t captured :
  In EvIoWgDone (goroutine e t captured) -> t = TStdoutPump.
Proof.
  intros Hb. pose proof (goroutine_may e _ _ _ Hb) as Hm.
  destruct t; cbn in Hm; try (now elim Hm); try discriminate; reflexivity.
Qed.

(** When the pump calls [Done] its copy has returned. *)
Lemma done_after_copy s later t earlier :
  reachable e s ->
  history s = (later ++ (t, EvIoWgDone) :: earlier)%list ->
  t = TStdoutPump /\ In (TStdoutPump, EvCopyMasterToStdout) earlier.
Proof.
  intros Hr Hh.
  destruct (reachable_split e s later _ earlier Hr Hh)
    as (s0 & rest & Hr0 & Hh0 & Hp0 & _).
  cbn [fst snd] in Hp0.
  destruct (reachable_inOrder e s0 Hr0 t) as (captured & done & Hb & Hd).
  rewrite Hp0 in Hb, Hd.
  assert (t = TStdoutPump) as ->.
  { apply (done_by_pump t captured). rewrite Hb. apply in_app_iff. right. now left. }
  split; [reflexivity |]. rewrite <- Hh0. apply Hd; [discriminate |].
  destruct (stdoutPump_body e captured) as [Hbody | Hbody]; rewrite Hbody in Hb.
  - now destruct done.
  - destruct done as [| x [| y done]]; try discriminate.
    + injection Hb as -> _. now left.
    + injection Hb as _ _ Hb. now destruct done.
Qed.

End Drain.

(** C2, amended.  In every state of the process, a write of a file by
    [main] comes after [main] has returned from [ioWg.Wait]; when that call
    returned the counter was zero; and if a pump had been registered with
    [ioWg.Add] by then, the pump from the master to stdout had returned from
    its copy and called [Done] by then, so before the write. *)
Theorem C2_wait_before_record (e : Env) (s : Sys)
    (later earlier : list (Tid * Event)) (path data : string) (perm : Z) :
  reachable e s ->
  history s = (later ++ (TMain, EvWriteFile path data perm) :: earlier)%list ->
  exists between before,
    earlier = (between ++ (TMain, EvIoWgWait) :: before)%list /\
    balance before = 0 /\
    (forall t delta,
       In (t, EvIoWgAdd delta) before ->
       In (TStdoutPump, EvCopyMasterToStdout) before /\
       In (TStdoutPump, EvIoWgDone) before).
Proof.
  intros Hr Hh.
  destruct (reachable_split e s later _ earlier Hr Hh)
    as (s0 & rest & Hr0 & Hh0 & Hp0 & _).
  cbn [fst snd] in Hp0.
  destruct (reachable_inOrder e s0 Hr0 TMain) as (captured & done & Hb & Hd).
  rewrite Hp0 in Hb, Hd.
  destruct (main_guarded e captured) as [Hg _].
  destruct (guarded_before _ _ _ _ _ _ _ Hg Hb eq_refl)
    as [[_ [=]] | (done1 & y & -> & Hy)].
  destruct y; try discriminate.
  assert (Hwait : In (TMain, EvIoWgWait) earlier).
  { rewrite <- Hh0. apply Hd; [discriminate |]. apply in_app_iff. right. now left. }
  destruct (in_split _ _ Hwait) as (between & before & ->).
  exists between, before. split; [reflexivity |].
  assert (Hh' : history s =
                ((later ++ (TMain, EvWriteFile path data perm) :: between)
                   ++ (TMain, EvIoWgWait) :: before)%list)
    by (rewrite Hh, <- app_assoc; reflexivity).
  pose proof (reachable_wait e s _ _ _ Hr Hh') as Hzero.
  split; [exact Hzero |].
  intros t delta Hadd.
  assert (Hones : forall t delta, In (t, EvIoWgAdd delta) before -> delta = 1).
  { intros t' d Hin. apply (add_is_one e s t' d Hr).
    rewrite Hh'. apply in_app_iff. right. now right. }
  destruct (balance_zero_done before t delta Hones Hzero Hadd)
    as (t' & l2 & l1 & ->).
  assert (Hh'' : history s =
                 (((later ++ (TMain, EvWriteFile path data perm) :: between)
                     ++ (TMain, EvIoWgWait) :: l2)
                    ++ (t', EvIoWgDone) :: l1)%list)
    by (rewrite Hh', <- !app_assoc; reflexivity).
  destruct (done_after_copy e s _ _ _ Hr Hh'') as [-> Hcopy].
  split; apply in_app_iff; right; [now right | now left].
Qed.

(** The process of [Scenario.terminal] in which [main] runs up to
    [ioWg.Wait], then the broker and the pump from the master to stdout run
    to their ends, then [main] goes on to its end. *)
Definition drained : Sys :=
  match exec Scenario.terminal
             (repeat TMain 18 ++ repeat TBroker 11 ++ repeat TStdoutPump 2
                ++ repeat TMain 3)
             (init Scenario.terminal) with
  | Some s => s
  | None => init Scenario.terminal
  end.

Lemma C2_wait_before_record_witness :
  exists between before,
    tl (tl (history drained)) = (between ++ (TMain, EvIoWgWait) :: before)%list /\
    balance before = 0 /\
    (forall t delta,
       In (t, EvIoWgAdd delta) before ->
       In (TStdoutPump, EvCopyMasterToStdout) before /\
       In (TStdoutPump, EvIoWgDone) before).
Proof.
  apply (C2_wait_before_record Scenario.terminal drained
           [(TMain, EvExit 0)] (tl (tl (history drained)))
           "/state/exitcode" "0" mode0700).
  - exists (repeat TMain 18 ++ repeat TBroker 11 ++ repeat TStdoutPump 2
              ++ repeat TMain 3)%list.
    vm_compute. reflexivity.
  - reflexivity.
Defined.

(** In that run the copy returns before the wait, and the wait before the
    write. *)
Example drained_history :
  firstn 5 (history drained) =
  [(TMain, EvExit 0); (TMain, EvWriteFile "/state/exitcode" "0" mode0700);
   (TMain, EvIoWgWait); (TStdoutPump, EvIoWgDone);
   (TStdoutPump, EvCopyMasterToStdout)].
Proof. reflexivity. Qed.

(** While the counter is not zero [main] cannot go on: after the broker has
    registered the pump and before the pump is done, [ioWg.Wait] does not
    return. *)
Example wait_blocks_while_pump_runs :
  exec Scenario.terminal
       (repeat TMain 18 ++ repeat TBroker 11 ++ [TStdoutPump; TMain])
       (init Scenario.terminal) = None /\
  option_map ioWg
    (exec Scenario.terminal
          (repeat TMain 18 ++ repeat TBroker 11 ++ [TStdoutPump])
          (init Scenario.terminal)) = Some 1.
Proof. split; reflexivity. Qed.

(** The wait covers only a pump that is registered when [main] calls it: in
    this interleaving the broker has received the master but has not yet
    called [ioWg.Add] when [main] reaps the container, and the file is
    written before the pump has started. *)
Example write_before_pump_registered :
  option_map (fun s => (halted s, firstn 4 (history s)))
    (exec Scenario.terminal
          (repeat TMain 12 ++ repeat TBroker 5 ++ repeat TMain 9)
          (init Scenario.terminal)) =
  Some (true,
        [(TMain, EvExit 0); (TMain, EvWriteFile "/state/exitcode" "0" mode0700);
         (TMain, EvIoWgWait); (TMain, EvWait4 (-1) WNOHANG)]).
Proof. reflexivity. Qed.

(** * Further properties of the program *)

(** The world [e] with other answers to the opens, to [TempDir], to [Listen]
    and to the write of the file. *)
Definition amend (e : Env) (open : string -> OpenResult)
    (tempDir : string -> error + string) (listen : string -> option error)
    (writeFile : option error) : Env :=
  {| flag_tty := flag_tty e;
     flag_socketDirPath := flag_socketDirPath e;
     flag_Args := flag_Args e;
     os_Getpid := os_Getpid e;
     os_OpenFile := open;
     ioutil_TempDir := tempDir;
     net_Listen := listen;
     cmd_Start := cmd_Start e;
     wait4_front := wait4_front e;
     pidfile_main := pidfile_main e;
     sigchld := sigchld e;
     ioutil_WriteFile := writeFile;
     ln_Accept := ln_Accept e;
     conn_isUnixConn := conn_isUnixConn e;
     unixconn_File := unixconn_File e;
     cmsg_RecvFd := cmsg_RecvFd e;
     pidfile_kill := pidfile_kill e;
     copy_master_to_stdout := copy_master_to_stdout e;
     copy_stdin_to_master := copy_stdin_to_master e;
     winsz_events := winsz_events e |}.

(** ** The pipes *)

(** The names of the pipes, in the order [openPipes] opens them. *)
Definition pipeNames : list string := ["stdin"; "stdout"; "stderr"; "winsz"; "exit"].

(** Whether [openFifo] gets a file for the path. *)
Definition present (e : Env) (path : string) : bool :=
  match os_OpenFile e path with Opened => true | _ => false end.

Section Pipes.

Variable e : Env.

Lemma openFifo_present path flags :
  (forall err, os_OpenFile e path <> OpenFailed err) ->
  openFifo e path flags = ([EvOpenFile path flags mode0600], inr (present e path)).
Proof.
  intros H. unfold openFifo, present.
  destruct (os_OpenFile e path) as [| | err]; try reflexivity. now elim (H err).
Qed.

Lemma openFifo_failed path flags msg :
  os_OpenFile e path = OpenFailed msg ->
  openFifo e path flags = ([EvOpenFile path flags mode0600], inl (Panic msg)).
Proof. intros H. unfold openFifo. now rewrite H. Qed.

(** [openPipes] panics at the first open that fails for another reason than
    a missing file, and opens nothing after it. *)
Lemma openPipes_first_failure dir k name msg :
  nth_error pipeNames k = Some name ->
  os_OpenFile e (filepath.Join [dir; name]) = OpenFailed msg ->
  (forall j name' err, (j < k)%nat -> nth_error pipeNames j = Some name' ->
     os_OpenFile e (filepath.Join [dir; name']) <> OpenFailed err) ->
  openPipes e dir = (firstn (S k) (pipeEvents dir), inl (Panic msg)).
Proof.
  intros Hk Hfail Hbefore.
  assert (Hok : forall j name', (j < k)%nat -> nth_error pipeNames j = Some name' ->
            forall flags, openFifo e (filepath.Join [dir; name']) flags =
              ([EvOpenFile (filepath.Join [dir; name']) flags mode0600],
               inr (present e (filepath.Join [dir; name'])))).
  { intros j name' Hj Hn flags. apply openFifo_present. intros err.
    now apply (Hbefore j name' err). }
  unfold openPipes.
  do 5 (destruct k as [| k];
        [ injection Hk as <-;
          rewrite ?(Hok 0%nat "stdin") by (try lia; reflexivity);
          rewrite ?(Hok 1%nat "stdout") by (try lia; reflexivity);
          rewrite ?(Hok 2%nat "stderr") by (try lia; reflexivity);
          rewrite ?(Hok 3%nat "winsz") by (try lia; reflexivity);
          rewrite (openFifo_failed _ _ msg Hfail); reflexivity |]).
  destruct k; discriminate.
Qed.

End Pipes.

(** X1.  When no open fails for another reason than a missing file,
    [openPipes] opens the five pipes [stdin], [stdout], [stderr], [winsz]
    and [exit] of the directory, in this order, each with mode 0600, and
    returns; a pipe that does not exist is no error: the value returned for
    it is nil.  What the open of [exit] gives is not returned. *)
Theorem openPipes_tolerates_missing (e : Env) (dir : string) :
  (forall name err, In name pipeNames ->
     os_OpenFile e (filepath.Join [dir; name]) <> OpenFailed err) ->
  openPipes e dir =
  ([EvOpenFile (filepath.Join [dir; "stdin"]) O_RDONLY mode0600;
    EvOpenFile (filepath.Join [dir; "stdout"]) (Z.lor O_WRONLY O_APPEND) mode0600;
    EvOpenFile (filepath.Join [dir; "stderr"]) (Z.lor O_WRONLY O_APPEND) mode0600;
    EvOpenFile (filepath.Join [dir; "winsz"]) O_RDWR mode0600;
    EvOpenFile (filepath.Join [dir; "exit"]) O_RDWR mode0600],
   inr (present e (filepath.Join [dir; "stdin"]),
        present e (filepath.Join [dir; "stdout"]),
        present e (filepath.Join [dir; "stderr"]),
        present e (filepath.Join [dir; "winsz"]))).
Proof.
  intros H.
  assert (Hok : forall name flags, In name pipeNames ->
            openFifo e (filepath.Join [dir; name]) flags =
              ([EvOpenFile (filepath.Join [dir; name]) flags mode0600],
               inr (present e (filepath.Join [dir; name])))).
  { intros name flags Hin. apply openFifo_present. intros err. now apply H. }
  unfold openPipes.
  rewrite !Hok by (cbn; tauto). reflexivity.
Qed.

(** A world in which the pipes for stdin and stderr do not exist. *)
Definition twoPipesMissing : Env :=
  amend Scenario.exits7
        (fun path => if String.eqb path "/state/stdin" then NotExist
                     else if String.eqb path "/state/stderr" then NotExist
                     else Opened)
        (ioutil_TempDir Scenario.exits7) (net_Listen Scenario.exits7) None.

Lemma openPipes_tolerates_missing_witness :
  openPipes twoPipesMissing "/state" =
  ([EvOpenFile (filepath.Join ["/state"; "stdin"]) O_RDONLY mode0600;
    EvOpenFile (filepath.Join ["/state"; "stdout"]) (Z.lor O_WRONLY O_APPEND) mode0600;
    EvOpenFile (filepath.Join ["/state"; "stderr"]) (Z.lor O_WRONLY O_APPEND) mode0600;
    EvOpenFile (filepath.Join ["/state"; "winsz"]) O_RDWR mode0600;
    EvOpenFile (filepath.Join ["/state"; "exit"]) O_RDWR mode0600],
   inr (present twoPipesMissing (filepath.Join ["/state"; "stdin"]),
        present twoPipesMissing (filepath.Join ["/state"; "stdout"]),
        present twoPipesMissing (filepath.Join ["/state"; "stderr"]),
        present twoPipesMissing (filepath.Join ["/state"; "winsz"]))).
Proof.
  apply (openPipes_tolerates_missing twoPipesMissing "/state").
  intros name err Hin. cbn in Hin.
  destruct Hin as [<- | [<- | [<- | [<- | [<- | []]]]]]; vm_compute; discriminate.
Defined.

(** In that world stdin and stderr are nil, stdout and winsz are files. *)
Example twoPipesMissing_pipes :
  result (openPipes twoPipesMissing "/state") = inr (false, true, false, true).
Proof. reflexivity. Qed.

(** X2.  When the open of a pipe fails for another reason than a missing
    file, [run] panics with that error right after that open: the pipes
    after it are not opened, the sync byte is not written on descriptor 5,
    and nothing is started. *)
Theorem run_pipe_failure (e : Env) (runtime dir cid : string) (k : nat)
    (name : string) (msg : error) :
  nth_error (flag_Args e) 1 = Some runtime ->
  nth_error (flag_Args e) 2 = Some dir ->
  nth_error (flag_Args e) 3 = Some cid ->
  nth_error pipeNames k = Some name ->
  os_OpenFile e (filepath.Join [dir; name]) = OpenFailed msg ->
  (forall j name' err, (j < k)%nat -> nth_error pipeNames j = Some name' ->
     os_OpenFile e (filepath.Join [dir; name']) <> OpenFailed err) ->
  run e = (EvSignalNotify :: firstn (S k) (pipeEvents dir), inl (Panic msg)) /\
  writesOn 5 (trace (run e)) = [] /\
  Forall isOpenFile (tl (trace (run e))).
Proof.
  intros H1 H2 H3 Hk Hfail Hbefore.
  pose proof (openPipes_first_failure e dir k name msg Hk Hfail Hbefore) as Hp.
  assert (Hrun : run e =
                 (EvSignalNotify :: firstn (S k) (pipeEvents dir), inl (Panic msg))).
  { rewrite (run_args e _ _ _ H1 H2 H3), (prepare_failed e _ _ _ _ _ Hp).
    reflexivity. }
  assert (Hopens : Forall isOpenFile (firstn (S k) (pipeEvents dir))).
  { apply Forall_forall. intros ev Hin.
    assert (Hall : In ev (pipeEvents dir))
      by (rewrite <- (firstn_skipn (S k) (pipeEvents dir));
          apply in_or_app; now left).
    cbn in Hall. repeat (destruct Hall as [<- | Hall]; [exact I |]). destruct Hall. }
  split; [exact Hrun |]. rewrite Hrun. cbn [trace fst tl]. split; [| exact Hopens].
  cbn [writesOn].
  apply writesOn_none with (P := isOpenFile); [now intros ? ? | exact Hopens].
Qed.

(** A world in which the open of the pipe for stderr is refused. *)
Definition stderrRefused : Env :=
  amend Scenario.exits7
        (fun path => if String.eqb path "/state/stderr"
                     then OpenFailed "permission denied" else Opened)
        (ioutil_TempDir Scenario.exits7) (net_Listen Scenario.exits7) None.

Lemma run_pipe_failure_witness :
  run stderrRefused =
    (EvSignalNotify :: firstn 3 (pipeEvents "/state"),
     inl (Panic "permission denied")) /\
  writesOn 5 (trace (run stderrRefused)) = [] /\
  Forall isOpenFile (tl (trace (run stderrRefused))).
Proof.
  apply (run_pipe_failure stderrRefused "runc" "/state" "cake" 2 "stderr").
  - reflexivity.
  - reflexivity.
  - reflexivity.
  - reflexivity.
  - reflexivity.
  - intros j name' err Hj Hn.
    destruct j as [| [| j]]; [| | lia]; injection Hn as <-; vm_compute; discriminate.
Defined.

(** ** The order of the handshake *)

Section Cases.

Variable e : Env.

(** The ways [supervise] goes. *)
Lemma supervise_cases argv stdio dir pidFile :
  (exists err,
      cmd_Start e = inl err /\
      supervise e argv stdio dir pidFile =
      ([EvSetSubreaper; EvStart argv stdio; EvWrite 3 [2]], inr 2)) \/
  (exists child err,
      cmd_Start e = inr child /\ wait4_front e = inl err /\
      supervise e argv stdio dir pidFile =
      ([EvSetSubreaper; EvStart argv stdio; EvWait4 child 0], inl (Panic err))) \/
  (exists child status,
      cmd_Start e = inr child /\ wait4_front e = inr status /\
      WaitStatus.ExitStatus status <> 0 /\
      supervise e argv stdio dir pidFile = (launched argv stdio child status, inr 3)) \/
  (exists child status pid err,
      cmd_Start e = inr child /\ wait4_front e = inr status /\
      WaitStatus.ExitStatus status = 0 /\
      parsed (pidfile_main e) = (pid, Some err) /\
      supervise e argv stdio dir pidFile =
      ((launched argv stdio child status ++ [EvReadFile pidFile])%list,
       inl (Panic err))) \/
  (exists child status containerPid,
      cmd_Start e = inr child /\ wait4_front e = inr status /\
      WaitStatus.ExitStatus status = 0 /\
      parsed (pidfile_main e) = (containerPid, None) /\
      supervise e argv stdio dir pidFile =
      let w := waitForContainerToExit e dir containerPid (sigchld e) in
      ((launched argv stdio child status ++ EvReadFile pidFile :: trace w)%list,
       result w)).
Proof.
  destruct (cmd_Start e) as [err | child] eqn:Hstart.
  - left. exists err. split; [reflexivity |].
    exact (supervise_not_started e argv stdio dir pidFile err Hstart).
  - right. destruct (wait4_front e) as [err | status] eqn:Hfront.
    + left. exists child, err. do 2 (split; [reflexivity |]).
      exact (supervise_wait_failed e argv stdio dir pidFile child err Hstart Hfront).
    + right. destruct (Z.eq_dec (WaitStatus.ExitStatus status) 0) as [Hz | Hnz].
      * right. destruct (parsed (pidfile_main e)) as [pid [err |]] eqn:Hpid.
        -- left. exists child, status, pid, err. do 4 (split; [reflexivity || assumption |]).
           exact (supervise_no_pid e argv stdio dir pidFile child status pid err
                    Hstart Hfront Hz Hpid).
        -- right. exists child, status, pid. do 4 (split; [reflexivity || assumption |]).
           exact (supervise_reaping e argv stdio dir pidFile child status pid
                    Hstart Hfront Hz Hpid).
      * left. exists child, status. do 3 (split; [reflexivity || assumption |]).
        exact (supervise_not_launched e argv stdio dir pidFile child status
                 Hstart Hfront Hnz).
Qed.

(** The ways [run] goes up to the start of the runtime. *)
Lemma run_cases :
  run e = ([], inl (Panic "runtime error: index out of range")) \/
  (exists runtime dir cid tr msg,
      nth_error (flag_Args e) 1 = Some runtime /\
      nth_error (flag_Args e) 2 = Some dir /\
      nth_error (flag_Args e) 3 = Some cid /\
      Forall isOpenFile tr /\
      run e = (EvSignalNotify :: tr, inl (Panic msg))) \/
  (exists runtime dir cid stop,
      nth_error (flag_Args e) 1 = Some runtime /\
      nth_error (flag_Args e) 2 = Some dir /\
      nth_error (flag_Args e) 3 = Some cid /\
      result (commandOf e runtime dir cid) = inl stop /\
      run e = ((prelude dir ++ trace (commandOf e runtime dir cid))%list, inl stop)) \/
  (exists runtime dir cid argv stdio,
      nth_error (flag_Args e) 1 = Some runtime /\
      nth_error (flag_Args e) 2 = Some dir /\
      nth_error (flag_Args e) 3 = Some cid /\
      result (commandOf e runtime dir cid) = inr (argv, stdio) /\
      run e =
      let s := supervise e argv stdio dir (pidFileOf dir) in
      ((prelude dir ++ trace (commandOf e runtime dir cid) ++ trace s)%list,
       result s)).
Proof.
  destruct (nth_error (flag_Args e) 1) as [runtime |] eqn:H1;
    [| left; apply run_short; auto].
  destruct (nth_error (flag_Args e) 2) as [dir |] eqn:H2;
    [| left; apply run_short; auto].
  destruct (nth_error (flag_Args e) 3) as [cid |] eqn:H3;
    [| left; apply run_short; auto].
  right.
  destruct (openPipes_cases e dir) as [[pipes Hp] | (tr & msg & path & Hp & Hopen & _)].
  - right. pose proof (run_opened e _ _ _ _ H1 H2 H3 Hp) as Hrun. cbn zeta in Hrun.
    destruct (result (commandOf e runtime dir cid)) as [stop | [argv stdio]] eqn:R.
    + left. now exists runtime, dir, cid, stop.
    + right. now exists runtime, dir, cid, argv, stdio.
  - left. exists runtime, dir, cid, tr, msg. do 4 (split; [reflexivity || assumption |]).
    now rewrite (run_args e _ _ _ H1 H2 H3), (prepare_failed e _ _ _ _ _ Hp).
Qed.

(** The calls of [command] when it returns in the TTY branch. *)
Lemma command_tty runtime logFile pidFile cid argv stdio :
  flag_tty e = true ->
  result (command e runtime logFile pidFile cid) = inr (argv, stdio) ->
  exists sockDir,
    ioutil_TempDir e (flag_socketDirPath e) = inr sockDir /\
    trace (command e runtime logFile pidFile cid) =
    [EvTempDir (flag_socketDirPath e);
     EvListen (filepath.Join [sockDir; "tty.sock"]);
     EvGo TBroker [pidFile; sockDir]] /\
    argv = ttyCommand e runtime logFile (filepath.Join [sockDir; "tty.sock"])
                      pidFile cid.
Proof.
  intros Ht. unfold command. rewrite Ht.
  destruct (Z.gtb_spec (len (flag_socketDirPath e)) MaxSocketDirPathLength);
    [discriminate |].
  unfold setupTTYSocket.
  destruct (ioutil_TempDir e (flag_socketDirPath e)) as [err | sockDir];
    [discriminate |].
  destruct (net_Listen e _); go_unfold; [discriminate |].
  intros [= <- <-]. now exists sockDir.
Qed.

End Cases.

(** X3.  When [run] starts the runtime it has, in this order: registered for
    SIGCHLD, opened the five pipes, written the sync byte 0 on descriptor 5,
    made the console socket if one is asked for, and set the subreaper
    right before the start; the runtime is started once, and after the
    start [run] only waits, closes the log, writes the status, reads the pid
    file and records the exit code. *)
Theorem run_order (e : Env) (argv : list string) (stdio : bool) :
  In (EvStart argv stdio) (trace (run e)) ->
  exists dir socketCalls tail,
    nth_error (flag_Args e) 2 = Some dir /\
    trace (run e) =
      (EvSignalNotify :: pipeEvents dir ++ EvWrite 5 [0] :: socketCalls
         ++ EvSetSubreaper :: EvStart argv stdio :: tail)%list /\
    Forall isSocketSetup socketCalls /\
    Forall isAfterStart tail.
Proof.
  intros Hin.
  destruct (run_reaches_start e argv stdio Hin)
    as (runtime & dir & cid & pipes & H1 & H2 & H3 & Hp & Hc).
  destruct (supervise_calls e argv stdio dir (pidFileOf dir)) as (tail & Htr & Htail).
  exists dir, (trace (commandOf e runtime dir cid)), tail.
  split; [exact H2 |]. split; [| split; [apply command_calls | exact Htail]].
  rewrite (run_started e _ _ _ _ _ _ H1 H2 H3 Hp Hc). cbn zeta. cbn [trace fst].
  fold (trace (supervise e argv stdio dir (pidFileOf dir))). rewrite Htr.
  unfold prelude. cbn [app]. rewrite <- app_assoc. reflexivity.
Qed.

Lemma run_order_witness :
  exists dir socketCalls tail,
    nth_error (flag_Args Scenario.terminal) 2 = Some dir /\
    trace (run Scenario.terminal) =
      (EvSignalNotify :: pipeEvents dir ++ EvWrite 5 [0] :: socketCalls
         ++ EvSetSubreaper
         :: EvStart (ttyCommand Scenario.terminal "runc" "/proc/42/fd/4"
                       "/socks/123456789/tty.sock" "/state/pidfile" "cake") false
         :: tail)%list /\
    Forall isSocketSetup socketCalls /\
    Forall isAfterStart tail.
Proof.
  apply (run_order Scenario.terminal
           (ttyCommand Scenario.terminal "runc" "/proc/42/fd/4"
              "/socks/123456789/tty.sock" "/state/pidfile" "cake") false).
  vm_compute. do 11 right. left. reflexivity.
Defined.

(** X4.  The command [run] starts has one of two forms.  Without [--tty] it
    is [<runtime> -debug -log /proc/<pid>/fd/4 exec -p /proc/<pid>/fd/0 -d
    -pid-file <dir>/pidfile <id>] with its stdio wired to the pipes, and
    [run] makes no socket and starts no goroutine.  With [--tty] it is
    [<runtime> -debug -log /proc/<pid>/fd/4 exec -d -tty -console-socket
    <socket> -p /proc/<pid>/fd/0 -pid-file <dir>/pidfile <id>] with no stdio
    wired, where [<socket>] is the socket [run] listens on, and the broker
    was started with the same pid file and the directory of that socket. *)
Theorem run_command_forms (e : Env) (argv : list string) (stdio : bool) :
  In (EvStart argv stdio) (trace (run e)) ->
  exists runtime dir cid,
    nth_error (flag_Args e) 1 = Some runtime /\
    nth_error (flag_Args e) 2 = Some dir /\
    nth_error (flag_Args e) 3 = Some cid /\
    ((flag_tty e = false /\ stdio = true /\
      argv = [runtime; "-debug"; "-log";
              "/proc/" ++ Itoa (os_Getpid e) ++ "/fd/4"; "exec"; "-p";
              "/proc/" ++ Itoa (os_Getpid e) ++ "/fd/0"; "-d";
              "-pid-file"; filepath.Join [dir; "pidfile"]; cid] /\
      Forall (fun ev => ~ isSocketSetup ev) (trace (run e)))
     \/
     (flag_tty e = true /\ stdio = false /\
      exists sockDir,
        ioutil_TempDir e (flag_socketDirPath e) = inr sockDir /\
        argv = [runtime; "-debug"; "-log";
                "/proc/" ++ Itoa (os_Getpid e) ++ "/fd/4"; "exec"; "-d"; "-tty";
                "-console-socket"; filepath.Join [sockDir; "tty.sock"]; "-p";
                "/proc/" ++ Itoa (os_Getpid e) ++ "/fd/0";
                "-pid-file"; filepath.Join [dir; "pidfile"]; cid] /\
        In (EvListen (filepath.Join [sockDir; "tty.sock"])) (trace (run e)) /\
        In (EvGo TBroker [filepath.Join [dir; "pidfile"]; sockDir]) (trace (run e)))).
Proof.
  intros Hin.
  destruct (run_reaches_start e argv stdio Hin)
    as (runtime & dir & cid & pipes & H1 & H2 & H3 & Hp & Hc).
  exists runtime, dir, cid. do 3 (split; [assumption |]).
  pose proof (run_started e _ _ _ _ _ _ H1 H2 H3 Hp Hc) as Hrun. cbn zeta in Hrun.
  destruct (flag_tty e) eqn:Ht.
  - right. split; [reflexivity |].
    destruct (command_result e _ _ _ _ _ _ Hc)
      as [(Hf & _) | (_ & -> & _)]; [congruence |].
    split; [reflexivity |].
    destruct (command_tty e _ _ _ _ _ _ Ht Hc) as (sockDir & Htmp & Htr & ->).
    exists sockDir. split; [exact Htmp |]. split; [reflexivity |].
    fold (commandOf e runtime dir cid) in Htr.
    rewrite Hrun. cbn [trace fst]. rewrite Htr. unfold pidFileOf.
    split; apply in_app_iff; right; apply in_app_iff; left; cbn; tauto.
  - left. split; [reflexivity |].
    destruct (command_result e _ _ _ _ _ _ Hc)
      as [(_ & -> & ->) | (Hf & _)]; [| congruence].
    split; [reflexivity |]. split; [reflexivity |].
    rewrite Hrun. cbn [trace fst]. unfold commandOf.
    rewrite (command_plain e _ _ _ _ Ht). cbn [trace fst app].
    apply Forall_app. split; [repeat constructor; auto |].
    destruct (supervise_calls e (plainCommand e runtime (procFd e "4") (pidFileOf dir) cid)
                true dir (pidFileOf dir)) as (tail & Htr & Htail).
    fold (trace (supervise e (plainCommand e runtime (procFd e "4") (pidFileOf dir) cid)
                   true dir (pidFileOf dir))).
    rewrite Htr. repeat (constructor; [auto |]).
    apply Forall_impl with (P := isAfterStart); [now intros [] | exact Htail].
Qed.

Lemma run_command_forms_witness :
  exists runtime dir cid,
    nth_error (flag_Args Scenario.terminal) 1 = Some runtime /\
    nth_error (flag_Args Scenario.terminal) 2 = Some dir /\
    nth_error (flag_Args Scenario.terminal) 3 = Some cid /\
    ((flag_tty Scenario.terminal = false /\ false = true /\
      ttyCommand Scenario.terminal "runc" "/proc/42/fd/4"
        "/socks/123456789/tty.sock" "/state/pidfile" "cake" =
        [runtime; "-debug"; "-log";
         "/proc/" ++ Itoa (os_Getpid Scenario.terminal) ++ "/fd/4"; "exec"; "-p";
         "/proc/" ++ Itoa (os_Getpid Scenario.terminal) ++ "/fd/0"; "-d";
         "-pid-file"; filepath.Join [dir; "pidfile"]; cid] /\
      Forall (fun ev => ~ isSocketSetup ev) (trace (run Scenario.terminal)))
     \/
     (flag_tty Scenario.terminal = true /\ false = false /\
      exists sockDir,
        ioutil_TempDir Scenario.terminal (flag_socketDirPath Scenario.terminal)
          = inr sockDir /\
        ttyCommand Scenario.terminal "runc" "/proc/42/fd/4"
          "/socks/123456789/tty.sock" "/state/pidfile" "cake" =
          [runtime; "-debug"; "-log";
           "/proc/" ++ Itoa (os_Getpid Scenario.terminal) ++ "/fd/4"; "exec";
           "-d"; "-tty"; "-console-socket"; filepath.Join [sockDir; "tty.sock"];
           "-p"; "/proc/" ++ Itoa (os_Getpid Scenario.terminal) ++ "/fd/0";
           "-pid-file"; filepath.Join [dir; "pidfile"]; cid] /\
        In (EvListen (filepath.Join [sockDir; "tty.sock"]))
           (trace (run Scenario.terminal)) /\
        In (EvGo TBroker [filepath.Join [dir; "pidfile"]; sockDir])
           (trace (run Scenario.terminal)))).
Proof.
  apply (run_command_forms Scenario.terminal
           (ttyCommand Scenario.terminal "runc" "/proc/42/fd/4"
              "/socks/123456789/tty.sock" "/state/pidfile" "cake") false).
  vm_compute. do 11 right. left. reflexivity.
Defined.

(** ** The status channel *)

Section Status.

Variable e : Env.

Lemma reaper_status dir containerPid signals fd :
  writesOn fd (trace (waitForContainerToExit e dir containerPid signals)) = [].
Proof.
  apply writesOn_none with (P := isReaperCall); [now intros ? ? |].
  apply waitForContainerToExit_calls.
Qed.

(** What [supervise] writes on descriptor 3. *)
Lemma supervise_status argv stdio dir pidFile :
  writesOn 3 (trace (supervise e argv stdio dir pidFile)) = [] \/
  exists b, 0 <= b < 256 /\
            writesOn 3 (trace (supervise e argv stdio dir pidFile)) = [[b]].
Proof.
  assert (Hb : forall status, 0 <= byte (WaitStatus.ExitStatus status) < 256)
    by (intros status; unfold byte; now apply Z.mod_pos_bound).
  destruct (supervise_cases e argv stdio dir pidFile)
    as [(err & _ & ->) | [(child & err & _ & _ & ->) |
        [(child & status & _ & _ & _ & ->) |
         [(child & status & pid & err & _ & _ & _ & _ & ->) |
          (child & status & cpid & _ & _ & _ & _ & ->)]]]].
  - right. exists 2. split; [lia | reflexivity].
  - now left.
  - right. exists (byte (WaitStatus.ExitStatus status)). split; [apply Hb |]. reflexivity.
  - right. exists (byte (WaitStatus.ExitStatus status)). split; [apply Hb |]. reflexivity.
  - right. exists (byte (WaitStatus.ExitStatus status)). split; [apply Hb |].
    cbn zeta. cbn [trace fst]. unfold launched. cbn [app writesOn Z.eqb Pos.eqb].
    now rewrite reaper_status.
Qed.

End Status.

(** X5.  In every run, [run] writes on descriptor 3 at most once, and then
    one byte; it writes on descriptor 5 at most once, and then the byte 0;
    and it writes on no other descriptor. *)
Theorem status_at_most_one_byte (e : Env) :
  (writesOn 3 (trace (run e)) = [] \/
   exists b, 0 <= b < 256 /\ writesOn 3 (trace (run e)) = [[b]]) /\
  (writesOn 5 (trace (run e)) = [] \/ writesOn 5 (trace (run e)) = [[0]]) /\
  (forall fd, fd <> 3 -> fd <> 5 -> writesOn fd (trace (run e)) = []).
Proof.
  assert (Hcmd : forall runtime dir cid fd,
            writesOn fd (trace (commandOf e runtime dir cid)) = []).
  { intros. apply writesOn_none with (P := isSocketSetup); [now intros ? ? |].
    apply command_calls. }
  assert (Hsup5 : forall argv stdio dir pidFile fd, fd <> 3 ->
            writesOn fd (trace (supervise e argv stdio dir pidFile)) = []).
  { intros argv stdio dir pidFile fd Hfd.
    assert (H3 : (3 =? fd) = false) by (apply Z.eqb_neq; lia).
    destruct (supervise_cases e argv stdio dir pidFile)
      as [(err & _ & ->) | [(child & err & _ & _ & ->) |
          [(child & status & _ & _ & _ & ->) |
           [(child & status & pid & err & _ & _ & _ & _ & ->) |
            (child & status & cpid & _ & _ & _ & _ & ->)]]]];
      cbn zeta; cbn [trace fst]; unfold launched; cbn [app writesOn];
      rewrite ?H3; try reflexivity.
    apply reaper_status. }
  assert (Hpre : forall dir fd, fd <> 5 -> writesOn fd (prelude dir) = []).
  { intros dir fd Hfd. unfold prelude, pipeEvents. cbn [app writesOn].
    assert (H5 : (5 =? fd) = false) by (apply Z.eqb_neq; lia). now rewrite H5. }
  assert (Hopen : forall tr fd, Forall isOpenFile tr -> writesOn fd tr = [])
    by (intros tr fd; apply writesOn_none; now intros ? ?).
  assert (Hsync : forall dir, writesOn 5 (prelude dir) = [[0]]) by reflexivity.
  destruct (run_cases e)
    as [-> | [(runtime & dir & cid & tr & msg & _ & _ & _ & Htr & ->) |
        [(runtime & dir & cid & stop & _ & _ & _ & _ & ->) |
         (runtime & dir & cid & argv & stdio & _ & _ & _ & _ & ->)]]];
    cbn zeta; cbn [trace fst writesOn].
  - split; [now left |]. split; [now left | reflexivity].
  - split; [left; now apply Hopen |]. split; [left; now apply Hopen |].
    intros fd _ _. now apply Hopen.
  - split; [| split].
    + left. now rewrite writesOn_app, Hcmd, Hpre by lia.
    + right. now rewrite writesOn_app, Hcmd, Hsync.
    + intros fd _ H5. now rewrite writesOn_app, Hcmd, Hpre.
  - split; [| split].
    + rewrite !writesOn_app, Hcmd, Hpre by lia. cbn [app].
      apply supervise_status.
    + right. now rewrite !writesOn_app, Hcmd, Hsync, Hsup5 by lia.
    + intros fd H3 H5. now rewrite !writesOn_app, Hcmd, Hpre, Hsup5.
Qed.

(** X6.  When the front process of the runtime does not exit but is killed
    by a signal, its exit status reads as -1: the byte [run] writes on
    descriptor 3 is 255, and [run] returns 3. *)
Theorem front_killed_reports_255 (e : Env) (child status : Z)
    (argv : list string) (stdio : bool) :
  cmd_Start e = inr child ->
  wait4_front e = inr status ->
  WaitStatus.Exited status = false ->
  In (EvStart argv stdio) (trace (run e)) ->
  result (run e) = inr 3 /\
  writesOn 3 (trace (run e)) = [[255]] /\
  Forall (fun ev => ~ isWriteFile ev) (trace (run e)).
Proof.
  intros Hstart Hfront Hex Hin.
  destruct (run_reaches_start e argv stdio Hin)
    as (runtime & dir & cid & pipes & H1 & H2 & H3 & Hp & Hc).
  pose proof (run_started e _ _ _ _ _ _ H1 H2 H3 Hp Hc) as Hrun. cbn zeta in Hrun.
  assert (Hs : WaitStatus.ExitStatus status = -1)
    by (unfold WaitStatus.ExitStatus; now rewrite Hex).
  rewrite (supervise_not_launched e argv stdio dir _ child status Hstart Hfront)
    in Hrun by (rewrite Hs; discriminate).
  cbn [trace result fst snd] in Hrun. rewrite Hrun. cbn [trace result fst snd].
  split; [reflexivity |]. split.
  - rewrite !writesOn_app, prelude_status, command_status. cbn. now rewrite Hs.
  - rewrite app_assoc. apply Forall_app.
    split; [apply before_start_no_write | repeat constructor; auto].
Qed.

(** The front process of the runtime is killed by signal 11. *)
Definition frontKilled : Env :=
  Scenario.world false "" (inr 43) (inr (WaitStatus.ofSignal 11 true))
                 (inl Scenario.missing) []
                 NeverReturns NeverReturns (fun _ => inl Scenario.missing).

Lemma front_killed_reports_255_witness :
  result (run frontKilled) = inr 3 /\
  writesOn 3 (trace (run frontKilled)) = [[255]] /\
  Forall (fun ev => ~ isWriteFile ev) (trace (run frontKilled)).
Proof.
  apply (front_killed_reports_255 frontKilled 43 (WaitStatus.ofSignal 11 true)
           (plainCommand frontKilled "runc" "/proc/42/fd/4" "/state/pidfile" "cake")
           true).
  - reflexivity.
  - reflexivity.
  - reflexivity.
  - vm_compute. do 8 right. left. reflexivity.
Defined.

(** X7.  When the runtime starts but the wait for its front process fails,
    [run] panics with the error of the wait: by then nothing is written on
    descriptor 3, the log descriptor 4 is not closed, and no file is
    written. *)
Theorem front_wait_failure (e : Env) (child : Z) (err : error)
    (argv : list string) (stdio : bool) :
  cmd_Start e = inr child ->
  wait4_front e = inl err ->
  In (EvStart argv stdio) (trace (run e)) ->
  result (run e) = inl (Panic err) /\
  writesOn 3 (trace (run e)) = [] /\
  ~ In (EvClose 4) (trace (run e)) /\
  Forall (fun ev => ~ isWriteFile ev) (trace (run e)) /\
  exists calls, trace (run e) = (calls ++ [EvWait4 child 0])%list.
Proof.
  intros Hstart Hfront Hin.
  destruct (run_reaches_start e argv stdio Hin)
    as (runtime & dir & cid & pipes & H1 & H2 & H3 & Hp & Hc).
  pose proof (run_started e _ _ _ _ _ _ H1 H2 H3 Hp Hc) as Hrun. cbn zeta in Hrun.
  rewrite (supervise_wait_failed e argv stdio dir _ child err Hstart Hfront) in Hrun.
  cbn [trace result fst snd] in Hrun. rewrite Hrun. cbn [trace result fst snd].
  split; [reflexivity |]. split; [| split; [| split]].
  - now rewrite !writesOn_app, prelude_status, command_status.
  - rewrite !in_app_iff. intros [Hc' | [Hc' | Hc']].
    + cbn in Hc'. repeat (destruct Hc' as [Hc' | Hc']; [discriminate |]). exact Hc'.
    + revert Hc'. apply Forall_not_In with (P := isSocketSetup);
        [apply command_calls | now intros []].
    + cbn in Hc'. repeat (destruct Hc' as [Hc' | Hc']; [discriminate |]). exact Hc'.
  - rewrite app_assoc. apply Forall_app.
    split; [apply before_start_no_write | repeat constructor; auto].
  - exists (prelude dir ++ trace (commandOf e runtime dir cid)
              ++ [EvSetSubreaper; EvStart argv stdio])%list.
    rewrite <- !app_assoc. reflexivity.
Qed.

(** The runtime starts but cannot be waited for. *)
Definition frontLost : Env :=
  Scenario.world false "" (inr 43) (inl "no child processes")
                 (inl Scenario.missing) []
                 NeverReturns NeverReturns (fun _ => inl Scenario.missing).

Lemma front_wait_failure_witness :
  result (run frontLost) = inl (Panic "no child processes") /\
  writesOn 3 (trace (run frontLost)) = [] /\
  ~ In (EvClose 4) (trace (run frontLost)) /\
  Forall (fun ev => ~ isWriteFile ev) (trace (run frontLost)) /\
  exists calls, trace (run frontLost) = (calls ++ [EvWait4 43 0])%list.
Proof.
  apply (front_wait_failure frontLost 43 "no child processes"
           (plainCommand frontLost "runc" "/proc/42/fd/4" "/state/pidfile" "cake")
           true).
  - reflexivity.
  - reflexivity.
  - vm_compute. do 8 right. left. reflexivity.
Defined.

(** ** The reaper, whatever it is given *)

Section ReaperOutcomes.

Variable e : Env.
Variables (dir : string) (containerPid : Z).

(** The result of a reaper that reached the write of the file. *)
Definition afterWrite {A} (a : A) : Abort + A :=
  match ioutil_WriteFile e with
  | None => inr a
  | Some msg => inl (Panic msg)
  end.

Lemma reapChildren_outcome answers :
  (exists pre status,
      In (W4Ok containerPid status) answers /\ 0 < containerPid /\
      Forall isPoll pre /\
      trace (reapChildren e dir containerPid answers) =
        (pre ++ recorded dir (exitCodeOf status))%list /\
      result (reapChildren e dir containerPid answers) =
        afterWrite (Some (exitCodeOf status))) \/
  (result (reapChildren e dir containerPid answers) = inr None /\
   Forall isPoll (trace (reapChildren e dir containerPid answers))).
Proof.
  induction answers as [| [err | wpid status] rest IH]; cbn [reapChildren];
    try (right; split; [reflexivity | repeat constructor]; fail).
  rewrite result_bind, trace_bind. cbn [emit result trace snd fst app].
  destruct (Z.leb_spec wpid 0) as [Hle | Hpos];
    [right; split; [reflexivity | repeat constructor] |].
  destruct (Z.eqb_spec wpid containerPid) as [-> | Hne].
  - left. exists [], status. split; [now left |]. split; [exact Hpos |].
    split; [constructor |]. unfold afterWrite.
    destruct (ioutil_WriteFile e); split; reflexivity.
  - destruct IH as [(pre & st & Hin & Hp & Hpre & Htr & Hres) | [Hres Hpoll]].
    + left. exists (EvWait4 (-1) WNOHANG :: pre), st.
      split; [now right |]. split; [exact Hp |]. split; [now constructor |].
      split; [now rewrite Htr | exact Hres].
    + right. split; [exact Hres | now constructor].
Qed.

Lemma waitForContainerToExit_outcome signals :
  (exists pre answers status,
      In answers signals /\ In (W4Ok containerPid status) answers /\
      0 < containerPid /\ Forall isPoll pre /\
      trace (waitForContainerToExit e dir containerPid signals) =
        (pre ++ recorded dir (exitCodeOf status))%list /\
      result (waitForContainerToExit e dir containerPid signals) =
        afterWrite (exitCodeOf status)) \/
  (result (waitForContainerToExit e dir containerPid signals) = inl Blocked /\
   Forall isPoll (trace (waitForContainerToExit e dir containerPid signals))).
Proof.
  induction signals as [| answers rest IH]; cbn [waitForContainerToExit];
    [right; split; [reflexivity | constructor] |].
  rewrite result_bind, trace_bind. cbn [emit result trace snd fst app].
  rewrite result_bind, trace_bind.
  destruct (reapChildren_outcome answers)
    as [(pre & st & Hin & Hp & Hpre & Htr & Hres) | [Hres Hpoll]].
  - left. exists (EvSigRecv :: pre), answers, st.
    split; [now left |]. split; [exact Hin |]. split; [exact Hp |].
    split; [now constructor |]. rewrite Hres, Htr. unfold afterWrite.
    destruct (ioutil_WriteFile e); cbn [ret trace result fst snd];
      rewrite ?app_nil_r; split; reflexivity.
  - rewrite Hres.
    destruct IH as [(pre & ans & st & Hin & Hin' & Hp & Hpre & Htr & Hres') | [Hres' Hpoll']].
    + left.
      exists (EvSigRecv :: trace (reapChildren e dir containerPid answers) ++ pre)%list,
        ans, st.
      split; [now right |]. split; [exact Hin' |]. split; [exact Hp |].
      split; [constructor; [exact I | apply Forall_app; now split] |].
      split; [| exact Hres']. rewrite Htr, app_comm_cons, app_assoc. reflexivity.
    + right. split; [exact Hres' |].
      constructor; [exact I | apply Forall_app; now split].
Qed.

End ReaperOutcomes.


(** X9.  In every run, [run] writes at most one file: either it writes none,
    or its last call is the write of [<dir>/exitcode], with mode 0700,
    where [<dir>] is the third argument after the flags, and then the one
    byte it wrote on descriptor 3 before is 0. *)
Theorem run_writes_one_file (e : Env) :
  Forall (fun ev => ~ isWriteFile ev) (trace (run e)) \/
  exists dir calls code,
    nth_error (flag_Args e) 2 = Some dir /\
    trace (run e) =
      (calls ++ [EvWriteFile (filepath.Join [dir; "exitcode"]) (Itoa code) mode0700])%list /\
    Forall (fun ev => ~ isWriteFile ev) calls /\
    writesOn 3 (trace (run e)) = [[0]].
Proof.
  destruct (run_cases e)
    as [-> | [(runtime & dir & cid & tr & msg & _ & _ & _ & Htr & ->) |
        [(runtime & dir & cid & stop & _ & _ & _ & _ & ->) |
         (runtime & dir & cid & argv & stdio & _ & H2 & _ & _ & ->)]]];
    cbn zeta; cbn [trace fst].
  - left. constructor.
  - left. constructor; [auto |].
    apply Forall_impl with (P := isOpenFile); [now intros [] | exact Htr].
  - left. apply before_start_no_write.
  - assert (Hbefore := before_start_no_write e runtime dir cid).
    destruct (supervise_cases e argv stdio dir (pidFileOf dir))
      as [(err & _ & ->) | [(child & err & _ & _ & ->) |
          [(child & status & _ & _ & _ & ->) |
           [(child & status & pid & err & _ & _ & _ & _ & ->) |
            (child & status & cpid & _ & _ & Hz & _ & ->)]]]];
      cbn zeta; cbn [trace fst];
      try (left; rewrite app_assoc; apply Forall_app;
           split; [exact Hbefore | repeat constructor; auto]; fail).
    destruct (waitForContainerToExit_outcome e dir cpid (sigchld e))
      as [(pre & ans & st & _ & _ & _ & Hpre & Htr & _) | [_ Hpoll]].
    + right. exists dir,
        (prelude dir ++ trace (commandOf e runtime dir cid)
           ++ launched argv stdio child status
           ++ EvReadFile (pidFileOf dir) :: pre ++ [EvWait4 (-1) WNOHANG; EvIoWgWait])%list,
        (exitCodeOf st).
      split; [exact H2 |]. rewrite Htr. unfold recorded. split; [| split].
      * rewrite <- !app_assoc. cbn [app]. rewrite <- !app_assoc. reflexivity.
      * rewrite app_assoc. apply Forall_app. split; [exact Hbefore |].
        apply Forall_app. split; [repeat constructor; auto |].
        constructor; [auto |]. apply Forall_app. split; [| repeat constructor; auto].
        apply Forall_impl with (P := isPoll); [now intros [] | exact Hpre].
      * rewrite !writesOn_app, prelude_status, command_status.
        unfold launched. cbn [app writesOn Z.eqb Pos.eqb]. rewrite Hz.
        replace (writesOn 3 (pre ++ _)) with (@nil (list Z)); [reflexivity |].
        symmetry. apply writesOn_none with (P := isReaperCall); [now intros ? ? |].
        apply Forall_app. split; [| repeat constructor].
        apply Forall_impl with (P := isPoll); [now intros [] | exact Hpre].
    + left. rewrite app_assoc. apply Forall_app. split; [exact Hbefore |].
      apply Forall_app. split; [repeat constructor; auto |].
      constructor; [auto |].
      apply Forall_impl with (P := isPoll); [now intros [] | exact Hpoll].
Qed.



Section NoPositivePid.

Variable e : Env.



End NoPositivePid.




(** ** Reading the pid file to kill *)

(** The time a goroutine spends in [time.Sleep], in milliseconds. *)
Fixpoint pauses (tr : list Event) : Z :=
  match tr with
  | [] => 0
  | EvSleep ms :: rest => ms + pauses rest
  | _ :: rest => pauses rest
  end.

Section ReadPidBounds.

Variable e : Env.
Variable pidFile : string.

Lemma pauses_failedReads k :
  pauses (failedReads pidFile k ++ [EvReadFile pidFile]) = 500 * Z.of_nat k.
Proof.
  induction k as [| k IH]; [reflexivity |].
  cbn [failedReads app pauses]. rewrite IH. lia.
Qed.

Lemma failedReads_calls k : Forall isReadOrSleep (failedReads pidFile k).
Proof. induction k; cbn [failedReads]; repeat constructor. assumption. Qed.

(** The first read that gives a pid, among the reads 0 to [n]. *)
Lemma first_pid n :
  (exists k pid, (k <= n)%nat /\
     (forall j, (j < k)%nat -> snd (parsed (pidfile_kill e j)) <> None) /\
     parsed (pidfile_kill e k) = (pid, None)) \/
  (forall j, (j <= n)%nat -> snd (parsed (pidfile_kill e j)) <> None).
Proof.
  induction n as [| n IH].
  - destruct (parsed (pidfile_kill e 0)) as [pid [err |]] eqn:E.
    + right. intros j Hj. replace j with 0%nat by lia. now rewrite E.
    + left. exists 0%nat, pid. split; [lia |]. split; [intros j Hj; lia | exact E].
  - destruct IH as [(k & pid & Hk & Hbefore & Hok) | Hall].
    + left. exists k, pid. split; [lia |]. now split.
    + destruct (parsed (pidfile_kill e (S n))) as [pid [err |]] eqn:E.
      * right. intros j Hj. destruct (Nat.eq_dec j (S n)) as [-> | Hne].
        -- now rewrite E.
        -- apply Hall. lia.
      * left. exists (S n), pid. split; [lia |]. split; [| exact E].
        intros j Hj. apply Hall. lia.
Qed.

Lemma readPid_exhausted :
  (forall j, (j <= 20)%nat -> snd (parsed (pidfile_kill e j)) <> None) ->
  readPid e pidFile =
  ((failedReads pidFile 20 ++ [EvReadFile pidFile])%list,
   inr (parsed (pidfile_kill e 20))).
Proof.
  intros Hfail. rewrite readPid_Run.
  destruct (Run_missing e pidFile (retrier.ConstantBackoff 20 500) O (-1, None))
    as (pid & err & Hlast & Hrun).
  - unfold retrier.ConstantBackoff. rewrite repeat_length. exact Hfail.
  - apply ConstantBackoff_all.
  - rewrite Hrun. unfold retrier.ConstantBackoff in *. rewrite repeat_length in *.
    cbn [Nat.add] in Hlast. rewrite Hlast.
    cbn [bind ret snd]. now rewrite app_nil_r.
Qed.

(** The ways [killProcess] goes. *)
Lemma killProcess_cases :
  (exists k pid, (k <= 20)%nat /\
     parsed (pidfile_kill e k) = (pid, None) /\
     killProcess e pidFile =
     ((failedReads pidFile k ++ [EvReadFile pidFile; EvKill pid SIGKILL])%list,
      inr tt)) \/
  killProcess e pidFile =
  ((failedReads pidFile 20 ++ [EvReadFile pidFile])%list, inr tt).
Proof.
  destruct (first_pid 20) as [(k & pid & Hk & Hbefore & Hok) | Hall].
  - left. exists k, pid. split; [exact Hk |]. split; [exact Hok |].
    now apply killProcess_found.
  - right. now apply killProcess_missing.
Qed.

End ReadPidBounds.

(** X12.  Whatever the pid file holds, [readPid] returns: it reads the file
    until a read gives a pid, at most 21 times, with a pause of 500 ms after
    each read that fails, so it pauses for 10 seconds at most; it returns
    what its last read gave, which is the first pid read or, after 21
    failures, the last error. *)
Theorem readPid_bounded (e : Env) (pidFile : string) :
  exists k,
    (k <= 20)%nat /\
    readPid e pidFile =
      ((failedReads pidFile k ++ [EvReadFile pidFile])%list,
       inr (parsed (pidfile_kill e k))) /\
    (forall j, (j < k)%nat -> snd (parsed (pidfile_kill e j)) <> None) /\
    ((k < 20)%nat -> snd (parsed (pidfile_kill e k)) = None) /\
    pauses (trace (readPid e pidFile)) = 500 * Z.of_nat k /\
    pauses (trace (readPid e pidFile)) <= 10000.
Proof.
  destruct (first_pid e 20) as [(k & pid & Hk & Hbefore & Hok) | Hall].
  - exists k. split; [exact Hk |].
    rewrite (readPid_found e pidFile k pid Hk Hbefore Hok). cbn [trace fst].
    rewrite pauses_failedReads.
    split; [now rewrite Hok |]. split; [exact Hbefore |].
    split; [intros _; now rewrite Hok |]. split; lia.
  - exists 20%nat. split; [lia |].
    rewrite (readPid_exhausted e pidFile Hall). cbn [trace fst].
    rewrite pauses_failedReads.
    split; [reflexivity |]. split; [intros j Hj; apply Hall; lia |].
    split; [lia |]. split; lia.
Qed.

(** ** Signals *)

(** The calls of the broker before its deferred function runs. *)
Definition isBeforeKill (ev : Event) : Prop :=
  match ev with
  | EvAccept | EvListenerClose | EvConnClose | EvConnFile | EvSocketClose
  | EvRecvFd => True
  | _ => False
  end.

Section Signals.

Variable e : Env.

(** The broker kills only after one of its three failures, and only the pid
    that [readPid] read. *)
Lemma broker_kill_inv pidFile sockDir pid sig :
  In (EvKill pid sig) (goroutine e TBroker [pidFile; sockDir]) ->
  sig = SIGKILL /\
  (exists err steps, brokerFails e err steps) /\
  exists k, (k <= 20)%nat /\ parsed (pidfile_kill e k) = (pid, None).
Proof.
  assert (Hkill : forall steps err,
            Forall isBeforeKill steps ->
            In (EvKill pid sig)
               ((steps ++ trace (killProcess e pidFile)) ++ [EvPanic err])%list ->
            sig = SIGKILL /\
            exists k, (k <= 20)%nat /\ parsed (pidfile_kill e k) = (pid, None)).
  { intros steps err Hsteps Hin. rewrite !in_app_iff in Hin.
    destruct Hin as [[Hin | Hin] | [Hin | []]]; [| | discriminate].
    - exfalso. revert Hin.
      apply Forall_not_In with (P := isBeforeKill); [exact Hsteps | now intros []].
    - destruct (killProcess_cases e pidFile) as [(k & pid' & Hk & Hok & Hkp) | Hkp];
        rewrite Hkp in Hin; cbn [trace fst] in Hin; apply in_app_iff in Hin.
      + destruct Hin as [Hin | [Hin | [Hin | []]]]; [| discriminate |].
        * exfalso. revert Hin.
          apply Forall_not_In with (P := isReadOrSleep);
            [apply failedReads_calls | now intros []].
        * injection Hin as <- <-. split; [reflexivity |]. now exists k.
      + exfalso. destruct Hin as [Hin | [Hin | []]]; [| discriminate].
        revert Hin.
        apply Forall_not_In with (P := isReadOrSleep);
          [apply failedReads_calls | now intros []]. }
  cbn [goroutine]. unfold actions.
  destruct (ln_Accept e) as [| err |] eqn:Ha.
  - unfold broker, brokerBody. rewrite Ha. intros [].
  - rewrite (broker_accept_fails e pidFile sockDir err Ha). cbn [trace result fst snd].
    intros Hin. destruct (Hkill [EvAccept] err) as [Hs Hk];
      [repeat constructor | exact Hin | ].
    split; [exact Hs |]. split; [| exact Hk].
    exists err, [EvAccept]. now constructor.
  - destruct (conn_isUnixConn e) eqn:Hu.
    + destruct (unixconn_File e) as [err |] eqn:Hf.
      * rewrite (broker_file_fails e pidFile sockDir err Ha Hu Hf).
        cbn [trace result fst snd]. intros Hin.
        destruct (Hkill [EvAccept; EvListenerClose; EvConnFile; EvConnClose] err)
          as [Hs Hk]; [repeat constructor | exact Hin | ].
        split; [exact Hs |]. split; [| exact Hk].
        eexists err, _. now apply FileFails.
      * destruct (cmsg_RecvFd e) as [| err |] eqn:Hr.
        -- unfold broker, brokerBody. rewrite Ha, Hu, Hf, Hr. cbn.
           intros Hin. repeat (destruct Hin as [Hin | Hin]; [discriminate |]).
           destruct Hin.
        -- rewrite (broker_recv_fails e pidFile sockDir err Ha Hu Hf Hr).
           cbn [trace result fst snd]. intros Hin.
           destruct (Hkill [EvAccept; EvListenerClose; EvConnFile; EvRecvFd;
                            EvSocketClose; EvConnClose] err)
             as [Hs Hk]; [repeat constructor | exact Hin | ].
           split; [exact Hs |]. split; [| exact Hk].
           eexists err, _. now apply RecvFdFails.
        -- rewrite (broker_streams e pidFile sockDir Ha Hu Hf Hr). cbn.
           intros Hin. repeat (destruct Hin as [Hin | Hin]; [discriminate |]).
           destruct Hin.
    + unfold broker, brokerBody. rewrite Ha, Hu. cbn.
      intros Hin. repeat (destruct Hin as [Hin | Hin]; [discriminate |]).
      destruct Hin.
Qed.

End Signals.

(** X13.  In every state the process can reach, a signal has been sent only
    by the broker goroutine, which exists only with [--tty]; the signal is
    SIGKILL; [Accept], [File] or [RecvFd] has failed in the broker; and the
    signal went to the pid that one of the at most 21 reads of the pid file
    gave. *)
Theorem signal_only_after_broker_failure (e : Env) (s : Sys) (t : Tid)
    (pid sig : Z) :
  reachable e s ->
  In (t, EvKill pid sig) (history s) ->
  t = TBroker /\ sig = SIGKILL /\ flag_tty e = true /\
  (exists err steps, brokerFails e err steps) /\
  exists k, (k <= 20)%nat /\ parsed (pidfile_kill e k) = (pid, None).
Proof.
  intros Hr Hin.
  destruct (reachable_source e s Hr t _ Hin) as (captured & Hsrc).
  pose proof (goroutine_may e t captured _ Hsrc) as Hmay.
  assert (Ht : t = TBroker).
  { destruct t; cbn in Hmay; try reflexivity;
      try (now destruct (flag_tty e)); try (destruct Hmay; discriminate);
      try discriminate; try contradiction. }
  subst t. split; [reflexivity |].
  assert (Htty : flag_tty e = true).
  { destruct (flag_tty e) eqn:Htty; [reflexivity | exfalso].
    destruct (plain_process e Htty s Hr) as (done & _ & Hh & _).
    rewrite Hh in Hin. apply in_rev in Hin. apply in_map_iff in Hin.
    destruct Hin as (x & Hx & _). discriminate. }
  destruct captured as [| p [| d [| x l]]]; try (now destruct Hsrc).
  destruct (broker_kill_inv e p d pid sig Hsrc) as (Hs & Hf & Hk).
  now repeat split.
Qed.

(** A run in which [RecvFd] fails and the broker kills the pid that the
    third read of the pid file gives. *)
Definition brokerKilled : Sys :=
  match exec Scenario.recvFailsPidLate
             (repeat TMain 10 ++ repeat TBroker 12)%list
             (init Scenario.recvFailsPidLate) with
  | Some s => s
  | None => init Scenario.recvFailsPidLate
  end.

Lemma signal_only_after_broker_failure_witness :
  TBroker = TBroker /\ 9 = SIGKILL /\ flag_tty Scenario.recvFailsPidLate = true /\
  (exists err steps, brokerFails Scenario.recvFailsPidLate err steps) /\
  exists k, (k <= 20)%nat /\
            parsed (pidfile_kill Scenario.recvFailsPidLate k) = (77, None).
Proof.
  apply (signal_only_after_broker_failure Scenario.recvFailsPidLate brokerKilled
           TBroker 77 9).
  - exists (repeat TMain 10 ++ repeat TBroker 12)%list. vm_compute. reflexivity.
  - vm_compute. left. reflexivity.
Defined.

(** ** Failures while the socket is set up *)

(** The two failures of [setupTTYSocket], each with its error and with
    the calls [setupTTYSocket] has made when it panics. *)
Inductive socketFails (e : Env) : error -> list Event -> Prop :=
| TempDirFails err :
    ioutil_TempDir e (flag_socketDirPath e) = inl err ->
    socketFails e err [EvTempDir (flag_socketDirPath e)]
| ListenFails sockDir err :
    ioutil_TempDir e (flag_socketDirPath e) = inr sockDir ->
    net_Listen e (filepath.Join [sockDir; "tty.sock"]) = Some err ->
    socketFails e err [EvTempDir (flag_socketDirPath e);
                       EvListen (filepath.Join [sockDir; "tty.sock"])].

(** X14.  With [--tty] and a socket directory of at most 80 bytes, when the
    temporary directory cannot be made, or when the socket cannot be
    listened on, [run] panics with that error: the pipes are open and the
    synchronisation byte is written, but no goroutine is started, no process
    is started, nothing is written to descriptor 3 and no file is written;
    a temporary directory that was made is not removed. *)
Theorem socket_setup_failure (e : Env) (runtime dir cid : string)
    (err : error) (steps : list Event) :
  nth_error (flag_Args e) 1 = Some runtime ->
  nth_error (flag_Args e) 2 = Some dir ->
  nth_error (flag_Args e) 3 = Some cid ->
  (forall path msg, os_OpenFile e path <> OpenFailed msg) ->
  flag_tty e = true ->
  len (flag_socketDirPath e) <= MaxSocketDirPathLength ->
  socketFails e err steps ->
  run e = ((EvSignalNotify :: pipeEvents dir ++ EvWrite 5 [0] :: steps)%list,
           inl (Panic err)) /\
  goroutine e TMain [] =
    (EvSignalNotify :: pipeEvents dir ++ EvWrite 5 [0] :: steps ++ [EvPanic err])%list /\
  writesOn 3 (trace (run e)) = [] /\
  (forall t captured, ~ In (EvGo t captured) (trace (run e))) /\
  (forall path, ~ In (EvRemoveAll path) (trace (run e))).
Proof.
  intros H1 H2 H3 Hopen Htty Hlen Hfail.
  destruct (openPipes_opened e dir Hopen) as (pipes & Hp).
  assert (Hc : commandOf e runtime dir cid = (steps, inl (Panic err))).
  { unfold commandOf, command. rewrite Htty.
    destruct (Z.gtb_spec (len (flag_socketDirPath e)) MaxSocketDirPathLength);
      [lia |].
    unfold setupTTYSocket.
    destruct Hfail as [err Ht | sockDir err Ht Hl]; cbn [bind emit fst snd app];
      rewrite Ht; [reflexivity | cbn [bind emit fst snd app]; rewrite Hl; reflexivity]. }
  assert (Hrun : run e =
            ((EvSignalNotify :: pipeEvents dir ++ EvWrite 5 [0] :: steps)%list,
             inl (Panic err))).
  { rewrite (run_opened e runtime dir cid pipes H1 H2 H3 Hp). cbn zeta.
    rewrite Hc. cbn [result trace fst snd]. unfold prelude.
    cbn [app]. now rewrite <- app_assoc. }
  split; [exact Hrun |]. split.
  { cbn [goroutine]. unfold actions. rewrite Hrun. cbn [trace result fst snd app].
    rewrite <- app_assoc. reflexivity. }
  rewrite Hrun. cbn [trace fst].
  split.
  { cbn [writesOn]. rewrite writesOn_app. cbn [pipeEvents writesOn app].
    change (5 =? 3) with false. cbn iota.
    destruct Hfail; reflexivity. }
  split.
  - intros t captured [Hin | Hin]; [discriminate |].
    apply in_app_iff in Hin. destruct Hin as [Hin | [Hin | Hin]]; [| discriminate |].
    + cbn in Hin. repeat (destruct Hin as [Hin | Hin]; [discriminate |]). destruct Hin.
    + destruct Hfail; cbn in Hin;
        repeat (destruct Hin as [Hin | Hin]; [discriminate |]); destruct Hin.
  - intros path [Hin | Hin]; [discriminate |].
    apply in_app_iff in Hin. destruct Hin as [Hin | [Hin | Hin]]; [| discriminate |].
    + cbn in Hin. repeat (destruct Hin as [Hin | Hin]; [discriminate |]). destruct Hin.
    + destruct Hfail; cbn in Hin;
        repeat (destruct Hin as [Hin | Hin]; [discriminate |]); destruct Hin.
Qed.

(** A terminal for which the socket cannot be listened on. *)
Definition socketInUse : Env :=
  amend Scenario.terminal (fun _ => Opened) (ioutil_TempDir Scenario.terminal)
        (fun _ => Some "bind: address already in use") None.

Lemma socket_setup_failure_witness :
  run socketInUse =
    ((EvSignalNotify :: pipeEvents "/state"
        ++ EvWrite 5 [0]
        :: [EvTempDir "/socks"; EvListen "/socks/123456789/tty.sock"])%list,
     inl (Panic "bind: address already in use")) /\
  goroutine socketInUse TMain [] =
    (EvSignalNotify :: pipeEvents "/state"
       ++ EvWrite 5 [0]
       :: [EvTempDir "/socks"; EvListen "/socks/123456789/tty.sock"]
       ++ [EvPanic "bind: address already in use"])%list /\
  writesOn 3 (trace (run socketInUse)) = [] /\
  (forall t captured, ~ In (EvGo t captured) (trace (run socketInUse))) /\
  (forall path, ~ In (EvRemoveAll path) (trace (run socketInUse))).
Proof.
  apply (socket_setup_failure socketInUse "runc" "/state" "cake"
           "bind: address already in use"
           [EvTempDir "/socks"; EvListen "/socks/123456789/tty.sock"]).
  - reflexivity.
  - reflexivity.
  - reflexivity.
  - intros path msg. discriminate.
  - reflexivity.
  - vm_compute. discriminate.
  - apply (ListenFails socketInUse "/socks/123456789"); reflexivity.
Defined.

(** ** The counter of [ioWg] stays between 0 and 1 *)

(** The calls of [ioWg.Done], of [ioWg.Add] and the go statements for the
    broker in what a goroutine has still to do. *)
Fixpoint dones (l : list Event) : Z :=
  match l with
  | [] => 0
  | EvIoWgDone :: rest => 1 + dones rest
  | _ :: rest => dones rest
  end.

Fixpoint adds (l : list Event) : Z :=
  match l with
  | [] => 0
  | EvIoWgAdd _ :: rest => 1 + adds rest
  | _ :: rest => adds rest
  end.

Fixpoint brokers (l : list Event) : Z :=
  match l with
  | [] => 0
  | EvGo TBroker _ :: rest => 1 + brokers rest
  | _ :: rest => brokers rest
  end.

(** What the calls to come of the broker need of the counter now: a pump
    the broker starts takes what it will give back with [Done], unless the
    broker adds it before. *)
Fixpoint need (e : Env) (l : list Event) : Z :=
  match l with
  | [] => 0
  | EvIoWgAdd delta :: rest => Z.max 0 (need e rest - delta)
  | EvGo TStdoutPump captured :: rest =>
      need e rest + dones (goroutine e TStdoutPump captured)
  | _ :: rest => need e rest
  end.

(** The calls that leave the counter and the goroutines alone. *)
Definition isNeutral (ev : Event) : Prop :=
  match ev with
  | EvIoWgAdd _ | EvIoWgDone | EvGo _ _ => False
  | _ => True
  end.

Section CounterBounds.

Variable e : Env.

Lemma dones_nonneg l : 0 <= dones l.
Proof. induction l as [| ev l IH]; [reflexivity |]. destruct ev; cbn [dones]; lia. Qed.

Lemma adds_nonneg l : 0 <= adds l.
Proof. induction l as [| ev l IH]; [reflexivity |]. destruct ev; cbn [adds]; lia. Qed.

Lemma brokers_nonneg l : 0 <= brokers l.
Proof.
  induction l as [| ev l IH]; [reflexivity |].
  destruct ev; cbn [brokers]; try lia. destruct t; lia.
Qed.

Lemma need_nonneg l : 0 <= need e l.
Proof.
  induction l as [| ev l IH]; [reflexivity |].
  destruct ev; cbn [need]; try lia.
  destruct t; try lia. pose proof (dones_nonneg (goroutine e TStdoutPump captured)). lia.
Qed.

Lemma neutral_app l r :
  Forall isNeutral l ->
  need e (l ++ r) = need e r /\ adds (l ++ r) = adds r /\
  brokers (l ++ r) = brokers r.
Proof.
  induction 1 as [| ev l Hev _ IH]; [now repeat split |].
  destruct ev; try (now elim Hev); exact IH.
Qed.

Lemma brokers_app l r : brokers (l ++ r) = brokers l + brokers r.
Proof.
  induction l as [| ev l IH]; [reflexivity |].
  destruct ev; cbn [brokers app]; try exact IH. destruct t; lia.
Qed.

Lemma pump_dones captured :
  0 <= dones (goroutine e TStdoutPump captured) <= 1.
Proof. destruct (stdoutPump_body e captured) as [-> | ->]; cbn; lia. Qed.

(** The body of the broker asks nothing of the counter, and adds to it at
    most once. *)
Lemma broker_counter captured :
  need e (goroutine e TBroker captured) = 0 /\
  adds (goroutine e TBroker captured) <= 1.
Proof.
  destruct captured as [| pidFile [| sockDir [| x l]]]; try (cbn; lia).
  assert (Hfail : forall steps err,
            Forall isNeutral steps ->
            need e ((steps ++ trace (killProcess e pidFile)) ++ [EvPanic err]) = 0 /\
            adds ((steps ++ trace (killProcess e pidFile)) ++ [EvPanic err]) <= 1).
  { intros steps err Hsteps.
    assert (Hn : Forall isNeutral (steps ++ trace (killProcess e pidFile))).
    { apply Forall_app. split; [exact Hsteps |].
      destruct (killProcess_calls e pidFile) as [Hc _].
      apply Forall_impl with (P := isKillCall); [now intros [] | exact Hc]. }
    destruct (neutral_app _ [EvPanic err] Hn) as (-> & -> & _). cbn. lia. }
  cbn [goroutine]. unfold actions.
  destruct (ln_Accept e) as [| err |] eqn:Ha.
  - unfold broker, brokerBody. rewrite Ha. cbn. lia.
  - rewrite (broker_accept_fails e pidFile sockDir err Ha). cbn [trace result fst snd].
    apply (Hfail [EvAccept]). repeat constructor.
  - destruct (conn_isUnixConn e) eqn:Hu.
    + destruct (unixconn_File e) as [err |] eqn:Hf.
      * rewrite (broker_file_fails e pidFile sockDir err Ha Hu Hf).
        cbn [trace result fst snd]. apply Hfail. repeat constructor.
      * destruct (cmsg_RecvFd e) as [| err |] eqn:Hr.
        -- unfold broker, brokerBody. rewrite Ha, Hu, Hf, Hr. cbn. lia.
        -- rewrite (broker_recv_fails e pidFile sockDir err Ha Hu Hf Hr).
           cbn [trace result fst snd]. apply Hfail. repeat constructor.
        -- rewrite (broker_streams e pidFile sockDir Ha Hu Hf Hr).
           cbn [trace result fst snd app need adds].
           pose proof (pump_dones []). lia.
    + unfold broker, brokerBody. rewrite Ha, Hu. cbn. lia.
Qed.

(** [main] starts the broker at most once. *)
Lemma main_brokers captured : brokers (goroutine e TMain captured) <= 1.
Proof.
  assert (Hquiet : forall (P : Event -> Prop) l,
            (forall c, ~ P (EvGo TBroker c)) -> Forall P l -> brokers l = 0).
  { intros P l HP. induction 1 as [| ev l Hev _ IH]; [reflexivity |].
    destruct ev; cbn [brokers]; try exact IH.
    destruct t; try exact IH. now elim (HP captured0). }
  assert (Hfinal : forall r : Abort + Z,
            brokers match r with
                    | inr code => [EvExit code]
                    | inl (Panic msg) => [EvPanic msg]
                    | inl Blocked => []
                    end = 0)
    by (intros [[msg |] | code]; reflexivity).
  assert (Hcommand : forall runtime dir cid,
            brokers (trace (commandOf e runtime dir cid)) <= 1).
  { intros runtime dir cid. unfold commandOf, command.
    destruct (flag_tty e); [| cbn; lia].
    destruct (len (flag_socketDirPath e) >? MaxSocketDirPathLength); [cbn; lia |].
    unfold setupTTYSocket.
    destruct (ioutil_TempDir e (flag_socketDirPath e)) as [err | sockDir];
      [cbn; lia |].
    destruct (net_Listen e _); cbn; lia. }
  assert (Hprelude : forall dir, brokers (prelude dir) = 0) by reflexivity.
  cbn [goroutine]. unfold actions. rewrite brokers_app, Hfinal.
  destruct (run_cases e)
    as [-> | [(runtime & dir & cid & tr & msg & _ & _ & _ & Hopen & ->)
           | [(runtime & dir & cid & stop & _ & _ & _ & _ & ->)
             | (runtime & dir & cid & argv & stdio & _ & _ & _ & _ & ->)]]];
    cbn zeta; cbn [trace fst].
  - cbn. lia.
  - cbn [brokers].
    rewrite (Hquiet isOpenFile tr) by (auto; now intros c). lia.
  - rewrite brokers_app, Hprelude. specialize (Hcommand runtime dir cid). lia.
  - rewrite !brokers_app, Hprelude.
    destruct (supervise_calls e argv stdio dir (pidFileOf dir)) as (tail & -> & Htail).
    cbn [brokers].
    rewrite (Hquiet isAfterStart tail) by (auto; now intros c).
    specialize (Hcommand runtime dir cid). lia.
Qed.

(** The invariant: what the pump and the broker will still take from the
    counter is there, and what the broker and [main] can still add fits
    under 1. *)
Definition counted (s : Sys) : Prop :=
  dones (pending s TStdoutPump) + need e (pending s TBroker) <= ioWg s /\
  ioWg s + adds (pending s TBroker) + brokers (pending s TMain) <= 1.

Lemma reachable_counted s : reachable e s -> counted s.
Proof.
  revert s. apply (reachable_ind e counted).
  - unfold counted, init, update. cbn [pending ioWg Tid_eqb dones need adds].
    pose proof (main_brokers []). lia.
  - intros s t s' Hr [Hlow Hup] Hs.
    destruct (step_inv _ _ _ _ Hs) as (ev & rest & _ & Hp & _ & ->).
    destruct (reachable_inOrder e s Hr t) as (c & done & Hb & _).
    assert (Hmay : mayCall (flag_tty e) t ev).
    { apply (goroutine_may e t c). rewrite Hb, Hp. apply in_app_iff. right. now left. }
    pose proof (dones_nonneg (pending s TStdoutPump)) as Hd.
    pose proof (adds_nonneg (pending s TBroker)) as Ha.
    pose proof (need_nonneg (pending s TBroker)) as Hn.
    pose proof (brokers_nonneg (pending s TMain)) as Hm.
    unfold counted.
    destruct t; cbn [mayCall] in Hmay.
    + (* main *)
      rewrite Hp in Hup, Hm.
      destruct ev; cbn [isMainCall] in Hmay; try contradiction;
        cbn [effect pending ioWg update Tid_eqb]; cbn [brokers] in Hup, Hm;
        try (split; lia).
      destruct Hmay as [_ ->]. cbn [update Tid_eqb].
      destruct (broker_counter captured) as [-> Hone]. split; lia.
    + (* the broker *)
      rewrite Hp in Hlow, Hup, Ha, Hn.
      destruct ev; cbn [isBrokerCall] in Hmay; try contradiction;
        cbn [effect pending ioWg update Tid_eqb]; cbn [need adds] in Hlow, Hup, Ha, Hn;
        try (split; lia).
      destruct Hmay as [-> | [-> | ->]]; cbn [update Tid_eqb];
        cbn [need adds] in Hlow, Hup; split; lia.
    + (* the pump of stdout *)
      rewrite Hp in Hlow, Hd.
      destruct Hmay as [-> | ->]; cbn [effect pending ioWg update Tid_eqb];
        cbn [dones] in Hlow, Hd; split; lia.
    + subst ev. cbn [effect pending ioWg update Tid_eqb]. split; lia.
    + destruct ev; try contradiction;
        cbn [effect pending ioWg update Tid_eqb]; split; lia.
Qed.

End CounterBounds.

(** X15.  In every state the process can reach the counter of [ioWg] is 0
    or 1: it never goes below zero, which would make [Done] panic, and the
    one pump that is waited for is registered at most once. *)
Theorem ioWg_zero_or_one (e : Env) (s : Sys) :
  reachable e s -> ioWg s = 0 \/ ioWg s = 1.
Proof.
  intros Hr. destruct (reachable_counted e s Hr) as [Hlow Hup].
  pose proof (dones_nonneg (pending s TStdoutPump)).
  pose proof (adds_nonneg (pending s TBroker)).
  pose proof (need_nonneg e (pending s TBroker)).
  pose proof (brokers_nonneg (pending s TMain)).
  lia.
Qed.

(** A run with a terminal, stopped when the broker has registered the pump
    of stdout and has not yet started it. *)
Definition pumpRegistered : Sys :=
  match exec Scenario.terminal (repeat TMain 10 ++ repeat TBroker 6)%list
             (init Scenario.terminal) with
  | Some s => s
  | None => init Scenario.terminal
  end.

Lemma ioWg_zero_or_one_witness :
  ioWg pumpRegistered = 0 \/ ioWg pumpRegistered = 1.
Proof.
  apply (ioWg_zero_or_one Scenario.terminal pumpRegistered).
  exists (repeat TMain 10 ++ repeat TBroker 6)%list. vm_compute. reflexivity.
Defined.

(** In that state the counter is 1 and the pump is not started. *)
Example pumpRegistered_counter :
  ioWg pumpRegistered = 1 /\
  hd_error (history pumpRegistered) = Some (TBroker, EvIoWgAdd 1) /\
  pending pumpRegistered TStdoutPump = [].
Proof. repeat split. Qed.

(** ** The codes [run] returns *)

Lemma exitCodeOf_bounds (status : Z) : -1 <= exitCodeOf status < 256.
Proof.
  unfold exitCodeOf. destruct (WaitStatus.Signaled status) eqn:S.
  - pose proof (WaitStatusFacts.Signal_range status S). lia.
  - apply WaitStatusFacts.ExitStatus_range.
Qed.

(** X16.  When [run] returns, its code is 2, 3, or the exit code of the
    container process.  It is 2 when the runtime could not be started, and
    descriptor 3 then carries the byte 2.  It is 3 when the front process of
    the runtime did not exit with status 0, and descriptor 3 then carries
    that status as a byte.  Otherwise the pid file gave a pid, a [Wait4] of
    the reaper gave that pid with a status, the code is the exit code of
    that status, between -1 and 255, descriptor 3 carries the byte 0, and
    the write of the exit code file succeeded. *)
Theorem run_return_codes (e : Env) (code : Z) :
  result (run e) = inr code ->
  (code = 2 /\ (exists err, cmd_Start e = inl err) /\
   writesOn 3 (trace (run e)) = [[2]]) \/
  (code = 3 /\
   exists child front,
     cmd_Start e = inr child /\ wait4_front e = inr front /\
     WaitStatus.ExitStatus front <> 0 /\
     writesOn 3 (trace (run e)) = [[byte (WaitStatus.ExitStatus front)]]) \/
  (exists child front containerPid answers status,
     cmd_Start e = inr child /\ wait4_front e = inr front /\
     WaitStatus.ExitStatus front = 0 /\
     parsed (pidfile_main e) = (containerPid, None) /\
     0 < containerPid /\
     In answers (sigchld e) /\ In (W4Ok containerPid status) answers /\
     code = exitCodeOf status /\ -1 <= code < 256 /\
     writesOn 3 (trace (run e)) = [[0]] /\
     ioutil_WriteFile e = None).
Proof.
  intros Hres.
  destruct (run_returns_inv e code Hres)
    as (runtime & dir & cid & pipes & argv & stdio & H1 & H2 & H3 & Hp & Hc).
  pose proof (run_started e _ _ _ _ _ _ H1 H2 H3 Hp Hc) as Hrun. cbn zeta in Hrun.
  rewrite Hrun in Hres |- *. cbn [trace result fst snd] in Hres |- *.
  rewrite !writesOn_app, prelude_status, command_status. cbn [app].
  destruct (supervise_cases e argv stdio dir (pidFileOf dir))
    as [(err & Hstart & Hs) | [(child & err & _ & _ & Hs) |
        [(child & front & Hstart & Hfront & Hnz & Hs) |
         [(child & front & pid & err & _ & _ & _ & _ & Hs) |
          (child & front & cpid & Hstart & Hfront & Hz & Hpid & Hs)]]]];
    rewrite Hs in Hres |- *; cbn zeta in Hres |- *;
    cbn [trace result fst snd] in Hres |- *; try discriminate.
  - left. injection Hres as <-. split; [reflexivity |].
    split; [now exists err | reflexivity].
  - right. left. injection Hres as <-. split; [reflexivity |].
    exists child, front. now repeat split.
  - right. right.
    destruct (waitForContainerToExit_outcome e dir cpid (sigchld e))
      as [(pre & answers & status & Hin & Hin' & Hpos & _ & _ & Hr) | [Hr _]];
      rewrite Hr in Hres; [| discriminate].
    unfold afterWrite in Hres.
    destruct (ioutil_WriteFile e) as [msg |] eqn:Hw; [discriminate |].
    injection Hres as <-.
    exists child, front, cpid, answers, status.
    do 7 (split; [reflexivity || assumption |]).
    split; [reflexivity |]. split; [apply exitCodeOf_bounds |].
    split; [| reflexivity].
    unfold launched. rewrite Hz.
    cbn [app writesOn Z.eqb Pos.eqb]. now rewrite reaper_status.
Qed.

Lemma run_return_codes_witness :
  (7 = 2 /\ (exists err, cmd_Start Scenario.exits7 = inl err) /\
   writesOn 3 (trace (run Scenario.exits7)) = [[2]]) \/
  (7 = 3 /\
   exists child front,
     cmd_Start Scenario.exits7 = inr child /\
     wait4_front Scenario.exits7 = inr front /\
     WaitStatus.ExitStatus front <> 0 /\
     writesOn 3 (trace (run Scenario.exits7)) =
       [[byte (WaitStatus.ExitStatus front)]]) \/
  (exists child front containerPid answers status,
     cmd_Start Scenario.exits7 = inr child /\
     wait4_front Scenario.exits7 = inr front /\
     WaitStatus.ExitStatus front = 0 /\
     parsed (pidfile_main Scenario.exits7) = (containerPid, None) /\
     0 < containerPid /\
     In answers (sigchld Scenario.exits7) /\
     In (W4Ok containerPid status) answers /\
     7 = exitCodeOf status /\ -1 <= 7 < 256 /\
     writesOn 3 (trace (run Scenario.exits7)) = [[0]] /\
     ioutil_WriteFile Scenario.exits7 = None).
Proof.
  apply (run_return_codes Scenario.exits7 7). reflexivity.
Defined.

(** ** How the process ends *)


Section Ending.

Variable e : Env.




End Ending.


(** The process of the run in which [RecvFd] fails, when the broker has
    panicked. *)
Definition brokerPanicked : Sys :=
  match exec Scenario.recvFailsPidLate
             (repeat TMain 10 ++ repeat TBroker 13)%list
             (init Scenario.recvFailsPidLate) with
  | Some s => s
  | None => init Scenario.recvFailsPidLate
  end.


(** In that run the broker ends the process while [main] has not yet started
    the runtime. *)
Example brokerPanicked_history :
  hd_error (history brokerPanicked) =
    Some (TBroker, EvPanic "recvfd: no fd received") /\
  halted brokerPanicked = true /\
  step Scenario.recvFailsPidLate TMain brokerPanicked = None.
Proof. repeat split. Qed.

(** * The runner of the integration tests

    [package runner] starts the guardian server for the tests and stops it.
    The server is an [ifrit.Process]; the calls on it and on the garden
    client are recorded, and what they answer is read from a [World]. *)
Module runner.

Definition SIGTERM : Z := 15.

Inductive Call :=
| CSignal (sig : Z)            (* r.process.Signal(sig) *)
| CWaited                      (* the select took <-r.process.Wait() *)
| CTimeout (seconds : Z)       (* the select took <-time.After(seconds) *)
| CContainers                  (* r.Containers(nil) *)
| CDestroy (handle : string).  (* r.Destroy(handle) *)

(** [selects n]: the case the select number [n] of a method takes, [Some err]
    when the process has exited with [err] (which may be nil), [None] when
    the timer fires first.  [containers]: what [r.Containers(nil)] gives, the
    handles of the containers or an error.  [destroy]: what [r.Destroy]
    gives for a handle. *)
Record World := {
  selects : nat -> option (option error);
  containers : error + list string;
  destroy : string -> option error
}.

Definition timedOut5 : error :=
  "timed out waiting for garden to shutdown after 5 seconds".

Definition timedOut10 : error :=
  "timed out waiting for garden to shutdown after 10 seconds".

(** The loop of [Stop]: [rounds] iterations are left, [n] selects were made,
    [err] is the variable of the function. *)
Fixpoint stopLoop (w : World) (rounds n : nat) (err : option error)
  : list Call * option error :=
  match rounds with
  | O => ([CSignal SIGKILL], err)
  | S rounds' =>
      match selects w n with
      | Some exitErr => ([CWaited], exitErr)
      | None =>
          let '(calls, r) := stopLoop w rounds' (S n) (Some timedOut5) in
          (CTimeout 5 :: CSignal SIGTERM :: calls, r)
      end
  end.

Definition Stop (w : World) : list Call * option error :=
  let '(calls, r) := stopLoop w 5 0 None in
  (CSignal SIGTERM :: calls, r).

Definition Kill (w : World) : list Call * option error :=
  match selects w 0 with
  | Some exitErr => ([CSignal SIGKILL; CWaited], exitErr)
  | None => ([CSignal SIGKILL; CTimeout 10; CSignal SIGKILL], Some timedOut10)
  end.

(** The loop of [DestroyContainers]: what [r.Destroy] returns is dropped. *)
Fixpoint destroyAll (w : World) (handles : list string) : list Call :=
  match handles with
  | [] => []
  | handle :: rest =>
      let _ := destroy w handle in
      CDestroy handle :: destroyAll w rest
  end.

Definition DestroyContainers (w : World) : list Call * option error :=
  match containers w with
  | inl err => ([CContainers], Some err)
  | inr handles => (CContainers :: destroyAll w handles, None)
  end.

Definition DestroyAndStop (w : World) : list Call * option error :=
  let '(calls, err) := DestroyContainers w in
  match err with
  | Some err => (calls, Some err)
  | None =>
      let '(calls', err') := Stop w in
      match err' with
      | Some err' => ((calls ++ calls')%list, Some err')
      | None => ((calls ++ calls')%list, None)
      end
  end.

(** The loop of [NewGardenRunner] over [r.Cmd.Args] that finds the debug
    address: [todo] is what is left of [Args], [i] the index of its head, and
    [debug] the fields [DebugIp] and [DebugPort].  [atoi s] is the number
    [strconv.Atoi] returns for [s], whose error the loop drops. *)
Fixpoint debugFlags (atoi : string -> Z) (Args todo : list string) (i : nat)
    (debug : string * Z) : Abort + (string * Z) :=
  match todo with
  | [] => inr debug
  | arg :: rest =>
      let next (k : string -> Abort + (string * Z)) : Abort + (string * Z) :=
        match nth_error Args (i + 1) with
        | Some x => k x
        | None => inl (Panic "runtime error: index out of range")
        end in
      let afterPort (debug : string * Z) : Abort + (string * Z) :=
        if String.eqb arg "--debug-bind-port" then
          next (fun x => debugFlags atoi Args rest (S i) (fst debug, atoi x))
        else debugFlags atoi Args rest (S i) debug in
      if String.eqb arg "--debug-bind-ip" then
        next (fun x => afterPort (x, snd debug))
      else afterPort debug
  end.

(** The fields after the loop, from the zero value of [GardenRunner]. *)
Definition debugAddress (atoi : string -> Z) (Args : list string)
  : Abort + (string * Z) :=
  debugFlags atoi Args Args 0 (EmptyString, 0).

End runner.

(** ** Stopping the server *)

Section Stopping.

Import runner.

Variable w : World.

(** [k] rounds of [Stop] in which the timer fires. *)
Definition timeouts (k : nat) : list Call :=
  List.concat (repeat [CTimeout 5; CSignal SIGTERM] k).

Lemma stopLoop_cases rounds n err :
  (exists k exitErr,
      (k < rounds)%nat /\
      (forall j, (j < k)%nat -> selects w (n + j) = None) /\
      selects w (n + k) = Some exitErr /\
      stopLoop w rounds n err = ((timeouts k ++ [CWaited])%list, exitErr)) \/
  ((forall j, (j < rounds)%nat -> selects w (n + j) = None) /\
   stopLoop w rounds n err =
   ((timeouts rounds ++ [CSignal SIGKILL])%list,
    match rounds with O => err | S _ => Some timedOut5 end)).
Proof.
  revert n err. induction rounds as [| rounds IH]; intros n err.
  - right. split; [intros j Hj; lia | reflexivity].
  - cbn [stopLoop]. destruct (selects w n) as [exitErr |] eqn:Hsel.
    + left. exists 0%nat, exitErr. split; [lia |].
      split; [intros j Hj; lia |]. rewrite Nat.add_0_r. now split.
    + destruct (IH (S n) (Some timedOut5))
        as [(k & exitErr & Hk & Hbefore & Hat & ->) | [Hall ->]].
      * left. exists (S k), exitErr. split; [lia |]. split; [| split].
        -- intros [| j] Hj; [now rewrite Nat.add_0_r |].
           replace (n + S j)%nat with (S n + j)%nat by lia. apply Hbefore. lia.
        -- now replace (n + S k)%nat with (S n + k)%nat by lia.
        -- reflexivity.
      * right. split.
        -- intros [| j] Hj; [now rewrite Nat.add_0_r |].
           replace (n + S j)%nat with (S n + j)%nat by lia. apply Hall. lia.
        -- now destruct rounds.
Qed.

Lemma timeouts_no_kill k : ~ In (CSignal SIGKILL) (timeouts k).
Proof.
  induction k as [| k IH]; [intros [] |].
  intros [H | [H | H]]; [discriminate | discriminate | now apply IH].
Qed.

End Stopping.

(** X17.  [Stop] sends SIGTERM and then waits in rounds of 5 seconds, at most
    five.  When the server exits in a round, [Stop] returns what the server
    exited with, whatever timed out before, having sent one more SIGTERM
    after each round that timed out and no SIGKILL.  When all five rounds
    time out, [Stop] has sent six SIGTERM, sends SIGKILL, and returns the
    time-out error without waiting for the server to exit. *)
Theorem Stop_outcome (w : runner.World) :
  (exists k exitErr,
      (k < 5)%nat /\
      (forall j, (j < k)%nat -> runner.selects w j = None) /\
      runner.selects w k = Some exitErr /\
      runner.Stop w =
        ((runner.CSignal runner.SIGTERM :: timeouts k ++ [runner.CWaited])%list,
         exitErr)) \/
  ((forall j, (j < 5)%nat -> runner.selects w j = None) /\
   runner.Stop w =
     ((runner.CSignal runner.SIGTERM :: timeouts 5
         ++ [runner.CSignal SIGKILL])%list,
      Some runner.timedOut5)).
Proof.
  unfold runner.Stop.
  destruct (stopLoop_cases w 5 0 None)
    as [(k & exitErr & Hk & Hbefore & Hat & ->) | [Hall ->]].
  - left. now exists k, exitErr.
  - now right.
Qed.

(** X18.  [Stop] sends SIGKILL exactly when the server did not exit in any of
    the five rounds; and it returns nil exactly when the server exited with
    nil in the first round that did not time out: the time-outs of the
    rounds before are forgotten. *)
Theorem Stop_kill_and_nil (w : runner.World) :
  (In (runner.CSignal SIGKILL) (fst (runner.Stop w)) <->
   forall j, (j < 5)%nat -> runner.selects w j = None) /\
  (snd (runner.Stop w) = None <->
   exists k, (k < 5)%nat /\
             (forall j, (j < k)%nat -> runner.selects w j = None) /\
             runner.selects w k = Some None).
Proof.
  unfold runner.Stop.
  destruct (stopLoop_cases w 5 0 None)
    as [(k & exitErr & Hk & Hbefore & Hat & ->) | [Hall ->]];
    cbn [fst snd Nat.add] in *; split; split.
  - intros [H | H]; [discriminate |]. apply in_app_iff in H.
    destruct H as [H | [H | []]]; [now apply timeouts_no_kill in H | discriminate].
  - intros Hall. rewrite (Hall k Hk) in Hat. discriminate.
  - intros ->. now exists k.
  - intros (k' & Hk' & Hbefore' & Hat').
    destruct (Nat.lt_trichotomy k k') as [Hlt | [<- | Hgt]].
    + rewrite (Hbefore' k Hlt) in Hat. discriminate.
    + rewrite Hat in Hat'. now injection Hat'.
    + rewrite (Hbefore k' Hgt) in Hat'. discriminate.
  - intros _. exact Hall.
  - intros _. right. apply in_app_iff. right. now left.
  - discriminate.
  - intros (k & Hk & _ & Hat). rewrite (Hall k Hk) in Hat. discriminate.
Qed.

(** X19.  [DestroyAndStop] stops the server only when the containers could
    be listed: when the listing fails it returns that error and sends no
    signal.  Otherwise it destroys every listed container, in order and
    whatever a destroy returns, then does what [Stop] does and returns what
    [Stop] returns. *)
Theorem DestroyAndStop_outcome (w : runner.World) :
  (forall err,
     runner.containers w = inl err ->
     runner.DestroyAndStop w = ([runner.CContainers], Some err)) /\
  (forall handles,
     runner.containers w = inr handles ->
     runner.DestroyAndStop w =
       ((runner.CContainers :: map runner.CDestroy handles
           ++ fst (runner.Stop w))%list,
        snd (runner.Stop w))) /\
  (forall sig,
     In (runner.CSignal sig) (fst (runner.DestroyAndStop w)) ->
     exists handles, runner.containers w = inr handles).
Proof.
  assert (Hall : forall handles, runner.destroyAll w handles = map runner.CDestroy handles).
  { induction handles as [| h rest IH]; [reflexivity |].
    cbn [runner.destroyAll map]. now rewrite IH. }
  unfold runner.DestroyAndStop, runner.DestroyContainers.
  destruct (runner.containers w) as [err | handles].
  - split; [now intros ? [= <-] |]. split; [discriminate |].
    intros sig [H | []]. discriminate.
  - split; [discriminate |]. split; [| intros; now exists handles].
    intros ? [= <-]. rewrite Hall.
    destruct (runner.Stop w) as [calls [err |]]; reflexivity.
Qed.

(** A server that exits cleanly in the third round: [Stop] returns nil, after
    three SIGTERM and no SIGKILL. *)
Example Stop_third_round :
  runner.Stop {| runner.selects := fun n => if (n <? 2)%nat then None else Some None;
                 runner.containers := inr [];
                 runner.destroy := fun _ => None |} =
  ([runner.CSignal 15; runner.CTimeout 5; runner.CSignal 15;
    runner.CTimeout 5; runner.CSignal 15; runner.CWaited], None).
Proof. reflexivity. Qed.

(** ** The debug address of the server *)

Section DebugFlags.

Import runner.

Variable atoi : string -> Z.

Definition isDebugFlag (arg : string) : bool :=
  String.eqb arg "--debug-bind-ip" || String.eqb arg "--debug-bind-port".

(** One iteration of the loop. *)
Lemma debugFlags_cons Args arg rest i debug :
  debugFlags atoi Args (arg :: rest) i debug =
  if isDebugFlag arg then
    match nth_error Args (i + 1) with
    | Some x =>
        debugFlags atoi Args rest (S i)
          (if String.eqb arg "--debug-bind-ip" then x else fst debug,
           if String.eqb arg "--debug-bind-port" then atoi x else snd debug)
    | None => inl (Panic "runtime error: index out of range")
    end
  else debugFlags atoi Args rest (S i) debug.
Proof.
  cbn [debugFlags]. unfold isDebugFlag.
  destruct (String.eqb_spec arg "--debug-bind-ip") as [-> | Hip].
  - cbn. now destruct (nth_error Args (i + 1)).
  - cbn [orb]. destruct (String.eqb arg "--debug-bind-port").
    + now destruct (nth_error Args (i + 1)).
    + reflexivity.
Qed.

Lemma nth_error_next (done : list string) arg rest :
  nth_error (done ++ arg :: rest) (List.length done + 1) = hd_error rest.
Proof.
  rewrite nth_error_app2 by lia.
  replace (List.length done + 1 - List.length done)%nat with 1%nat by lia.
  now destruct rest.
Qed.

(** The loop panics exactly when the last argument is one of the flags. *)
Lemma debugFlags_panics todo : forall done debug,
  (exists r, debugFlags atoi (done ++ todo) todo (List.length done) debug = inr r /\
             isDebugFlag (last todo EmptyString) = false) \/
  (debugFlags atoi (done ++ todo) todo (List.length done) debug =
     inl (Panic "runtime error: index out of range") /\
   isDebugFlag (last todo EmptyString) = true).
Proof.
  induction todo as [| arg rest IH]; intros done debug.
  - left. now exists debug.
  - rewrite debugFlags_cons, nth_error_next.
    assert (Hnext : forall d,
              (exists r, debugFlags atoi (done ++ arg :: rest) rest
                                    (S (List.length done)) d = inr r /\
                         isDebugFlag (last rest EmptyString) = false) \/
              (debugFlags atoi (done ++ arg :: rest) rest
                          (S (List.length done)) d =
                 inl (Panic "runtime error: index out of range") /\
               isDebugFlag (last rest EmptyString) = true)).
    { intros d. specialize (IH (done ++ [arg])%list d).
      rewrite <- app_assoc, length_app in IH. cbn [app List.length] in IH.
      now replace (List.length done + 1)%nat with (S (List.length done)) in IH by lia. }
    destruct rest as [| x rest'].
    + cbn [hd_error last]. destruct (isDebugFlag arg) eqn:Hflag.
      * right. now split.
      * left. exists debug. now split.
    + cbn [hd_error]. change (last (arg :: x :: rest') EmptyString)
        with (last (x :: rest') EmptyString).
      destruct (isDebugFlag arg); apply Hnext.
Qed.

(** Without the flag for the address in what is left, the address stays. *)
Lemma debugFlags_ip_kept todo : forall done debug r,
  ~ In "--debug-bind-ip" todo ->
  debugFlags atoi (done ++ todo) todo (List.length done) debug = inr r ->
  fst r = fst debug.
Proof.
  induction todo as [| arg rest IH]; intros done debug r Hno.
  - now intros [= <-].
  - rewrite debugFlags_cons, nth_error_next.
    assert (Hne : String.eqb arg "--debug-bind-ip" = false).
    { apply String.eqb_neq. intros ->. apply Hno. now left. }
    assert (Hno' : ~ In "--debug-bind-ip" rest) by (intros H; apply Hno; now right).
    assert (Hnext : forall d,
              debugFlags atoi (done ++ arg :: rest) rest (S (List.length done)) d
                = inr r -> fst r = fst d).
    { intros d. specialize (IH (done ++ [arg])%list d r Hno').
      rewrite <- app_assoc, length_app in IH. cbn [app List.length] in IH.
      now replace (List.length done + 1)%nat with (S (List.length done)) in IH by lia. }
    rewrite Hne. destruct (isDebugFlag arg).
    + destruct (hd_error rest) as [x |]; [| discriminate].
      intros H. now rewrite (Hnext _ H).
    + apply Hnext.
Qed.

Lemma debugFlags_port_kept todo : forall done debug r,
  ~ In "--debug-bind-port" todo ->
  debugFlags atoi (done ++ todo) todo (List.length done) debug = inr r ->
  snd r = snd debug.
Proof.
  induction todo as [| arg rest IH]; intros done debug r Hno.
  - now intros [= <-].
  - rewrite debugFlags_cons, nth_error_next.
    assert (Hne : String.eqb arg "--debug-bind-port" = false).
    { apply String.eqb_neq. intros ->. apply Hno. now left. }
    assert (Hno' : ~ In "--debug-bind-port" rest) by (intros H; apply Hno; now right).
    assert (Hnext : forall d,
              debugFlags atoi (done ++ arg :: rest) rest (S (List.length done)) d
                = inr r -> snd r = snd d).
    { intros d. specialize (IH (done ++ [arg])%list d r Hno').
      rewrite <- app_assoc, length_app in IH. cbn [app List.length] in IH.
      now replace (List.length done + 1)%nat with (S (List.length done)) in IH by lia. }
    rewrite Hne. destruct (isDebugFlag arg).
    + destruct (hd_error rest) as [x |]; [| discriminate].
      intros H. now rewrite (Hnext _ H).
    + apply Hnext.
Qed.

(** The last occurrence of a flag gives the field. *)
Lemma debugFlags_last pre : forall done debug r flag v post,
  debugFlags atoi (done ++ pre ++ flag :: v :: post) (pre ++ flag :: v :: post)
             (List.length done) debug = inr r ->
  (flag = "--debug-bind-ip" -> ~ In flag (v :: post) -> fst r = v) /\
  (flag = "--debug-bind-port" -> ~ In flag (v :: post) -> snd r = atoi v).
Proof.
  induction pre as [| arg pre IH]; intros done debug r flag v post.
  - cbn [app]. rewrite debugFlags_cons, nth_error_next. cbn [hd_error].
    replace (done ++ flag :: v :: post)%list
      with ((done ++ [flag]) ++ v :: post)%list by now rewrite <- app_assoc.
    replace (S (List.length done)) with (List.length (done ++ [flag]))
      by (rewrite length_app; cbn; lia).
    intros Hrun. split; intros -> Hno.
    + change (isDebugFlag "--debug-bind-ip") with true in Hrun.
      change (String.eqb "--debug-bind-ip" "--debug-bind-ip") with true in Hrun.
      cbv beta iota in Hrun.
      now rewrite (debugFlags_ip_kept _ _ _ _ Hno Hrun).
    + change (isDebugFlag "--debug-bind-port") with true in Hrun.
      change (String.eqb "--debug-bind-port" "--debug-bind-port") with true in Hrun.
      cbv beta iota in Hrun.
      now rewrite (debugFlags_port_kept _ _ _ _ Hno Hrun).
  - cbn [app]. rewrite debugFlags_cons, nth_error_next.
    assert (Hnext : forall d,
              debugFlags atoi (done ++ arg :: pre ++ flag :: v :: post)
                         (pre ++ flag :: v :: post) (S (List.length done)) d = inr r ->
              (flag = "--debug-bind-ip" -> ~ In flag (v :: post) -> fst r = v) /\
              (flag = "--debug-bind-port" -> ~ In flag (v :: post) -> snd r = atoi v)).
    { intros d. specialize (IH (done ++ [arg])%list d r flag v post).
      rewrite <- app_assoc, length_app in IH. cbn [app List.length] in IH.
      now replace (List.length done + 1)%nat with (S (List.length done)) in IH by lia. }
    destruct (isDebugFlag arg).
    + destruct (hd_error (pre ++ flag :: v :: post)) as [x |]; [| discriminate].
      apply Hnext.
    + apply Hnext.
Qed.

End DebugFlags.

(** X20.  The loop of [NewGardenRunner] that looks for [--debug-bind-ip] and
    [--debug-bind-port] in the arguments of the command panics with an index
    out of range exactly when the last argument is one of these two flags;
    in every other case it ends, and without any of the two flags the
    address stays empty and the port 0. *)
Theorem debugAddress_trailing_flag (atoi : string -> Z) (Args : list string) :
  (runner.debugAddress atoi Args = inl (Panic "runtime error: index out of range")
   <-> isDebugFlag (last Args EmptyString) = true) /\
  ((exists r, runner.debugAddress atoi Args = inr r)
   <-> isDebugFlag (last Args EmptyString) = false) /\
  (~ In "--debug-bind-ip" Args -> ~ In "--debug-bind-port" Args ->
   runner.debugAddress atoi Args = inr (EmptyString, 0)).
Proof.
  unfold runner.debugAddress.
  pose proof (debugFlags_panics atoi Args [] (EmptyString, 0)) as Hp.
  cbn [app List.length] in Hp.
  split; [| split].
  - destruct Hp as [(r & -> & Hflag) | [-> Hflag]]; rewrite Hflag;
      split; intros H; [discriminate | discriminate | reflexivity | reflexivity].
  - destruct Hp as [(r & -> & Hflag) | [-> Hflag]]; rewrite Hflag; split.
    + reflexivity.
    + intros _. now exists r.
    + intros [r H]. discriminate.
    + discriminate.
  - intros Hip Hport.
    assert (Hflag : isDebugFlag (last Args EmptyString) = false).
    { destruct Args as [| a rest]; [reflexivity |].
      assert (Hin : In (last (a :: rest) EmptyString) (a :: rest)).
      { clear. revert a. induction rest as [| b rest IH]; intros a; [now left |].
        right. apply IH. }
      unfold isDebugFlag. apply orb_false_iff. split; apply String.eqb_neq;
        intros Heq; rewrite Heq in Hin; contradiction. }
    destruct Hp as [(r & Hr & _) | [_ Hflag']]; [| congruence].
    rewrite Hr. f_equal.
    pose proof (debugFlags_ip_kept atoi Args [] _ r Hip Hr) as H1.
    pose proof (debugFlags_port_kept atoi Args [] _ r Hport Hr) as H2.
    destruct r as [ip port]. cbn [fst snd] in H1, H2. now subst.
Qed.

(** X21.  When the loop ends, the last occurrence of a flag decides: the
    address is the argument after the last [--debug-bind-ip], and the port
    is what [strconv.Atoi] returns for the argument after the last
    [--debug-bind-port], whatever its error. *)
Theorem debugAddress_last_wins (atoi : string -> Z)
    (pre post : list string) (flag v : string) (r : string * Z) :
  runner.debugAddress atoi (pre ++ flag :: v :: post) = inr r ->
  ~ In flag (v :: post) ->
  (flag = "--debug-bind-ip" -> fst r = v) /\
  (flag = "--debug-bind-port" -> snd r = atoi v).
Proof.
  unfold runner.debugAddress. intros Hr Hno.
  destruct (debugFlags_last atoi pre [] (EmptyString, 0) r flag v post Hr)
    as [Hip Hport].
  split; intros Hflag; [now apply Hip | now apply Hport].
Qed.

(** A [strconv.Atoi] for the example: the numbers it has to read. *)
Definition atoiExample (s : string) : Z :=
  if String.eqb s "8080" then 8080 else if String.eqb s "1" then 1 else 0.

Lemma debugAddress_last_wins_witness :
  (("--debug-bind-port" : string) = "--debug-bind-ip" ->
   fst ("10.0.0.1", 8080) = "8080") /\
  (("--debug-bind-port" : string) = "--debug-bind-port" ->
   snd ("10.0.0.1", 8080) = atoiExample "8080").
Proof.
  apply (debugAddress_last_wins atoiExample
           ["guardian"; "--debug-bind-ip"; "127.0.0.1"; "--debug-bind-port"; "1";
            "--debug-bind-ip"; "10.0.0.1"]
           ["--tag"; "x"] "--debug-bind-port" "8080" ("10.0.0.1", 8080)).
  - reflexivity.
  - intros [H | [H | [H | []]]]; discriminate.
Defined.

(** A flag at the end of the arguments makes [NewGardenRunner] panic. *)
Example debugAddress_flag_at_end :
  runner.debugAddress atoiExample ["guardian"; "--debug-bind-port"] =
  inl (Panic "runtime error: index out of range").
Proof. reflexivity. Qed.
